(** * DPF JACK standalone bridge: a shallow embedding of
      [distrho/src/DistrhoPluginJACK.cpp]

    The class [PluginJack] connects a JACK client (the host) to a DPF
    plugin (the DSP core) and to its UI.  This development embeds the
    control-data paths of that class:

    - the constructor's initial synchronisation (programs, parameters),
    - [idleCallback] (UI thread: program and parameter notifications),
    - [jackProcess] (audio thread: time position, trigger reset, MIDI
      gathering, CC / program-change interpretation, DSP invocation),
    - [sendNote], [updateParameterTriggers], [requestParameterValueChange].

    Audio buffers, port registration, metadata publication and the MIDI
    output port carry no control data and are left out.  Calls made to the
    DSP core and to the UI are recorded, oldest first, in a trace. *)

From Stdlib Require Import ZArith Bool List Lia QArith Qabs SpecFloat.
From stdpp Require Import base list sorting strings.
Import ListNotations.

Local Open Scope Z_scope.

(** ** Machine numbers *)

(** [uint8_t] and [uint32_t] stores wrap around. *)
Definition uint8 (z : Z) : Z := z mod 256.
Definition uint32 (z : Z) : Z := z mod 2 ^ 32.

(** C++ [float] is IEEE binary32, [double] is IEEE binary64; both are
    values of [spec_float], the operations differ in precision. *)
Definition float : Type := spec_float.
Definition double : Type := spec_float.

Module F32.
Definition prec : Z := 24.
Definition emax : Z := 128.
Definition of_Z (z : Z) : float := binary_normalize prec emax z 0 false.
Definition zero : float := S754_zero false.
Definition add : float -> float -> float := SFadd prec emax.
Definition sub : float -> float -> float := SFsub prec emax.
Definition mul : float -> float -> float := SFmul prec emax.
Definition div : float -> float -> float := SFdiv prec emax.
Definition abs : float -> float := SFabs.
Definition ltb : float -> float -> bool := SFltb.
  (** [std::numeric_limits<float>::epsilon()], 2^-23. *)
Definition epsilon : float := S754_finite false 8388608 (-46).
  (** The rational value of a finite float (0 for the others). *)
Definition to_Q (x : float) : Q :=
    match x with
    | S754_finite s m e =>
        let n := if s then Z.neg m else Z.pos m in
        if (0 <=? e)%Z then inject_Z (n * 2 ^ e) else Qmake n (Z.to_pos (2 ^ (- e)))
    | _ => 0%Q
    end.
End F32.

Module F64.
Definition prec : Z := 53.
Definition emax : Z := 1024.
  (** Conversion of an [int32_t] to [double] (always exact). *)
Definition of_Z (z : Z) : double := binary_normalize prec emax z 0 false.
Definition zero : double := S754_zero false.
End F64.

Global Arguments F32.of_Z : simpl never.
Global Arguments F32.div : simpl never.
Global Arguments F64.of_Z : simpl never.

Global Instance float_inhabited : Inhabited float := populate F32.zero.

(** ** Build configuration

    The [DISTRHO_PLUGIN_*] macros and [JACK_TICK_DOUBLE] select code at
    compile time; a build is a choice of their values. *)
Record BuildConfig : Type := {
  DISTRHO_PLUGIN_HAS_UI : bool;
  DISTRHO_PLUGIN_WANT_MIDI_INPUT : bool;
  DISTRHO_PLUGIN_WANT_PROGRAMS : bool;
  DISTRHO_PLUGIN_WANT_TIMEPOS : bool;
  JACK_TICK_DOUBLE : bool
}.

(** ** Plain data *)

Module ParameterRanges.
Record t : Type := { def : float; min : float; max : float }.
End ParameterRanges.

(** Modelled from the spec: [Parameter] is declared in DistrhoPlugin.hpp,
    which is not part of the sources at hand.  The spec gives a parameter
    a direction, a hints bitmask, a MIDI CC mapping and a value range. *)
Module Param.
Record t : Type := {
    hints : Z;
    midiCC : Z;
    ranges : ParameterRanges.t;
    isOutput : bool
  }.
End Param.

(** [MidiEvent] of the plugin API: [data] holds the bytes copied inline,
    [dataExt] the pointer to bytes owned by the host ([None] while the
    pointer has not been assigned). *)
Module MidiEvent.
Record t : Type := {
    frame : Z;
    size : Z;
    data : list Z;
    dataExt : option (list Z)
  }.
End MidiEvent.

Module jack_midi_event_t.
Record t : Type := { time : Z; size : Z; buffer : list Z }.
End jack_midi_event_t.

(** The host's MIDI input buffer of one cycle: slot [i] holds what
    [jackbridge_midi_event_get(&jevent, midiInBuf, i)] returns and the
    event it stores in [jevent].  The host keeps the number of events of
    the buffer in a [uint32_t]. *)
Abbreviation MidiInBuf := (list (Z * jack_midi_event_t.t)).

Definition jackbridge_midi_get_event_count (midiInBuf : MidiInBuf) : Z :=
  Z.of_nat (length midiInBuf).

Inductive jack_transport_state_t : Type :=
| JackTransportStopped
| JackTransportRolling
| JackTransportLooping
| JackTransportStarting
| JackTransportNetStarting.

Definition is_rolling (s : jack_transport_state_t) : bool :=
  match s with JackTransportRolling => true | _ => false end.

Module jack_position_t.
Record t : Type := {
    unique_1 : Z;
    frame : Z;
    valid : Z;
    bar : Z;
    beat : Z;
    tick : Z;
    bar_start_tick : double;
    beats_per_bar : float;
    beat_type : float;
    ticks_per_beat : double;
    beats_per_minute : double;
    tick_double : double;
    unique_2 : Z
  }.
End jack_position_t.

Module BarBeatTick.
Record t : Type := {
    valid : bool;
    bar : Z;
    beat : Z;
    tick : double;
    barStartTick : double;
    beatsPerBar : float;
    beatType : float;
    ticksPerBeat : double;
    beatsPerMinute : double
  }.
End BarBeatTick.

Module TimePosition.
Record t : Type := { playing : bool; frame : Z; bbt : BarBeatTick.t }.

Definition initial : t :=
    {| playing := false; frame := 0;
       bbt := {| BarBeatTick.valid := false; BarBeatTick.bar := 0;
                 BarBeatTick.beat := 0; BarBeatTick.tick := F64.zero;
                 BarBeatTick.barStartTick := F64.zero;
                 BarBeatTick.beatsPerBar := F32.zero;
                 BarBeatTick.beatType := F32.zero;
                 BarBeatTick.ticksPerBeat := F64.zero;
                 BarBeatTick.beatsPerMinute := F64.zero |} |}.
End TimePosition.

(** ** The trace of calls to the collaborators *)
Inductive Call : Type :=
| Plugin_setTimePosition (timePosition : TimePosition.t)
| Plugin_setParameterValue (index : nat) (value : float)
| Plugin_loadProgram (index : Z)
| Plugin_run (nframes : Z) (midiEvents : list MidiEvent.t) (midiEventCount : Z)
| Plugin_run_without_midi (nframes : Z)
| UI_parameterChanged (index : nat) (value : float)
| UI_programLoaded (index : Z)
| UI_quit
| UI_exec_idle
| d_safe_assert.


(** ** Declarations the bridge uses from headers outside these sources

    Constants of DistrhoPlugin.hpp and of the JACK headers, the two
    approximate comparisons of DistrhoUtils.hpp, the scaling method of
    [ParameterRanges] and the behaviour of the DSP core are parameters of
    the development.  The DSP core is opaque: loading a program and
    running a cycle may rewrite each parameter value. *)
Class Externals : Type := {
  kParameterIsTrigger : Z;
  kDataSize : Z;
  JackPositionBBT : Z;
  JackTickDouble : Z;
  d_isEqual : float -> float -> bool;
  d_isNotEqual : float -> float -> bool;
  getUnnormalizedValue : ParameterRanges.t -> float -> float;
  dsp_loadProgram : Z -> nat -> float -> float;
  dsp_run : Z -> option (list MidiEvent.t) -> nat -> float -> float
}.

(** Modelled from the spec: [PluginExporter] (DistrhoPluginInternal.hpp) is
    not part of the sources at hand.  Following the spec's data model and
    DSP core contract, it owns the fixed parameter descriptions, the
    current parameter values and the number of programs;
    [setParameterValue] writes the current value of one parameter. *)
Module PluginExporter.
Record t : Type := {
    parameters : list Param.t;
    values : list float;
    programCount : Z
  }.

Definition fallbackRanges : ParameterRanges.t :=
  {| ParameterRanges.def := F32.zero; ParameterRanges.min := F32.zero;
     ParameterRanges.max := F32.of_Z 1 |}.

Definition getParameterCount (p : t) : nat := length (parameters p).
Definition getProgramCount (p : t) : Z := programCount p.
Definition getParameterHints (p : t) (index : nat) : Z :=
  from_option Param.hints 0 (parameters p !! index).
Definition isParameterOutput (p : t) (index : nat) : bool :=
  from_option Param.isOutput false (parameters p !! index).
Definition getParameterMidiCC (p : t) (index : nat) : Z :=
  from_option Param.midiCC 0 (parameters p !! index).
Definition getParameterRanges (p : t) (index : nat) : ParameterRanges.t :=
  from_option Param.ranges fallbackRanges (parameters p !! index).
Definition getParameterValue (p : t) (index : nat) : float :=
  default F32.zero (values p !! index).

Definition with_values (vs : list float) (p : t) : t :=
  {| parameters := parameters p; values := vs; programCount := programCount p |}.

Definition setParameterValue (p : t) (index : nat) (value : float) : t :=
  with_values (<[index := value]> (values p)) p.
Definition loadProgram {ext : Externals} (p : t) (index : Z) : t :=
  with_values (imap (dsp_loadProgram index) (values p)) p.
Definition run {ext : Externals} (p : t) (nframes : Z)
    (midiEvents : option (list MidiEvent.t)) : t :=
  with_values (imap (dsp_run nframes midiEvents) (values p)) p.
End PluginExporter.

(** Modelled from the spec: [SmallStackRingBuffer] (extra/RingBuffer.hpp) is
    not part of the sources at hand.  Following the spec's EventChannel, it
    is a byte queue of fixed capacity: a write appends to the bytes not yet
    committed or, when they do not fit, fails and marks the record as
    dropped; [commitWrite] publishes the written bytes at once, or discards
    them after a failed write; a read of [n] bytes fails without consuming
    anything when fewer than [n] bytes are readable. *)
Module RingBuffer.
Record t : Type := {
    capacity : nat;
    readable : list Z;
    pending : list Z;
    invalidateCommit : bool
  }.

Definition empty (cap : nat) : t :=
  {| capacity := cap; readable := []; pending := []; invalidateCommit := false |}.

Definition isDataAvailableForReading (rb : t) : bool :=
  match readable rb with [] => false | _ => true end.

Definition readCustomData (rb : t) (n : nat) : bool * list Z * t :=
  if (length (readable rb) <? n)%nat then (false, [], rb)
  else (true, take n (readable rb),
        {| capacity := capacity rb; readable := drop n (readable rb);
           pending := pending rb; invalidateCommit := invalidateCommit rb |}).

Definition writeCustomData (rb : t) (bytes : list Z) : bool * t :=
  if (length (readable rb) + length (pending rb) + length bytes <=? capacity rb)%nat
  then (true, {| capacity := capacity rb; readable := readable rb;
                 pending := pending rb ++ bytes;
                 invalidateCommit := invalidateCommit rb |})
  else (false, {| capacity := capacity rb; readable := readable rb;
                  pending := pending rb; invalidateCommit := true |}).

Definition commitWrite (rb : t) : bool * t :=
  if invalidateCommit rb
  then (false, {| capacity := capacity rb; readable := readable rb;
                  pending := []; invalidateCommit := false |})
  else (true, {| capacity := capacity rb; readable := readable rb ++ pending rb;
                 pending := []; invalidateCommit := false |}).
End RingBuffer.

(** ** The bridge object *)
Record PluginJack : Type := {
  fPlugin : PluginExporter.t;
  fTimePosition : TimePosition.t;
  fLastOutputValues : list float;
  fParametersChanged : list bool;
  fProgramChanged : Z;
  fNotesRingBuffer : RingBuffer.t;
  calls : list Call
}.

Definition set_fPlugin (x : PluginExporter.t) (st : PluginJack) : PluginJack :=
  {| fPlugin := x; fTimePosition := fTimePosition st;
     fLastOutputValues := fLastOutputValues st;
     fParametersChanged := fParametersChanged st;
     fProgramChanged := fProgramChanged st;
     fNotesRingBuffer := fNotesRingBuffer st; calls := calls st |}.
Definition set_fTimePosition (x : TimePosition.t) (st : PluginJack) : PluginJack :=
  {| fPlugin := fPlugin st; fTimePosition := x;
     fLastOutputValues := fLastOutputValues st;
     fParametersChanged := fParametersChanged st;
     fProgramChanged := fProgramChanged st;
     fNotesRingBuffer := fNotesRingBuffer st; calls := calls st |}.
Definition set_fLastOutputValues (x : list float) (st : PluginJack) : PluginJack :=
  {| fPlugin := fPlugin st; fTimePosition := fTimePosition st;
     fLastOutputValues := x;
     fParametersChanged := fParametersChanged st;
     fProgramChanged := fProgramChanged st;
     fNotesRingBuffer := fNotesRingBuffer st; calls := calls st |}.
Definition set_fParametersChanged (x : list bool) (st : PluginJack) : PluginJack :=
  {| fPlugin := fPlugin st; fTimePosition := fTimePosition st;
     fLastOutputValues := fLastOutputValues st;
     fParametersChanged := x;
     fProgramChanged := fProgramChanged st;
     fNotesRingBuffer := fNotesRingBuffer st; calls := calls st |}.
Definition set_fProgramChanged (x : Z) (st : PluginJack) : PluginJack :=
  {| fPlugin := fPlugin st; fTimePosition := fTimePosition st;
     fLastOutputValues := fLastOutputValues st;
     fParametersChanged := fParametersChanged st;
     fProgramChanged := x;
     fNotesRingBuffer := fNotesRingBuffer st; calls := calls st |}.
Definition set_fNotesRingBuffer (x : RingBuffer.t) (st : PluginJack) : PluginJack :=
  {| fPlugin := fPlugin st; fTimePosition := fTimePosition st;
     fLastOutputValues := fLastOutputValues st;
     fParametersChanged := fParametersChanged st;
     fProgramChanged := fProgramChanged st;
     fNotesRingBuffer := x; calls := calls st |}.

(** Record a call to a collaborator. *)
Definition call (c : Call) (st : PluginJack) : PluginJack :=
  {| fPlugin := fPlugin st; fTimePosition := fTimePosition st;
     fLastOutputValues := fLastOutputValues st;
     fParametersChanged := fParametersChanged st;
     fProgramChanged := fProgramChanged st;
     fNotesRingBuffer := fNotesRingBuffer st; calls := calls st ++ [c] |}.

(** ** Outcomes of the audio callback

    A store outside the 512 slots of [midiEvents] is undefined behaviour;
    the model stops with [OutOfBounds].  The [while] loop draining the ring
    buffer runs on fuel and stops with [OutOfFuel] when it is used up. *)
Inductive result (A : Type) : Type :=
| Ok (a : A)
| OutOfBounds
| OutOfFuel.
Arguments Ok {A} a.
Arguments OutOfBounds {A}.
Arguments OutOfFuel {A}.

Definition bind {A B : Type} (m : result A) (k : A -> result B) : result B :=
  match m with
  | Ok a => k a
  | OutOfBounds => OutOfBounds
  | OutOfFuel => OutOfFuel
  end.

Notation "'do' x <- m ;; k" := (bind m (fun x => k))
  (at level 10, x pattern, m at level 99, k at level 200).

(** ** The operations of [PluginJack] *)
Section Bridge.
Context {ext : Externals} (cfg : BuildConfig).

(** [fPlugin.setParameterValue(index, value)] *)
Definition plugin_setParameterValue (index : nat) (value : float)
    (st : PluginJack) : PluginJack :=
  call (Plugin_setParameterValue index value)
    (set_fPlugin (PluginExporter.setParameterValue (fPlugin st) index value) st).

(** [fPlugin.loadProgram(index)] *)
Definition plugin_loadProgram (index : Z) (st : PluginJack) : PluginJack :=
  call (Plugin_loadProgram index)
    (set_fPlugin (PluginExporter.loadProgram (fPlugin st) index) st).

(** *** The constructor, up to the registration of the callbacks

    The members start out unassigned; [st0] gives them placeholder values
    ([fProgramChanged] is assigned only in builds with programs and a UI). *)

Definition construct_parameter (st : PluginJack) (i : nat) : PluginJack :=
  if DISTRHO_PLUGIN_HAS_UI cfg && negb (PluginExporter.isParameterOutput (fPlugin st) i)
  then call (UI_parameterChanged i (PluginExporter.getParameterValue (fPlugin st) i)) st
  else st.

Definition construct (plugin : PluginExporter.t) (ringCapacity : nat) : PluginJack :=
  let st0 :=
    {| fPlugin := plugin; fTimePosition := TimePosition.initial;
       fLastOutputValues := []; fParametersChanged := [];
       fProgramChanged := 0;
       fNotesRingBuffer := RingBuffer.empty ringCapacity; calls := [] |} in
  let st1 :=
    if DISTRHO_PLUGIN_WANT_PROGRAMS cfg then
      let st := if 0 <? PluginExporter.getProgramCount (fPlugin st0) then
                  let st := plugin_loadProgram 0 st0 in
                  if DISTRHO_PLUGIN_HAS_UI cfg then call (UI_programLoaded 0) st else st
                else st0 in
      if DISTRHO_PLUGIN_HAS_UI cfg then set_fProgramChanged (-1) st else st
    else st0 in
  let count := PluginExporter.getParameterCount (fPlugin st1) in
  if (0 <? count)%nat then
    let st2 := set_fLastOutputValues (replicate count F32.zero) st1 in
    let st3 := if DISTRHO_PLUGIN_HAS_UI cfg
               then set_fParametersChanged (replicate count false) st2 else st2 in
    foldl construct_parameter st3 (seq 0 count)
  else
    let st2 := set_fLastOutputValues [] st1 in
    if DISTRHO_PLUGIN_HAS_UI cfg then set_fParametersChanged [] st2 else st2.

(** *** [idleCallback] (builds with a UI)

    [fLastOutputValues[i]] and [fParametersChanged[i]] are read with a
    default: the loop index stays below the parameter count, and reads
    outside the arrays are not modelled. *)

Definition idle_parameter (st : PluginJack) (i : nat) : PluginJack :=
  if PluginExporter.isParameterOutput (fPlugin st) i then
    let value := PluginExporter.getParameterValue (fPlugin st) i in
    if d_isEqual (default F32.zero (fLastOutputValues st !! i)) value then st
    else call (UI_parameterChanged i value)
           (set_fLastOutputValues (<[i := value]> (fLastOutputValues st)) st)
  else if default false (fParametersChanged st !! i) then
    let st := set_fParametersChanged (<[i := false]> (fParametersChanged st)) st in
    call (UI_parameterChanged i (PluginExporter.getParameterValue (fPlugin st) i)) st
  else st.

(** The loop over the parameters. *)
Definition idle_parameters (st : PluginJack) : PluginJack :=
  foldl idle_parameter st (seq 0 (PluginExporter.getParameterCount (fPlugin st))).

Definition idleCallback (gCloseSignalReceived : bool) (st : PluginJack) : PluginJack :=
  if gCloseSignalReceived then call UI_quit st
  else
    let st1 :=
      if DISTRHO_PLUGIN_WANT_PROGRAMS cfg && (0 <=? fProgramChanged st)
      then set_fProgramChanged (-1) (call (UI_programLoaded (fProgramChanged st)) st)
      else st in
    call UI_exec_idle (idle_parameters st1).

(** *** [sendNote] (UI thread) *)
Definition sendNote (channel note velocity : Z) (st : PluginJack) : PluginJack :=
  let midiData :=
    [uint8 (Z.lor (if negb (velocity =? 0) then 0x90 else 0x80) channel);
     note; velocity] in
  let '(_, rb1) := RingBuffer.writeCustomData (fNotesRingBuffer st) midiData in
  let '(_, rb2) := RingBuffer.commitWrite rb1 in
  set_fNotesRingBuffer rb2 st.

(** *** [updateParameterTriggers] *)
Definition trigger_parameter (st : PluginJack) (i : nat) : PluginJack :=
  if negb (Z.land (PluginExporter.getParameterHints (fPlugin st) i) kParameterIsTrigger
           =? kParameterIsTrigger)
  then st
  else
    let defValue := ParameterRanges.def (PluginExporter.getParameterRanges (fPlugin st) i) in
    if d_isNotEqual defValue (PluginExporter.getParameterValue (fPlugin st) i)
    then plugin_setParameterValue i defValue st
    else st.

Definition updateParameterTriggers (st : PluginJack) : PluginJack :=
  foldl trigger_parameter st (seq 0 (PluginExporter.getParameterCount (fPlugin st))).

(** *** [requestParameterValueChange] *)
Definition requestParameterValueChange (index : nat) (value : float)
    (st : PluginJack) : bool * PluginJack :=
  if negb (index <? PluginExporter.getParameterCount (fPlugin st))%nat
  then (false, call d_safe_assert st)
  else
    let st := plugin_setParameterValue index value st in
    let st := if DISTRHO_PLUGIN_HAS_UI cfg
              then set_fParametersChanged (<[index := true]> (fParametersChanged st)) st
              else st in
    (true, st).

(** *** [jackProcess]: the time position *)
Definition translate (state : jack_transport_state_t) (pos : jack_position_t.t)
    (old : TimePosition.t) : TimePosition.t :=
  let playing := is_rolling state in
  let invalid_bbt :=
    {| BarBeatTick.valid := false;
       BarBeatTick.bar := BarBeatTick.bar (TimePosition.bbt old);
       BarBeatTick.beat := BarBeatTick.beat (TimePosition.bbt old);
       BarBeatTick.tick := BarBeatTick.tick (TimePosition.bbt old);
       BarBeatTick.barStartTick := BarBeatTick.barStartTick (TimePosition.bbt old);
       BarBeatTick.beatsPerBar := BarBeatTick.beatsPerBar (TimePosition.bbt old);
       BarBeatTick.beatType := BarBeatTick.beatType (TimePosition.bbt old);
       BarBeatTick.ticksPerBeat := BarBeatTick.ticksPerBeat (TimePosition.bbt old);
       BarBeatTick.beatsPerMinute := BarBeatTick.beatsPerMinute (TimePosition.bbt old) |} in
  if jack_position_t.unique_1 pos =? jack_position_t.unique_2 pos then
    {| TimePosition.playing := playing;
       TimePosition.frame := jack_position_t.frame pos;
       TimePosition.bbt :=
         if negb (Z.land (jack_position_t.valid pos) JackPositionBBT =? 0) then
           {| BarBeatTick.valid := true;
              BarBeatTick.bar := jack_position_t.bar pos;
              BarBeatTick.beat := jack_position_t.beat pos;
              BarBeatTick.tick :=
                if JACK_TICK_DOUBLE cfg
                   && negb (Z.land (jack_position_t.valid pos) JackTickDouble =? 0)
                then jack_position_t.tick_double pos
                else F64.of_Z (jack_position_t.tick pos);
              BarBeatTick.barStartTick := jack_position_t.bar_start_tick pos;
              BarBeatTick.beatsPerBar := jack_position_t.beats_per_bar pos;
              BarBeatTick.beatType := jack_position_t.beat_type pos;
              BarBeatTick.ticksPerBeat := jack_position_t.ticks_per_beat pos;
              BarBeatTick.beatsPerMinute := jack_position_t.beats_per_minute pos |}
         else invalid_bbt |}
  else
    {| TimePosition.playing := playing; TimePosition.frame := 0;
       TimePosition.bbt := invalid_bbt |}.

Definition updateTimePosition (state : jack_transport_state_t)
    (pos : jack_position_t.t) (st : PluginJack) : PluginJack :=
  let tp := translate state pos (fTimePosition st) in
  call (Plugin_setTimePosition tp) (set_fTimePosition tp st).

(** *** [jackProcess]: the MIDI events *)

(** [MidiEvent& midiEvent(midiEvents[midiEventCount++])] followed by the
    assignments to [midiEvent].  The local array [midiEvents[512]] and its
    count are modelled by the list of the slots written so far (its length
    is [midiEventCount]); the store is out of bounds when the count is not
    below 512. *)
Definition store_midiEvent (midiEvents : list MidiEvent.t) (midiEvent : MidiEvent.t)
    : result (list MidiEvent.t) :=
  if (length midiEvents <? 512)%nat then Ok (midiEvents ++ [midiEvent]) else OutOfBounds.

(** The [while] loop over [fNotesRingBuffer]. *)
Fixpoint drain_notes (fuel : nat) (rb : RingBuffer.t) (midiEvents : list MidiEvent.t)
    : result (RingBuffer.t * list MidiEvent.t) :=
  match fuel with
  | O => OutOfFuel
  | S fuel =>
      if RingBuffer.isDataAvailableForReading rb then
        let '(ok, midiData, rb) := RingBuffer.readCustomData rb 3 in
        if negb ok then Ok (rb, midiEvents)
        else
          (do midiEvents <-
             store_midiEvent midiEvents
               {| MidiEvent.frame := 0; MidiEvent.size := 3;
                  MidiEvent.data := midiData; MidiEvent.dataExt := None |} ;;
           if (length midiEvents =? 512)%nat then Ok (rb, midiEvents)
           else drain_notes fuel rb midiEvents)
      else Ok (rb, midiEvents)
  end.

(** [jevent.buffer[i]] *)
Definition byte_at (buffer : list Z) (i : nat) : Z := default 0 (buffer !! i).

(** The loop over the parameters on a control change; [j] is the loop
    index and [remaining] the number of iterations left. *)
Fixpoint control_change (control value : Z) (remaining j : nat) (st : PluginJack)
    : PluginJack :=
  match remaining with
  | O => st
  | S remaining =>
      if PluginExporter.isParameterOutput (fPlugin st) j
      then control_change control value remaining (S j) st
      else if negb (PluginExporter.getParameterMidiCC (fPlugin st) j =? control)
      then control_change control value remaining (S j) st
      else
        let scaled := F32.div (F32.of_Z value) (F32.of_Z 127) in
        let fvalue :=
          getUnnormalizedValue (PluginExporter.getParameterRanges (fPlugin st) j) scaled in
        let st := plugin_setParameterValue j fvalue st in
        if DISTRHO_PLUGIN_HAS_UI cfg
        then set_fParametersChanged (<[j := true]> (fParametersChanged st)) st
        else st
  end.

(** The interpretation of one host event: control change and program
    change on channel 1. *)
Definition interpret_event (jevent : jack_midi_event_t.t) (st : PluginJack) : PluginJack :=
  let buffer := jack_midi_event_t.buffer jevent in
  if (byte_at buffer 0 =? 0xB0) && (jack_midi_event_t.size jevent =? 3) then
    control_change (byte_at buffer 1) (byte_at buffer 2)
      (PluginExporter.getParameterCount (fPlugin st)) 0 st
  else if DISTRHO_PLUGIN_WANT_PROGRAMS cfg
          && ((byte_at buffer 0 =? 0xC0) && (jack_midi_event_t.size jevent =? 2)) then
    let program := byte_at buffer 1 in
    if program <? PluginExporter.getProgramCount (fPlugin st) then
      let st := plugin_loadProgram program st in
      if DISTRHO_PLUGIN_HAS_UI cfg then set_fProgramChanged program st else st
    else st
  else st.

(** The [MidiEvent] filled from a host event. *)
Definition to_MidiEvent (jevent : jack_midi_event_t.t) : MidiEvent.t :=
  let size := uint32 (jack_midi_event_t.size jevent) in
  if kDataSize <? size then
    {| MidiEvent.frame := jack_midi_event_t.time jevent; MidiEvent.size := size;
       MidiEvent.data := [];
       MidiEvent.dataExt := Some (jack_midi_event_t.buffer jevent) |}
  else
    {| MidiEvent.frame := jack_midi_event_t.time jevent; MidiEvent.size := size;
       MidiEvent.data := take (Z.to_nat size) (jack_midi_event_t.buffer jevent);
       MidiEvent.dataExt := None |}.

(** The body of the loop over the host events, after a successful fetch. *)
Definition host_event (jevent : jack_midi_event_t.t) (midiEvents : list MidiEvent.t)
    (st : PluginJack) : result (list MidiEvent.t * PluginJack) :=
  let st := interpret_event jevent st in
  if DISTRHO_PLUGIN_WANT_MIDI_INPUT cfg then
    (do midiEvents <- store_midiEvent midiEvents (to_MidiEvent jevent) ;;
     Ok (midiEvents, st))
  else Ok (midiEvents, st).

(** The loop over the host events; [slots] are the slots of the host
    buffer the loop index still has to visit. *)
Fixpoint host_events (slots : MidiInBuf) (midiEvents : list MidiEvent.t)
    (st : PluginJack) : result (list MidiEvent.t * PluginJack) :=
  match slots with
  | [] => Ok (midiEvents, st)
  | (rc, jevent) :: slots =>
      if negb (rc =? 0) then Ok (midiEvents, st)
      else
        (do (midiEvents, st) <- host_event jevent midiEvents st ;;
         host_events slots midiEvents st)
  end.

(** [fPlugin.run(...)] *)
Definition plugin_run (nframes : Z) (midiEvents : list MidiEvent.t) (st : PluginJack)
    : PluginJack :=
  if DISTRHO_PLUGIN_WANT_MIDI_INPUT cfg then
    call (Plugin_run nframes midiEvents (Z.of_nat (length midiEvents)))
      (set_fPlugin (PluginExporter.run (fPlugin st) nframes (Some midiEvents)) st)
  else
    call (Plugin_run_without_midi nframes)
      (set_fPlugin (PluginExporter.run (fPlugin st) nframes None) st).

(** The part of [jackProcess] that gathers the notes queued by the UI. *)
Definition gather_notes (st : PluginJack) : result (list MidiEvent.t * PluginJack) :=
  if DISTRHO_PLUGIN_WANT_MIDI_INPUT cfg && DISTRHO_PLUGIN_HAS_UI cfg then
    (do (rb, midiEvents) <- drain_notes 512 (fNotesRingBuffer st) [] ;;
     Ok (midiEvents, set_fNotesRingBuffer rb st))
  else Ok ([], st).

(** The number of host events the loop visits. *)
Definition host_event_count (midiEvents : list MidiEvent.t) (midiInBuf : MidiInBuf) : Z :=
  Z.min (uint32 (512 - Z.of_nat (length midiEvents)))
        (jackbridge_midi_get_event_count midiInBuf).

Definition jackProcess (state : jack_transport_state_t) (pos : jack_position_t.t)
    (nframes : Z) (midiInBuf : MidiInBuf) (st : PluginJack) : result PluginJack :=
  let st := if DISTRHO_PLUGIN_WANT_TIMEPOS cfg
            then updateTimePosition state pos st else st in
  let st := updateParameterTriggers st in
  do (midiEvents, st) <- gather_notes st ;;
  let eventCount := host_event_count midiEvents midiInBuf in
  do (midiEvents, st) <-
    host_events (take (Z.to_nat eventCount) midiInBuf) midiEvents st ;;
  Ok (plugin_run nframes midiEvents st).

End Bridge.

(** ** Observations on the trace *)

(** The MIDI events handed to the DSP core by the last call in the trace. *)
Definition run_events (st : PluginJack) : option (list MidiEvent.t) :=
  match last (calls st) with
  | Some (Plugin_run _ midiEvents _) => Some midiEvents
  | _ => None
  end.

(** The calls a step has added to the trace. *)
Definition new_calls (st st' : PluginJack) : list Call :=
  drop (length (calls st)) (calls st').

(** The calls that invoke the DSP core's [run]. *)
Definition is_run_call (c : Call) : bool :=
  match c with
  | Plugin_run _ _ _ | Plugin_run_without_midi _ => true
  | _ => false
  end.

(** The values notified to the UI for parameter [i], in the order of the
    trace. *)
Definition notified_values (i : nat) (cs : list Call) : list float :=
  flat_map
    (fun c => match c with
              | UI_parameterChanged j v => if (j =? i)%nat then [v] else []
              | _ => []
              end)
    cs.

(** The indices of the parameters notified to the UI, in the order of the
    trace. *)
Definition notified_indices (cs : list Call) : list nat :=
  flat_map
    (fun c => match c with UI_parameterChanged j _ => [j] | _ => [] end)
    cs.

(** ** Specification functions

    What the loops of the bridge compute, written without the loops. *)

(** The three bytes [sendNote] writes for one note. *)
Definition note_bytes (n : Z * Z * Z) : list Z :=
  let '(channel, note, velocity) := n in
  [uint8 (Z.lor (if negb (velocity =? 0) then 0x90 else 0x80) channel); note; velocity].

(** The event built from three bytes read from the ring buffer. *)
Definition note_event (midiData : list Z) : MidiEvent.t :=
  {| MidiEvent.frame := 0; MidiEvent.size := 3;
     MidiEvent.data := midiData; MidiEvent.dataExt := None |}.

(** The complete 3-byte records at the front of a byte queue. *)
Fixpoint records (bytes : list Z) : list (list Z) :=
  match bytes with
  | b0 :: b1 :: b2 :: rest => [b0; b1; b2] :: records rest
  | _ => []
  end.

(** The notes queued in the ring buffer of a state, oldest first. *)
Definition queued_records (st : PluginJack) : list (list Z) :=
  records (RingBuffer.readable (fNotesRingBuffer st)).

(** The arguments of [sendNote] are bytes. *)
Definition valid_note (n : Z * Z * Z) : Prop :=
  let '(channel, note, velocity) := n in
  0 <= channel < 256 /\ 0 <= note < 256 /\ 0 <= velocity < 256.

(** The ring buffer holds exactly the records of the notes [notes], and no
    write is under way. *)
Definition ring_holds (rb : RingBuffer.t) (notes : list (Z * Z * Z)) : Prop :=
  RingBuffer.readable rb = flat_map note_bytes notes
  /\ RingBuffer.pending rb = []
  /\ RingBuffer.invalidateCommit rb = false
  /\ Forall valid_note notes.


(** The ring buffer after its first [n] bytes have been read. *)
Definition ring_after_read (n : nat) (rb : RingBuffer.t) : RingBuffer.t :=
  {| RingBuffer.capacity := RingBuffer.capacity rb;
     RingBuffer.readable := drop n (RingBuffer.readable rb);
     RingBuffer.pending := RingBuffer.pending rb;
     RingBuffer.invalidateCommit := RingBuffer.invalidateCommit rb |}.

(** The host events fetched before the first failing fetch. *)
Fixpoint fetched (slots : MidiInBuf) : list jack_midi_event_t.t :=
  match slots with
  | [] => []
  | (rc, jevent) :: slots => if negb (rc =? 0) then [] else jevent :: fetched slots
  end.

(** The tests of the loop over the host events: control change and
    program change on channel 1. *)
Definition is_control_change (jevent : jack_midi_event_t.t) : bool :=
  (byte_at (jack_midi_event_t.buffer jevent) 0 =? 0xB0)
  && (jack_midi_event_t.size jevent =? 3).

Definition is_program_change (jevent : jack_midi_event_t.t) : bool :=
  (byte_at (jack_midi_event_t.buffer jevent) 0 =? 0xC0)
  && (jack_midi_event_t.size jevent =? 2).

(** Parameter [j] is the target of control change [control]: it is an
    input parameter mapped to [control]. *)
Definition cc_match (p : PluginExporter.t) (control : Z) (j : nat) : bool :=
  negb (PluginExporter.isParameterOutput p j)
  && (PluginExporter.getParameterMidiCC p j =? control).

(** The first target among the parameters [j], [j+1], ... ([remaining] of them). *)
Fixpoint first_cc_match (p : PluginExporter.t) (control : Z) (remaining j : nat)
    : option nat :=
  match remaining with
  | O => None
  | S remaining =>
      if cc_match p control j then Some j
      else first_cc_match p control remaining (S j)
  end.

(** The value a control change with data byte [value] writes to a
    parameter with the given ranges. *)
Definition cc_value {ext : Externals} (r : ParameterRanges.t) (value : Z) : float :=
  getUnnormalizedValue r (F32.div (F32.of_Z value) (F32.of_Z 127)).

(** What a control change does once its target [k] is known. *)
Definition cc_write {ext : Externals} (cfg : BuildConfig) (value : Z) (k : nat)
    (st : PluginJack) : PluginJack :=
  let st1 :=
    plugin_setParameterValue k
      (cc_value (PluginExporter.getParameterRanges (fPlugin st) k) value) st in
  if DISTRHO_PLUGIN_HAS_UI cfg
  then set_fParametersChanged (<[k := true]> (fParametersChanged st1)) st1
  else st1.

(** The interpretation of a list of host events, in order. *)
Definition interpret_events {ext : Externals} (cfg : BuildConfig)
    (jevents : list jack_midi_event_t.t) (st : PluginJack) : PluginJack :=
  foldl (fun st jevent => interpret_event cfg jevent st) st jevents.

(** The events a cycle builds from the queued notes. *)
Definition ui_events (cfg : BuildConfig) (st : PluginJack) : list MidiEvent.t :=
  if DISTRHO_PLUGIN_WANT_MIDI_INPUT cfg && DISTRHO_PLUGIN_HAS_UI cfg
  then map note_event (take 512 (queued_records st))
  else [].

(** The host events a cycle visits: those below the cap left by the
    queued notes, up to the first failing fetch. *)
Definition visited (cfg : BuildConfig) (st : PluginJack) (midiInBuf : MidiInBuf)
    : list jack_midi_event_t.t :=
  fetched (take (512 - length (ui_events cfg st)) midiInBuf).

(** The merged list of a cycle: the events of the queued notes, then the
    visited host events. *)
Definition merged_events {ext : Externals} (cfg : BuildConfig) (st : PluginJack)
    (midiInBuf : MidiInBuf) : list MidiEvent.t :=
  if DISTRHO_PLUGIN_WANT_MIDI_INPUT cfg
  then ui_events cfg st ++ map to_MidiEvent (visited cfg st midiInBuf)
  else [].

(** The state of a cycle when the loop over the host events starts. *)
Definition before_host_events {ext : Externals} (cfg : BuildConfig)
    (state : jack_transport_state_t) (pos : jack_position_t.t) (st : PluginJack)
    : PluginJack :=
  let st1 := if DISTRHO_PLUGIN_WANT_TIMEPOS cfg
             then updateTimePosition cfg state pos st else st in
  let st2 := updateParameterTriggers st1 in
  if DISTRHO_PLUGIN_WANT_MIDI_INPUT cfg && DISTRHO_PLUGIN_HAS_UI cfg
  then set_fNotesRingBuffer
         (ring_after_read (3 * length (ui_events cfg st)) (fNotesRingBuffer st)) st2
  else st2.

(** A parameter is a trigger when its hints hold all the trigger bits. *)
Definition is_trigger {ext : Externals} (p : PluginExporter.t) (i : nat) : bool :=
  Z.land (PluginExporter.getParameterHints p i) kParameterIsTrigger
  =? kParameterIsTrigger.

(** Parameter [i] is reset by the trigger step: it is a trigger and its
    value is reported different from its default. *)
Definition trigger_reset {ext : Externals} (p : PluginExporter.t) (i : nat) : bool :=
  is_trigger p i
  && d_isNotEqual (ParameterRanges.def (PluginExporter.getParameterRanges p i))
                  (PluginExporter.getParameterValue p i).

(** The writes of the trigger step over the parameters below [n]. *)
Definition trigger_calls {ext : Externals} (p : PluginExporter.t) (n : nat) : list Call :=
  flat_map
    (fun i => if trigger_reset p i
              then [Plugin_setParameterValue i
                      (ParameterRanges.def (PluginExporter.getParameterRanges p i))]
              else [])
    (seq 0 n).

(** The notifications the constructor sends for the parameters below [n]. *)
Definition construct_calls (p : PluginExporter.t) (n : nat) : list Call :=
  flat_map
    (fun i => if PluginExporter.isParameterOutput p i then []
              else [UI_parameterChanged i (PluginExporter.getParameterValue p i)])
    (seq 0 n).

(** Whether the idle loop refreshes the cached value of parameter [i]. *)
Definition refreshed {ext : Externals} (st : PluginJack) (i : nat) : bool :=
  PluginExporter.isParameterOutput (fPlugin st) i
  && negb (d_isEqual (default F32.zero (fLastOutputValues st !! i))
             (PluginExporter.getParameterValue (fPlugin st) i)).

(** What the idle loop notifies in iteration [i], from the state [st] the
    loop starts in. *)
Definition idle_note {ext : Externals} (st : PluginJack) (i : nat) : list Call :=
  let value := PluginExporter.getParameterValue (fPlugin st) i in
  if PluginExporter.isParameterOutput (fPlugin st) i then
    if d_isEqual (default F32.zero (fLastOutputValues st !! i)) value then []
    else [UI_parameterChanged i value]
  else if default false (fParametersChanged st !! i) then [UI_parameterChanged i value]
  else [].

(** The notifications of the idle loop over the parameters below [n]. *)
Definition idle_calls {ext : Externals} (st : PluginJack) (n : nat) : list Call :=
  flat_map (idle_note st) (seq 0 n).

(** What the audio thread leaves alone between setting the time position
    and running the DSP core: the time position, the description of the
    plugin, the cache of output values and the sizes of the per-parameter
    arrays; the trace grows, and not by a call to [run]. *)
Definition keeps (st st' : PluginJack) : Prop :=
  fTimePosition st' = fTimePosition st
  /\ (exists k : list Call,
        calls st' = calls st ++ k /\ Forall (fun c => is_run_call c = false) k)
  /\ PluginExporter.parameters (fPlugin st') = PluginExporter.parameters (fPlugin st)
  /\ PluginExporter.programCount (fPlugin st') = PluginExporter.programCount (fPlugin st)
  /\ fLastOutputValues st' = fLastOutputValues st
  /\ length (PluginExporter.values (fPlugin st')) = length (PluginExporter.values (fPlugin st))
  /\ length (fParametersChanged st') = length (fParametersChanged st).

(** One callback of the bridge, on either thread.  The arguments of
    [sendNote] are [uint8_t]. *)
Inductive step {ext : Externals} (cfg : BuildConfig) : PluginJack -> PluginJack -> Prop :=
| step_idleCallback (gCloseSignalReceived : bool) (st : PluginJack) :
    step cfg st (idleCallback cfg gCloseSignalReceived st)
| step_sendNote (channel note velocity : Z) (st : PluginJack) :
    0 <= channel < 256 -> 0 <= note < 256 -> 0 <= velocity < 256 ->
    step cfg st (sendNote channel note velocity st)
| step_setParameterValue (index : nat) (value : float) (st : PluginJack) :
    step cfg st (plugin_setParameterValue index value st)
| step_requestParameterValueChange (index : nat) (value : float) (st : PluginJack) :
    step cfg st (snd (requestParameterValueChange cfg index value st))
| step_jackProcess (state : jack_transport_state_t) (pos : jack_position_t.t)
    (nframes : Z) (midiInBuf : MidiInBuf) (st st' : PluginJack) :
    jackProcess cfg state pos nframes midiInBuf st = Ok st' ->
    step cfg st st'.

(** The states the bridge can be in: the constructed one, and any state
    a callback leaves behind. *)
Inductive reachable {ext : Externals} (cfg : BuildConfig) : PluginJack -> Prop :=
| reachable_construct (plugin : PluginExporter.t) (ringCapacity : nat) :
    reachable cfg (construct cfg plugin ringCapacity)
| reachable_step (st st' : PluginJack) :
    reachable cfg st -> step cfg st st' -> reachable cfg st'.

(** The statement that a cycle keeps from the DSP core the control changes
    that have a target and the program changes. *)
Definition consumes_interpreted_events {ext : Externals} (cfg : BuildConfig)
    (state : jack_transport_state_t) (pos : jack_position_t.t) (nframes : Z)
    (midiInBuf : MidiInBuf) (st : PluginJack) : Prop :=
  forall (st' : PluginJack) (evs : list MidiEvent.t) (jevent : jack_midi_event_t.t),
    jackProcess cfg state pos nframes midiInBuf st = Ok st' ->
    run_events st' = Some evs ->
    In jevent (visited cfg st midiInBuf) ->
    (is_control_change jevent = true
     /\ exists j : nat,
          (j < PluginExporter.getParameterCount (fPlugin st))%nat
          /\ cc_match (fPlugin st) (byte_at (jack_midi_event_t.buffer jevent) 1) j = true)
    \/ is_program_change jevent = true ->
    ~ In (to_MidiEvent jevent) evs.

(** The statement that what a cycle does not take is dropped: the cycle
    after it, given no host event (and no new note), hands no event to the
    DSP core. *)
Definition excess_is_dropped {ext : Externals} (cfg : BuildConfig)
    (state : jack_transport_state_t) (pos : jack_position_t.t) (nframes : Z)
    (midiInBuf : MidiInBuf) (st : PluginJack) : Prop :=
  forall st' st'' : PluginJack,
    jackProcess cfg state pos nframes midiInBuf st = Ok st' ->
    jackProcess cfg state pos nframes [] st' = Ok st'' ->
    run_events st'' = Some [].

(** ** A reference instance

    The values DPF and JACK give to the external declarations, and sample
    inputs, used to evaluate the bridge on concrete data. *)

(** Modelled from the spec: the approximate equality of DistrhoUtils.hpp is
    not part of the sources at hand; two values are approximately equal
    when their distance is below the machine epsilon. *)
Definition approx_equal (v1 v2 : float) : bool :=
  F32.ltb (F32.abs (F32.sub v1 v2)) F32.epsilon.
Definition approx_not_equal (v1 v2 : float) : bool :=
  SFleb F32.epsilon (F32.abs (F32.sub v1 v2)).

(** Modelled from the spec: [ParameterRanges::getUnnormalizedValue]
    (DistrhoPlugin.hpp) is not part of the sources at hand; it scales a
    normalized value into the declared range. *)
Definition scale_to_range (r : ParameterRanges.t) (value : float) : float :=
  F32.add (F32.mul value (F32.sub (ParameterRanges.max r) (ParameterRanges.min r)))
          (ParameterRanges.min r).

(** Program 0 of the reference plugin keeps the current values, program
    [p] sets every parameter to [p]; its [run] leaves the parameters
    alone. *)
Definition reference_externals : Externals :=
  {| kParameterIsTrigger := 0x22;
     kDataSize := 4;
     JackPositionBBT := 0x10;
     JackTickDouble := 0x200;
     d_isEqual := approx_equal;
     d_isNotEqual := approx_not_equal;
     getUnnormalizedValue := scale_to_range;
     dsp_loadProgram := fun p _ v => if p =? 0 then v else F32.of_Z p;
     dsp_run := fun _ _ _ v => v |}.

(** The build the spec describes: UI, MIDI input, programs and time
    position. *)
Definition full_build : BuildConfig :=
  {| DISTRHO_PLUGIN_HAS_UI := true;
     DISTRHO_PLUGIN_WANT_MIDI_INPUT := true;
     DISTRHO_PLUGIN_WANT_PROGRAMS := true;
     DISTRHO_PLUGIN_WANT_TIMEPOS := true;
     JACK_TICK_DOUBLE := true |}.

(** Ranges with integral bounds. *)
Definition unit_range (d : Z) (lo hi : Z) : ParameterRanges.t :=
  {| ParameterRanges.def := F32.of_Z d; ParameterRanges.min := F32.of_Z lo;
     ParameterRanges.max := F32.of_Z hi |}.

(** The range [0,10] with default 5. *)
Definition range_0_10 : ParameterRanges.t := unit_range 5 0 10.

(** Four parameters: an input mapped to CC 7, an output, an input mapped
    to CC 74 with range [0,10], and a trigger. *)
Definition sample_plugin : PluginExporter.t :=
  {| PluginExporter.parameters :=
       [ {| Param.hints := 0x01; Param.midiCC := 7;
            Param.ranges := unit_range 0 0 1; Param.isOutput := false |};
         {| Param.hints := 0x10; Param.midiCC := 74;
            Param.ranges := unit_range 0 0 1; Param.isOutput := true |};
         {| Param.hints := 0x01; Param.midiCC := 74;
            Param.ranges := unit_range 5 0 10; Param.isOutput := false |};
         {| Param.hints := 0x23; Param.midiCC := 0;
            Param.ranges := unit_range 0 0 1; Param.isOutput := false |} ];
     PluginExporter.values := [F32.of_Z 0; F32.of_Z 3; F32.of_Z 5; F32.of_Z 1];
     PluginExporter.programCount := 2 |}.

(** The bridge constructed for the sample plugin, with a ring buffer of
    4096 bytes (the size of DPF's small stack buffer). *)
Definition sample_state : PluginJack :=
  @construct reference_externals full_build sample_plugin 4096.

(** A build with a UI and MIDI input, without programs or time position. *)
Definition plain_ui_build : BuildConfig :=
  {| DISTRHO_PLUGIN_HAS_UI := true;
     DISTRHO_PLUGIN_WANT_MIDI_INPUT := true;
     DISTRHO_PLUGIN_WANT_PROGRAMS := false;
     DISTRHO_PLUGIN_WANT_TIMEPOS := false;
     JACK_TICK_DOUBLE := false |}.

(** The bridge of the sample plugin in that build, as constructed. *)
Definition unprogrammed_state : PluginJack :=
  @construct reference_externals plain_ui_build sample_plugin 4096.

(** A consistent snapshot that carries bar, beat and tick. *)
Definition sample_position : jack_position_t.t :=
  {| jack_position_t.unique_1 := 41; jack_position_t.frame := 48000;
     jack_position_t.valid := 0x10; jack_position_t.bar := 3;
     jack_position_t.beat := 2; jack_position_t.tick := 480;
     jack_position_t.bar_start_tick := F64.of_Z 3840;
     jack_position_t.beats_per_bar := F32.of_Z 4;
     jack_position_t.beat_type := F32.of_Z 4;
     jack_position_t.ticks_per_beat := F64.of_Z 960;
     jack_position_t.beats_per_minute := F64.of_Z 120;
     jack_position_t.tick_double := F64.of_Z 480;
     jack_position_t.unique_2 := 41 |}.

(** A snapshot the host changed while it was read. *)
Definition torn_position : jack_position_t.t :=
  {| jack_position_t.unique_1 := 41; jack_position_t.frame := 48000;
     jack_position_t.valid := 0x10; jack_position_t.bar := 3;
     jack_position_t.beat := 2; jack_position_t.tick := 480;
     jack_position_t.bar_start_tick := F64.of_Z 3840;
     jack_position_t.beats_per_bar := F32.of_Z 4;
     jack_position_t.beat_type := F32.of_Z 4;
     jack_position_t.ticks_per_beat := F64.of_Z 960;
     jack_position_t.beats_per_minute := F64.of_Z 120;
     jack_position_t.tick_double := F64.of_Z 480;
     jack_position_t.unique_2 := 42 |}.

(** Host events: a control change on channel 1 and a note-on. *)
Definition cc_event (control value : Z) : jack_midi_event_t.t :=
  {| jack_midi_event_t.time := 0; jack_midi_event_t.size := 3;
     jack_midi_event_t.buffer := [0xB0; control; value] |}.

Definition note_on_event (time : Z) : jack_midi_event_t.t :=
  {| jack_midi_event_t.time := time; jack_midi_event_t.size := 3;
     jack_midi_event_t.buffer := [0x90; 60; 100] |}.

(** A host buffer with a control change for CC 74 with value 64, then a
    note. *)
Definition cc_cycle_input : MidiInBuf := [(0, cc_event 74 64); (0, note_on_event 5)].

(** A host buffer whose second fetch fails. *)
Definition failing_input : MidiInBuf :=
  [(0, note_on_event 1); (5, note_on_event 2); (0, note_on_event 3)].

(** The sample state after the UI has sent two notes. *)
Definition noted_state : PluginJack :=
  sendNote 1 61 0 (sendNote 0 60 100 sample_state).

(** The sample state after the UI has sent 513 notes, all different
    (channel [i / 128], note [i mod 128]). *)
Definition flooded_state : PluginJack :=
  foldl (fun st i => sendNote (i / 128) (i mod 128) 100 st) sample_state
        (map Z.of_nat (seq 0 513)).

(** One cycle from the sample state, with an empty host buffer. *)
Definition after_sample_cycle : PluginJack :=
  match @jackProcess reference_externals full_build JackTransportRolling
          sample_position 256 [] sample_state with
  | Ok st' => st'
  | _ => sample_state
  end.

(** One cycle from the sample state while the transport is starting. *)
Definition after_starting_cycle : PluginJack :=
  match @jackProcess reference_externals full_build JackTransportStarting
          sample_position 256 [] sample_state with
  | Ok st' => st'
  | _ => sample_state
  end.

(** One cycle from the sample state with the torn snapshot. *)
Definition after_torn_cycle : PluginJack :=
  match @jackProcess reference_externals full_build JackTransportRolling
          torn_position 256 [] sample_state with
  | Ok st' => st'
  | _ => sample_state
  end.

(** One cycle from the sample state with the control change. *)
Definition after_cc_cycle : PluginJack :=
  match @jackProcess reference_externals full_build JackTransportRolling
          sample_position 256 cc_cycle_input sample_state with
  | Ok st' => st'
  | _ => sample_state
  end.


(** Two cycles after the 513 notes, both with an empty host buffer. *)
Definition after_flood_1 : PluginJack :=
  match @jackProcess reference_externals full_build JackTransportRolling
          sample_position 256 [] flooded_state with
  | Ok st' => st'
  | _ => flooded_state
  end.

Definition after_flood_2 : PluginJack :=
  match @jackProcess reference_externals full_build JackTransportRolling
          sample_position 256 [] after_flood_1 with
  | Ok st' => st'
  | _ => after_flood_1
  end.


(** * Further definitions

    Observations and samples used by the properties that follow the
    claims' ones, and the remaining functions of [DistrhoPluginJACK.cpp]. *)

(** The per-parameter arrays of the bridge have one slot per parameter
    ([fParametersChanged] exists in builds with a UI). *)
Definition arrays_sized (cfg : BuildConfig) (st : PluginJack) : Prop :=
  length (fLastOutputValues st) = PluginExporter.getParameterCount (fPlugin st)
  /\ (DISTRHO_PLUGIN_HAS_UI cfg = true ->
      length (fParametersChanged st) = PluginExporter.getParameterCount (fPlugin st)).

(** Two states describe the same plugin and have arrays of the same
    sizes. *)
Definition same_shape (st st' : PluginJack) : Prop :=
  PluginExporter.parameters (fPlugin st') = PluginExporter.parameters (fPlugin st)
  /\ PluginExporter.programCount (fPlugin st') = PluginExporter.programCount (fPlugin st)
  /\ length (PluginExporter.values (fPlugin st')) = length (PluginExporter.values (fPlugin st))
  /\ length (fLastOutputValues st') = length (fLastOutputValues st)
  /\ length (fParametersChanged st') = length (fParametersChanged st).

(** The programs notified to the UI, in the order of the trace. *)
Definition notified_programs (cs : list Call) : list Z :=
  flat_map (fun c => match c with UI_programLoaded p => [p] | _ => [] end) cs.

(** A program change that selects an existing program of [p]. *)
Definition selects_program (p : PluginExporter.t) (jevent : jack_midi_event_t.t) : bool :=
  is_program_change jevent
  && (byte_at (jack_midi_event_t.buffer jevent) 1 <? PluginExporter.getProgramCount p).

(** Host events: a program change on channel 1. *)
Definition program_event (program : Z) : jack_midi_event_t.t :=
  {| jack_midi_event_t.time := 0; jack_midi_event_t.size := 2;
     jack_midi_event_t.buffer := [0xC0; program] |}.

(** A host buffer that selects program 1, sends a note, then selects
    program 0. *)
Definition program_cycle_input : MidiInBuf :=
  [(0, program_event 1); (0, note_on_event 3); (0, program_event 0)].

Definition after_program_cycle : PluginJack :=
  match @jackProcess reference_externals full_build JackTransportRolling
          sample_position 256 program_cycle_input sample_state with
  | Ok st' => st'
  | _ => sample_state
  end.

(** The UI sends the notes [notes], in order. *)
Definition send_notes (notes : list (Z * Z * Z)) (st : PluginJack) : PluginJack :=
  foldl (fun st n => let '(channel, note, velocity) := n in
                     sendNote channel note velocity st) st notes.

(** The sample state with a ring buffer of 4 bytes: room for one note. *)
Definition cramped_state : PluginJack :=
  @construct reference_externals full_build sample_plugin 4.

Definition after_three_notes_cycle : PluginJack :=
  match @jackProcess reference_externals full_build JackTransportRolling
          sample_position 256 []
          (send_notes [(0, 60, 100); (0, 64, 90); (0, 60, 0)] sample_state) with
  | Ok st' => st'
  | _ => sample_state
  end.

(** A host buffer in time order. *)
Definition ordered_input : MidiInBuf :=
  [(0, note_on_event 0); (0, cc_event 7 1); (0, note_on_event 17)].

Definition after_ordered_cycle : PluginJack :=
  match @jackProcess reference_externals full_build JackTransportRolling
          sample_position 256 ordered_input noted_state with
  | Ok st' => st'
  | _ => noted_state
  end.

(** The cycle with the program changes, run after the cycle with the
    control change. *)
Definition after_cc_then_program_cycle : PluginJack :=
  match @jackProcess reference_externals full_build JackTransportRolling
          sample_position 256 program_cycle_input after_cc_cycle with
  | Ok st' => st'
  | _ => after_cc_cycle
  end.

(** ** [writeMidi] (builds with MIDI output)

    The host's MIDI output buffer is the list of the events written to it,
    each a time and its bytes.  [fPortMidiOutBuffer] is null outside of a
    cycle.  [jackbridge_midi_event_write], host code, is a parameter: it
    returns its code and the buffer it leaves. *)
Abbreviation MidiOutBuf := (list (Z * list Z)).

(** The bytes behind [midiEvent.size > kDataSize ? midiEvent.dataExt :
    midiEvent.data]; there are none when the pointer [dataExt] is chosen
    and was never assigned. *)
Definition midi_payload {ext : Externals} (midiEvent : MidiEvent.t) : option (list Z) :=
  if kDataSize <? MidiEvent.size midiEvent
  then MidiEvent.dataExt midiEvent
  else Some (MidiEvent.data midiEvent).

(** [writeMidi]; [None] stands for the undefined behaviour of reading
    through an unassigned pointer. *)
Definition writeMidi {ext : Externals}
    (jackbridge_midi_event_write : MidiOutBuf -> Z -> list Z -> Z -> Z * MidiOutBuf)
    (fPortMidiOutBuffer : option MidiOutBuf) (midiEvent : MidiEvent.t)
    : option (bool * option MidiOutBuf) :=
  match fPortMidiOutBuffer with
  | None => Some (false, None)
  | Some buffer =>
      match midi_payload midiEvent with
      | None => None
      | Some data =>
          let '(rc, buffer) :=
            jackbridge_midi_event_write buffer (MidiEvent.frame midiEvent) data
              (MidiEvent.size midiEvent) in
          Some (rc =? 0, Some buffer)
      end
  end.

(** A host that accepts every event: it appends the first [size] bytes. *)
Definition accepting_host (buffer : MidiOutBuf) (time : Z) (data : list Z) (size : Z)
    : Z * MidiOutBuf :=
  (0, buffer ++ [(time, take (Z.to_nat size) data)]).

(** A host event of six bytes (a short system-exclusive message). *)
Definition sysex_event : jack_midi_event_t.t :=
  {| jack_midi_event_t.time := 12; jack_midi_event_t.size := 6;
     jack_midi_event_t.buffer := [0xF0; 0x7E; 0x7F; 0x06; 0x01; 0xF7] |}.

(** ** Port metadata: [setAudioPortMetadata] *)

Module AudioPort.
Record t := {
  hints : Z;
  name : string;
  symbol : string;
  groupId : Z
}.
End AudioPort.

(** One call [jackbridge_set_property(fClient, subject, key, value, type)]. *)
Module Property.
Record t := {
  subject : Z;
  key : string;
  value : string;
  type : string
}.
End Property.

(** Constants of headers that are not part of the sources (DistrhoPlugin.h,
    lv2/lv2.h, the JACK headers), and the size of an [int]. *)
Class PortConstants := {
  sizeof_int : Z;
  JACK_UUID_EMPTY_INITIALIZER : Z;
  kPortGroupNone : Z;
  kAudioPortIsCV : Z;
  kCVPortHasBipolarRange : Z;
  kCVPortHasNegativeUnipolarRange : Z;
  kCVPortHasPositiveUnipolarRange : Z;
  kCVPortHasScaledRange : Z;
  LV2_CORE__minimum : string;
  LV2_CORE__maximum : string
}.

Definition JACK_METADATA_ORDER : string := "http://jackaudio.org/metadata/order".
Definition JACK_METADATA_PRETTY_NAME : string :=
  "http://jackaudio.org/metadata/pretty-name".
Definition JACK_METADATA_PORT_GROUP : string :=
  "http://jackaudio.org/metadata/port-group".
Definition JACK_METADATA_SIGNAL_TYPE : string :=
  "http://jackaudio.org/metadata/signal-type".

Definition text_plain : string := "text/plain".
Definition xsd_integer : string := "http://www.w3.org/2001/XMLSchema#integer".

(** The character of a decimal digit. *)
Definition digit (d : Z) : string :=
  String (Ascii.ascii_of_N (Z.to_N (48 + d))) "".

(** The decimal digits of [n], most significant first. *)
Fixpoint decimal_digits (fuel : nat) (n : Z) : string :=
  match fuel with
  | O => ""
  | S fuel =>
      if n <? 10 then digit n
      else decimal_digits fuel (n / 10) +:+ digit (n mod 10)
  end.

(** What the conversion ["%u"] prints for a [uint32_t]: it has at most ten
    digits. *)
Definition format_u (n : Z) : string := decimal_digits 10 (uint32 n).

(** [snprintf(buf, size, ...)] with [0 < size]: the buffer receives at most
    [size - 1] characters of the formatted text (and the terminator). *)
Definition snprintf (size : Z) (text : string) : string :=
  String.substring 0 (Z.to_nat (size - 1)) text.

Section PortMetadata.
Context {pc : PortConstants}.

(** [fPlugin.getPortGroupById(groupId).name] *)
Variable portGroupName : Z -> string.

Definition set_property (subject : Z) (key value type : string) : Property.t :=
  {| Property.subject := subject; Property.key := key;
     Property.value := value; Property.type := type |}.

(** The two properties of a CV range. *)
Definition cv_range (uuid : Z) (minimum maximum : string) : list Property.t :=
  [set_property uuid LV2_CORE__minimum minimum xsd_integer;
   set_property uuid LV2_CORE__maximum maximum xsd_integer].

(** [setAudioPortMetadata]: the properties it sets, in order.  [jackport]
    is [None] for a null port and otherwise holds what
    [jackbridge_port_uuid] returns for it. *)
Definition setAudioPortMetadata (port : AudioPort.t) (jackport : option Z)
    (index : Z) : list Property.t :=
  match jackport with
  | None => []
  | Some uuid =>
      if uuid =? JACK_UUID_EMPTY_INITIALIZER then []
      else
        [set_property uuid JACK_METADATA_PRETTY_NAME (AudioPort.name port) text_plain;
         set_property uuid JACK_METADATA_ORDER
           (snprintf (sizeof_int - 1) (format_u index)) xsd_integer]
        ++ (if negb (AudioPort.groupId port =? kPortGroupNone)
            then [set_property uuid JACK_METADATA_PORT_GROUP
                    (portGroupName (AudioPort.groupId port)) text_plain]
            else [])
        ++ (if negb (Z.land (AudioPort.hints port) kAudioPortIsCV =? 0)
            then
              set_property uuid JACK_METADATA_SIGNAL_TYPE "CV" text_plain
              :: (let cvPortScaled :=
                    negb (Z.land (AudioPort.hints port) kCVPortHasScaledRange =? 0) in
                  if negb (Z.land (AudioPort.hints port) kCVPortHasBipolarRange =? 0)
                  then
                    if cvPortScaled then cv_range uuid "-5" "5"
                    else cv_range uuid "-1" "1"
                  else if negb (Z.land (AudioPort.hints port)
                                  kCVPortHasNegativeUnipolarRange =? 0)
                  then
                    if cvPortScaled then cv_range uuid "-10" "0"
                    else cv_range uuid "-1" "0"
                  else if negb (Z.land (AudioPort.hints port)
                                  kCVPortHasPositiveUnipolarRange =? 0)
                  then
                    if cvPortScaled then cv_range uuid "0" "10"
                    else cv_range uuid "0" "1"
                  else [])
            else [set_property uuid JACK_METADATA_SIGNAL_TYPE "AUDIO" text_plain])
  end.

End PortMetadata.

(** The number a text of decimal digits stands for. *)
Fixpoint read_digits (acc : Z) (text : string) : Z :=
  match text with
  | EmptyString => acc
  | String c text => read_digits (10 * acc + (Z.of_N (Ascii.N_of_ascii c) - 48)) text
  end.

Definition read_decimal (text : string) : Z := read_digits 0 text.

(** A choice of the constants: one bit for each hint, the LV2 core names
    of the two range properties and a four-byte [int]. *)
Definition reference_ports : PortConstants :=
  {| sizeof_int := 4;
     JACK_UUID_EMPTY_INITIALIZER := 0;
     kPortGroupNone := 4294967295;
     kAudioPortIsCV := 0x1;
     kCVPortHasBipolarRange := 0x20;
     kCVPortHasNegativeUnipolarRange := 0x40;
     kCVPortHasPositiveUnipolarRange := 0x80;
     kCVPortHasScaledRange := 0x100;
     LV2_CORE__minimum := "http://lv2plug.in/ns/lv2core#minimum";
     LV2_CORE__maximum := "http://lv2plug.in/ns/lv2core#maximum" |}.

Definition cv_port : AudioPort.t :=
  {| AudioPort.hints := 0x1 + 0x20 + 0x80 + 0x100;
     AudioPort.name := "Pitch"; AudioPort.symbol := "pitch";
     AudioPort.groupId := 4294967295 |}.

Definition audio_port : AudioPort.t :=
  {| AudioPort.hints := 0x20;
     AudioPort.name := "Left"; AudioPort.symbol := "left";
     AudioPort.groupId := 1 |}.

Definition group_names (groupId : Z) : string := "Stereo".

(** The constructor's loops over the audio ports (lines 135 to 151): the
    metadata set for each port, the inputs first.  Each port comes with what
    [jackbridge_port_register] returned for it, as [setAudioPortMetadata]
    takes it; [DISTRHO_PLUGIN_NUM_INPUTS] is the number of inputs. *)
Definition register_audio_ports {pc : PortConstants} (portGroupName : Z -> string)
    (inputs outputs : list (AudioPort.t * option Z)) : list (list Property.t) :=
  imap (fun i port =>
          setAudioPortMetadata portGroupName port.1 port.2 (Z.of_nat i)) inputs
  ++ imap (fun i port =>
             setAudioPortMetadata portGroupName port.1 port.2
               (Z.of_nat (length inputs) + Z.of_nat i)) outputs.

(** Two inputs, the second one refused by the host, and one output. *)
Definition sample_inputs : list (AudioPort.t * option Z) :=
  [(audio_port, Some 7); (audio_port, None)].

Definition sample_outputs : list (AudioPort.t * option Z) := [(cv_port, Some 9)].

(** ** [main] *)

(** The bits of [jack_status_t] (JACK headers). *)
Class JackStatus := {
  JackFailure : Z;
  JackInvalidOption : Z;
  JackNameNotUnique : Z;
  JackServerStarted : Z;
  JackServerFailed : Z;
  JackServerError : Z;
  JackNoSuchClient : Z;
  JackLoadFailure : Z;
  JackInitFailure : Z;
  JackShmFailure : Z;
  JackVersionError : Z;
  JackBackendError : Z;
  JackClientZombie : Z
}.

(** The text of the escape [\n]. *)
Definition newline : string := String (Ascii.ascii_of_N 10) "".

Definition full_stop : Ascii.ascii := Ascii.ascii_of_N 46.

(** Modelled from the spec: [String] (extra/String.hpp) is not part of the
    sources.  A [String] is taken as the text it holds: [+=] appends,
    [length] counts the characters, [isNotEmpty] tells whether there is one
    and an assignment through [operator[]] replaces the character at an
    index inside the text; the text keeps its characters when the index is
    outside (which includes the indices that [length() - 2] wraps to). *)
Fixpoint string_set_nat (s : string) (pos : nat) (c : Ascii.ascii) : string :=
  match s, pos with
  | EmptyString, _ => EmptyString
  | String _ s, O => String c s
  | String a s, S pos => String a (string_set_nat s pos c)
  end.

Definition string_set (s : string) (pos : Z) (c : Ascii.ascii) : string :=
  if (0 <=? pos) && (pos <? Z.of_nat (String.length s))
  then string_set_nat s (Z.to_nat pos) c
  else s.

Definition isNotEmpty (s : string) : bool := negb (String.length s =? 0)%nat.

Section Main.
Context {ext : Externals} {js : JackStatus} (cfg : BuildConfig).

(** The tests of [status] in their order, each with the text it appends. *)
Definition status_messages : list (Z * string) :=
  [(JackFailure, "Overall operation failed;" +:+ newline);
   (JackInvalidOption,
    "The operation contained an invalid or unsupported option;" +:+ newline);
   (JackNameNotUnique, "The desired client name was not unique;" +:+ newline);
   (JackServerStarted,
    "The JACK server was started as a result of this operation;" +:+ newline);
   (JackServerFailed, "Unable to connect to the JACK server;" +:+ newline);
   (JackServerError, "Communication error with the JACK server;" +:+ newline);
   (JackNoSuchClient, "Requested client does not exist;" +:+ newline);
   (JackLoadFailure, "Unable to load internal client;" +:+ newline);
   (JackInitFailure, "Unable to initialize client;" +:+ newline);
   (JackShmFailure, "Unable to access shared memory;" +:+ newline);
   (JackVersionError, "Client's protocol version does not match;" +:+ newline);
   (JackBackendError, "Backend Error;" +:+ newline);
   (JackClientZombie, "Client is being shutdown against its will;" +:+ newline)].

(** [if (status & bit) errorString += text;] *)
Definition add_message (status : Z) (errorString : string) (message : Z * string)
    : string :=
  if negb (Z.land status message.1 =? 0) then errorString +:+ message.2
  else errorString.

Definition build_errorString (status : Z) : string :=
  foldl (add_message status) "" status_messages.

(** [main]: the value it returns, the bridge it ran (if any) and the texts
    it gave to [d_stderr].  [client] and [status] are what
    [jackbridge_client_open] produced; the plugin and the capacity of the
    ring buffer are those of the bridge that gets constructed. *)
Definition main (client : option Z) (status : Z) (p : PluginExporter.t)
    (capacity : nat) : Z * option PluginJack * list string :=
  match client with
  | None =>
      let errorString := build_errorString status in
      if isNotEmpty errorString then
        let errorString :=
          string_set errorString (Z.of_nat (String.length errorString) - 2)
            full_stop in
        (1, None,
         ["Failed to create jack client, reason was:" +:+ newline +:+ errorString])
      else (1, None, ["Failed to create jack client, cannot continue!"])
  | Some _ => (0, Some (construct cfg p capacity), [])
  end.

(** The texts of the bits that [status] has, in the order of the tests. *)
Definition reported (status : Z) : list string :=
  map snd (List.filter (fun message => negb (Z.land status message.1 =? 0))
             status_messages).

End Main.

(** A text with its last two characters replaced by a full stop and a
    newline. *)
Definition closed (message : string) : string :=
  String.substring 0 (String.length message - 2) message
  +:+ String full_stop "" +:+ newline.

(** The texts one after the other, the last one closed. *)
Fixpoint report (messages : list string) : string :=
  match messages with
  | [] => ""
  | [message] => closed message
  | message :: messages => message +:+ report messages
  end.

(** The bits as the JACK headers number them. *)
Definition reference_status : JackStatus :=
  {| JackFailure := 0x01; JackInvalidOption := 0x02; JackNameNotUnique := 0x04;
     JackServerStarted := 0x08; JackServerFailed := 0x10; JackServerError := 0x20;
     JackNoSuchClient := 0x40; JackLoadFailure := 0x80; JackInitFailure := 0x100;
     JackShmFailure := 0x200; JackVersionError := 0x400; JackBackendError := 0x800;
     JackClientZombie := 0x1000 |}.

(** The sample state after the UI has sent a note on channel 32: with the
    channel left unmasked by [sendNote], the record has the status byte of
    a control change, here of control 7, to which parameter 0 is mapped. *)
Definition disguised_state : PluginJack := sendNote 0x20 7 100 sample_state.

Definition after_disguised_cycle : PluginJack :=
  match @jackProcess reference_externals full_build JackTransportRolling
          sample_position 256 [] disguised_state with
  | Ok st' => st'
  | _ => disguised_state
  end.
(** * Properties *)

(** ** Loops and frames *)

Lemma foldl_preserves {S X : Type} (P : S -> Prop) (f : S -> X -> S) (l : list X) :
  forall s, P s -> (forall s x, P s -> P (f s x)) -> P (foldl f s l).
Proof.
  induction l as [|x l IH]; intros s Hs Hf; simpl; [exact Hs|].
  apply IH; [apply Hf, Hs | exact Hf].
Qed.

Lemma Ok_inj {A : Type} (a b : A) : Ok a = Ok b -> a = b.
Proof. intros H. inversion H. reflexivity. Qed.

Lemma keeps_refl (st : PluginJack) : keeps st st.
Proof.
  unfold keeps; repeat split; try reflexivity.
  exists []. by rewrite app_nil_r.
Qed.

Lemma keeps_trans (st1 st2 st3 : PluginJack) :
  keeps st1 st2 -> keeps st2 st3 -> keeps st1 st3.
Proof.
  unfold keeps.
  intros (A1 & (k1 & A2 & A2') & A3 & A4 & A5 & A6 & A7)
         (B1 & (k2 & B2 & B2') & B3 & B4 & B5 & B6 & B7).
  repeat split; try congruence.
  exists (k1 ++ k2). split.
  - by rewrite B2, A2, app_assoc.
  - by apply Forall_app.
Qed.

Lemma keeps_call (c : Call) (st : PluginJack) :
  is_run_call c = false -> keeps st (call c st).
Proof.
  intros Hc. unfold keeps; simpl; repeat split; try reflexivity.
  exists [c]. split; [reflexivity|]. by constructor.
Qed.

Section Frames.
Context {ext : Externals} (cfg : BuildConfig).

Lemma keeps_plugin_setParameterValue (i : nat) (v : float) (st : PluginJack) :
  keeps st (plugin_setParameterValue i v st).
Proof.
  unfold keeps; simpl; repeat split; try reflexivity.
  - eexists. split; [reflexivity|]. by constructor.
  - by rewrite length_insert.
Qed.

Lemma keeps_plugin_loadProgram (p : Z) (st : PluginJack) :
  keeps st (plugin_loadProgram p st).
Proof.
  unfold keeps; simpl; repeat split; try reflexivity.
  - eexists. split; [reflexivity|]. by constructor.
  - by rewrite length_imap.
Qed.

Lemma keeps_same_calls (st st' : PluginJack) :
  fTimePosition st' = fTimePosition st ->
  calls st' = calls st ->
  fPlugin st' = fPlugin st ->
  fLastOutputValues st' = fLastOutputValues st ->
  length (fParametersChanged st') = length (fParametersChanged st) ->
  keeps st st'.
Proof.
  intros H1 H2 H3 H4 H5. unfold keeps. rewrite H3. repeat split; try assumption.
  exists []. by rewrite app_nil_r.
Qed.

Lemma keeps_set_fParametersChanged (l : list bool) (st : PluginJack) :
  length l = length (fParametersChanged st) ->
  keeps st (set_fParametersChanged l st).
Proof. intros Hl. by apply keeps_same_calls. Qed.

Lemma keeps_set_fProgramChanged (p : Z) (st : PluginJack) :
  keeps st (set_fProgramChanged p st).
Proof. by apply keeps_same_calls. Qed.

Lemma keeps_set_fNotesRingBuffer (rb : RingBuffer.t) (st : PluginJack) :
  keeps st (set_fNotesRingBuffer rb st).
Proof. by apply keeps_same_calls. Qed.

Lemma keeps_trigger_parameter (st : PluginJack) (i : nat) :
  keeps st (trigger_parameter st i).
Proof.
  unfold trigger_parameter.
  repeat case_match; auto using keeps_refl, keeps_plugin_setParameterValue.
Qed.

Lemma keeps_updateParameterTriggers (st : PluginJack) :
  keeps st (updateParameterTriggers st).
Proof.
  unfold updateParameterTriggers.
  apply (foldl_preserves (keeps st)); [apply keeps_refl|].
  intros s x Hs. eapply keeps_trans; [exact Hs | apply keeps_trigger_parameter].
Qed.

Lemma keeps_control_change (control value : Z) (remaining : nat) :
  forall (j : nat) (st : PluginJack),
    keeps st (control_change cfg control value remaining j st).
Proof.
  induction remaining as [|n IH]; intros j st; cbn [control_change]; [apply keeps_refl|].
  repeat case_match; auto.
  - eapply keeps_trans; [apply keeps_plugin_setParameterValue|].
    apply keeps_set_fParametersChanged. by rewrite length_insert.
  - apply keeps_plugin_setParameterValue.
Qed.

Lemma keeps_interpret_event (jevent : jack_midi_event_t.t) (st : PluginJack) :
  keeps st (interpret_event cfg jevent st).
Proof.
  unfold interpret_event.
  repeat case_match; auto using keeps_refl, keeps_control_change, keeps_plugin_loadProgram.
  eapply keeps_trans; [apply keeps_plugin_loadProgram | apply keeps_set_fProgramChanged].
Qed.

Lemma keeps_host_events (slots : MidiInBuf) :
  forall (evs evs' : list MidiEvent.t) (st st' : PluginJack),
    host_events cfg slots evs st = Ok (evs', st') -> keeps st st'.
Proof.
  induction slots as [|[rc jevent] slots IH]; intros evs evs' st st' H; simpl in H.
  - inversion H; subst. apply keeps_refl.
  - destruct (negb (rc =? 0)).
    + inversion H; subst. apply keeps_refl.
    + unfold host_event in H.
      destruct (DISTRHO_PLUGIN_WANT_MIDI_INPUT cfg); simpl in H.
      * destruct (store_midiEvent evs (to_MidiEvent jevent)) as [evs1| |]; simpl in H;
          try discriminate.
        eapply keeps_trans; [apply keeps_interpret_event | eapply IH, H].
      * eapply keeps_trans; [apply keeps_interpret_event | eapply IH, H].
Qed.

Lemma keeps_gather_notes (st st' : PluginJack) (evs : list MidiEvent.t) :
  gather_notes cfg st = Ok (evs, st') -> keeps st st'.
Proof.
  unfold gather_notes. intros H.
  destruct (DISTRHO_PLUGIN_WANT_MIDI_INPUT cfg && DISTRHO_PLUGIN_HAS_UI cfg).
  - destruct (drain_notes 512 (fNotesRingBuffer st) []) as [[rb evs1]| |];
      simpl in H; try discriminate.
    inversion H; subst. apply keeps_set_fNotesRingBuffer.
  - inversion H; subst. apply keeps_refl.
Qed.

(** [jackProcess] is the sequence of its five parts. *)
Lemma jackProcess_inv (state : jack_transport_state_t) (pos : jack_position_t.t)
    (nframes : Z) (midiInBuf : MidiInBuf) (st st' : PluginJack) :
  jackProcess cfg state pos nframes midiInBuf st = Ok st' ->
  exists (ui evs : list MidiEvent.t) (st3 st4 : PluginJack),
    let st1 := if DISTRHO_PLUGIN_WANT_TIMEPOS cfg
               then updateTimePosition cfg state pos st else st in
    gather_notes cfg (updateParameterTriggers st1) = Ok (ui, st3)
    /\ host_events cfg (take (Z.to_nat (host_event_count ui midiInBuf)) midiInBuf) ui st3
       = Ok (evs, st4)
    /\ st' = plugin_run cfg nframes evs st4.
Proof.
  unfold jackProcess. intros H.
  destruct (gather_notes cfg _) as [[ui st3]| |] eqn:Hg; simpl in H; try discriminate.
  destruct (host_events cfg _ ui st3) as [[evs st4]| |] eqn:Hh; simpl in H;
    try discriminate.
  inversion H; subst. exists ui, evs, st3, st4. auto.
Qed.

End Frames.

(** ** Time position *)

Lemma new_calls_app (st st' : PluginJack) (l : list Call) :
  calls st' = calls st ++ l -> new_calls st st' = l.
Proof. intros H. unfold new_calls. rewrite H. by rewrite drop_app_length. Qed.

Lemma keeps_new_calls (st st' : PluginJack) :
  keeps st st' -> calls st' = calls st ++ new_calls st st'.
Proof.
  intros (_ & (k & Hk & _) & _). rewrite (new_calls_app st st' k Hk). exact Hk.
Qed.

Lemma calls_plugin_run {ext : Externals} (cfg : BuildConfig) (nframes : Z)
    (evs : list MidiEvent.t) (st : PluginJack) :
  exists c : Call,
    calls (plugin_run cfg nframes evs st) = calls st ++ [c]
    /\ is_run_call c = true
    /\ (DISTRHO_PLUGIN_WANT_MIDI_INPUT cfg = true ->
        c = Plugin_run nframes evs (Z.of_nat (length evs))).
Proof.
  unfold plugin_run. destruct (DISTRHO_PLUGIN_WANT_MIDI_INPUT cfg); simpl;
    eexists; (split; [reflexivity|]); split; try reflexivity; discriminate.
Qed.

Lemma fTimePosition_plugin_run {ext : Externals} (cfg : BuildConfig) (nframes : Z)
    (evs : list MidiEvent.t) (st : PluginJack) :
  fTimePosition (plugin_run cfg nframes evs st) = fTimePosition st.
Proof. unfold plugin_run. by destruct (DISTRHO_PLUGIN_WANT_MIDI_INPUT cfg). Qed.

(** C3: the time position of a cycle.  In a build with time position
    support, the position handed to the DSP core has [playing] set exactly
    when the state of the transport is [JackTransportRolling], whatever the
    snapshot; with differing
    markers [unique_1], [unique_2] its frame is 0 and its bar-beat-tick
    block is invalid; with equal markers the frame is the snapshot's, the
    block is copied (and valid) when the snapshot carries the BBT flag and
    is otherwise marked invalid with its other fields left as they were. *)
Theorem C3_time_position_translation {ext : Externals} (cfg : BuildConfig)
    (state : jack_transport_state_t) (pos : jack_position_t.t) (nframes : Z)
    (midiInBuf : MidiInBuf) (st st' : PluginJack) :
  DISTRHO_PLUGIN_WANT_TIMEPOS cfg = true ->
  jackProcess cfg state pos nframes midiInBuf st = Ok st' ->
  let old := TimePosition.bbt (fTimePosition st) in
  let tp := fTimePosition st' in
  let bbt := TimePosition.bbt tp in
  head (new_calls st st') = Some (Plugin_setTimePosition tp)
  /\ (TimePosition.playing tp = true <-> state = JackTransportRolling)
  /\ (jack_position_t.unique_1 pos <> jack_position_t.unique_2 pos ->
      TimePosition.frame tp = 0 /\ BarBeatTick.valid bbt = false)
  /\ (jack_position_t.unique_1 pos = jack_position_t.unique_2 pos ->
      TimePosition.frame tp = jack_position_t.frame pos
      /\ (Z.land (jack_position_t.valid pos) JackPositionBBT <> 0 ->
          bbt =
          {| BarBeatTick.valid := true;
             BarBeatTick.bar := jack_position_t.bar pos;
             BarBeatTick.beat := jack_position_t.beat pos;
             BarBeatTick.tick :=
               if JACK_TICK_DOUBLE cfg
                  && negb (Z.land (jack_position_t.valid pos) JackTickDouble =? 0)
               then jack_position_t.tick_double pos
               else F64.of_Z (jack_position_t.tick pos);
             BarBeatTick.barStartTick := jack_position_t.bar_start_tick pos;
             BarBeatTick.beatsPerBar := jack_position_t.beats_per_bar pos;
             BarBeatTick.beatType := jack_position_t.beat_type pos;
             BarBeatTick.ticksPerBeat := jack_position_t.ticks_per_beat pos;
             BarBeatTick.beatsPerMinute := jack_position_t.beats_per_minute pos |})
      /\ (Z.land (jack_position_t.valid pos) JackPositionBBT = 0 ->
          bbt =
          {| BarBeatTick.valid := false;
             BarBeatTick.bar := BarBeatTick.bar old;
             BarBeatTick.beat := BarBeatTick.beat old;
             BarBeatTick.tick := BarBeatTick.tick old;
             BarBeatTick.barStartTick := BarBeatTick.barStartTick old;
             BarBeatTick.beatsPerBar := BarBeatTick.beatsPerBar old;
             BarBeatTick.beatType := BarBeatTick.beatType old;
             BarBeatTick.ticksPerBeat := BarBeatTick.ticksPerBeat old;
             BarBeatTick.beatsPerMinute := BarBeatTick.beatsPerMinute old |})).
Proof.
  intros Htp Hrun.
  destruct (jackProcess_inv cfg _ _ _ _ _ _ Hrun) as (ui & evs & st3 & st4 & Hg & Hh & ->).
  rewrite Htp in Hg.
  set (st1 := updateTimePosition cfg state pos st) in *.
  assert (K : keeps st1 st4).
  { eapply keeps_trans; [apply keeps_updateParameterTriggers|].
    eapply keeps_trans; [eapply keeps_gather_notes, Hg|].
    eapply keeps_host_events, Hh. }
  destruct K as (Ktp & (k & Hk & _) & _).
  destruct (calls_plugin_run cfg nframes evs st4) as (c & Hc & _).
  cbv zeta. rewrite fTimePosition_plugin_run, Ktp.
  assert (Etp : fTimePosition st1 = translate cfg state pos (fTimePosition st))
    by reflexivity.
  rewrite Etp. split.
  { rewrite (new_calls_app st _ (Plugin_setTimePosition
               (translate cfg state pos (fTimePosition st)) :: k ++ [c]));
      [reflexivity|].
    rewrite Hc, Hk. unfold st1, updateTimePosition. simpl.
    by rewrite <- !app_assoc. }
  assert (Hplay : forall b : bool,
            b = is_rolling state -> (b = true <-> state = JackTransportRolling)).
  { intros b ->. destruct state; simpl; split; intros H; try reflexivity;
      discriminate H. }
  unfold translate.
  destruct (jack_position_t.unique_1 pos =? jack_position_t.unique_2 pos) eqn:Hu.
  - apply Z.eqb_eq in Hu. simpl. split; [by apply Hplay|].
    split; [intros; contradiction|].
    intros _. split; [reflexivity|].
    destruct (Z.land (jack_position_t.valid pos) JackPositionBBT =? 0) eqn:Hv.
    + apply Z.eqb_eq in Hv. simpl. split; [intros; contradiction | reflexivity].
    + apply Z.eqb_neq in Hv. simpl. split; [reflexivity | intros; contradiction].
  - apply Z.eqb_neq in Hu. simpl. split; [by apply Hplay|].
    split; [split; reflexivity | intros; contradiction].
Qed.

Lemma C3_time_position_translation_witness :
  DISTRHO_PLUGIN_WANT_TIMEPOS full_build = true
  /\ @jackProcess reference_externals full_build JackTransportRolling
       torn_position 256 [] sample_state = Ok after_torn_cycle
  /\ @jackProcess reference_externals full_build JackTransportStarting
       sample_position 256 [] sample_state = Ok after_starting_cycle
  /\ TimePosition.playing (fTimePosition after_torn_cycle) = true
  /\ TimePosition.frame (fTimePosition after_torn_cycle) = 0
  /\ BarBeatTick.valid (TimePosition.bbt (fTimePosition after_torn_cycle)) = false
  /\ TimePosition.playing (fTimePosition after_starting_cycle) = false
  /\ TimePosition.frame (fTimePosition after_starting_cycle) = 48000.
Proof.
  assert (H1 : DISTRHO_PLUGIN_WANT_TIMEPOS full_build = true) by reflexivity.
  assert (H2 : @jackProcess reference_externals full_build JackTransportRolling
                 torn_position 256 [] sample_state = Ok after_torn_cycle)
    by (vm_compute; reflexivity).
  assert (H3 : @jackProcess reference_externals full_build JackTransportStarting
                 sample_position 256 [] sample_state = Ok after_starting_cycle)
    by (vm_compute; reflexivity).
  destruct (@C3_time_position_translation reference_externals full_build
              JackTransportRolling torn_position 256 [] sample_state
              after_torn_cycle H1 H2) as (_ & Hp & Hd & _).
  destruct (@C3_time_position_translation reference_externals full_build
              JackTransportStarting sample_position 256 [] sample_state
              after_starting_cycle H1 H3) as (_ & Hp' & _ & He).
  split; [exact H1|]. split; [exact H2|]. split; [exact H3|].
  split; [by apply Hp|].
  split; [apply Hd; vm_compute; discriminate|].
  split; [apply Hd; vm_compute; discriminate|].
  split.
  - apply Bool.not_true_is_false. intros E. apply Hp' in E. discriminate E.
  - apply He. reflexivity.
Defined.

(** ** Trigger parameters *)

Section Triggers.
Context {ext : Externals}.

Lemma trigger_parameter_eq (st : PluginJack) (i : nat) :
  trigger_parameter st i =
  if trigger_reset (fPlugin st) i
  then plugin_setParameterValue i
         (ParameterRanges.def (PluginExporter.getParameterRanges (fPlugin st) i)) st
  else st.
Proof.
  unfold trigger_parameter, trigger_reset, is_trigger.
  destruct (Z.land _ kParameterIsTrigger =? kParameterIsTrigger); reflexivity.
Qed.

Lemma trigger_reset_with_values (p : PluginExporter.t) (vs : list float) (i : nat) :
  vs !! i = PluginExporter.values p !! i ->
  trigger_reset (PluginExporter.with_values vs p) i = trigger_reset p i.
Proof.
  intros H. unfold trigger_reset, is_trigger, PluginExporter.getParameterValue.
  simpl. by rewrite H.
Qed.

Lemma ltb_succ_r (i n : nat) : (i <? S n)%nat = (i <? n)%nat || (i =? n)%nat.
Proof.
  destruct (i <? n)%nat eqn:E1; destruct (i =? n)%nat eqn:E2; simpl;
    rewrite ?Nat.ltb_lt, ?Nat.ltb_ge in *;
    rewrite ?Nat.eqb_eq, ?Nat.eqb_neq in *; lia.
Qed.

(** The state after the first [n] iterations of the trigger loop. *)
Lemma trigger_loop (st : PluginJack) (n : nat) :
  exists vs : list float,
    foldl trigger_parameter st (seq 0 n)
    = {| fPlugin := PluginExporter.with_values vs (fPlugin st);
         fTimePosition := fTimePosition st;
         fLastOutputValues := fLastOutputValues st;
         fParametersChanged := fParametersChanged st;
         fProgramChanged := fProgramChanged st;
         fNotesRingBuffer := fNotesRingBuffer st;
         calls := calls st ++ trigger_calls (fPlugin st) n |}
    /\ forall i : nat,
         vs !! i =
         if (i <? n)%nat && trigger_reset (fPlugin st) i
         then (fun _ => ParameterRanges.def
                          (PluginExporter.getParameterRanges (fPlugin st) i))
                <$> PluginExporter.values (fPlugin st) !! i
         else PluginExporter.values (fPlugin st) !! i.
Proof.
  induction n as [|n (vs & Hs & Hvs)].
  - exists (PluginExporter.values (fPlugin st)). split.
    + simpl. unfold trigger_calls. simpl. rewrite app_nil_r.
      destruct st as [[ps vs pc] ? ? ? ? ? ?]; reflexivity.
    + intros i. reflexivity.
  - rewrite seq_S, foldl_app, Hs. simpl.
    unfold trigger_calls. rewrite seq_S, flat_map_app. simpl. rewrite app_nil_r.
    fold (trigger_calls (fPlugin st) n).
    assert (Hn : vs !! n = PluginExporter.values (fPlugin st) !! n).
    { rewrite Hvs. by rewrite Nat.ltb_irrefl. }
    rewrite trigger_parameter_eq. cbn [fPlugin].
    rewrite (trigger_reset_with_values _ _ _ Hn).
    change (PluginExporter.getParameterRanges
              (PluginExporter.with_values vs (fPlugin st)) n)
      with (PluginExporter.getParameterRanges (fPlugin st) n).
    destruct (trigger_reset (fPlugin st) n) eqn:Hr.
    + eexists. split.
      { unfold plugin_setParameterValue, call, set_fPlugin,
          PluginExporter.setParameterValue, PluginExporter.with_values. simpl.
        rewrite <- app_assoc. reflexivity. }
      intros i. rewrite ltb_succ_r. destruct (decide (i = n)) as [->|Hin].
      * rewrite Nat.eqb_refl, orb_true_r, Hr. simpl. rewrite <- Hn.
        destruct (vs !! n) as [v|] eqn:Hv; simpl.
        -- apply list_lookup_insert_eq. by eapply lookup_lt_Some.
        -- rewrite list_insert_ge; [exact Hv|]. by apply lookup_ge_None.
      * rewrite list_lookup_insert_ne by done. rewrite Hvs.
        replace (i =? n)%nat with false by (symmetry; by apply Nat.eqb_neq).
        by rewrite orb_false_r.
    + exists vs. split; [by rewrite app_nil_r|].
      intros i. rewrite Hvs, ltb_succ_r. destruct (decide (i = n)) as [->|Hin].
      * by rewrite Nat.ltb_irrefl, Hr, !andb_false_r.
      * replace (i =? n)%nat with false by (symmetry; by apply Nat.eqb_neq).
        by rewrite orb_false_r.
Qed.

End Triggers.

Section TriggerStep.
Context {ext : Externals}.

Lemma updateParameterTriggers_spec (st : PluginJack) :
  exists vs : list float,
    updateParameterTriggers st
    = {| fPlugin := PluginExporter.with_values vs (fPlugin st);
         fTimePosition := fTimePosition st;
         fLastOutputValues := fLastOutputValues st;
         fParametersChanged := fParametersChanged st;
         fProgramChanged := fProgramChanged st;
         fNotesRingBuffer := fNotesRingBuffer st;
         calls := calls st
                  ++ trigger_calls (fPlugin st)
                       (PluginExporter.getParameterCount (fPlugin st)) |}
    /\ forall i : nat,
         vs !! i =
         if (i <? PluginExporter.getParameterCount (fPlugin st))%nat
            && trigger_reset (fPlugin st) i
         then (fun _ => ParameterRanges.def
                          (PluginExporter.getParameterRanges (fPlugin st) i))
                <$> PluginExporter.values (fPlugin st) !! i
         else PluginExporter.values (fPlugin st) !! i.
Proof. apply trigger_loop. Qed.

Lemma in_trigger_calls (p : PluginExporter.t) (n i : nat) (v : float) :
  In (Plugin_setParameterValue i v) (trigger_calls p n) <->
  (i < n)%nat /\ trigger_reset p i = true
  /\ v = ParameterRanges.def (PluginExporter.getParameterRanges p i).
Proof.
  unfold trigger_calls. rewrite in_flat_map. split.
  - intros (j & Hj & Hin). apply in_seq in Hj.
    destruct (trigger_reset p j) eqn:Hr; [|destruct Hin].
    destruct Hin as [Heq|[]]. inversion Heq; subst. repeat split; [lia | done].
  - intros (Hi & Hr & ->). exists i. split; [apply in_seq; lia|].
    rewrite Hr. by left.
Qed.

Lemma trigger_calls_not_run (p : PluginExporter.t) (n : nat) :
  Forall (fun c => is_run_call c = false) (trigger_calls p n).
Proof.
  unfold trigger_calls. apply Forall_forall. intros c Hc.
  apply list_elem_of_In, in_flat_map in Hc. destruct Hc as (j & _ & Hin).
  destruct (trigger_reset p j); [|destruct Hin].
  destruct Hin as [<-|[]]. reflexivity.
Qed.

End TriggerStep.

(** C5: the trigger reset of a cycle.  The trigger step writes, through
    [setParameterValue], exactly the parameters whose hints hold the
    trigger bits and whose value is reported different from the default,
    and it writes the default; the other parameters keep their value and
    are not written.  In [jackProcess] these writes come before the single
    call to [run], which ends the cycle. *)
Theorem C5_trigger_reset_before_run {ext : Externals} (cfg : BuildConfig)
    (state : jack_transport_state_t) (pos : jack_position_t.t) (nframes : Z)
    (midiInBuf : MidiInBuf) (st st' : PluginJack) :
  jackProcess cfg state pos nframes midiInBuf st = Ok st' ->
  let p := fPlugin st in
  let count := PluginExporter.getParameterCount p in
  let def i := ParameterRanges.def (PluginExporter.getParameterRanges p i) in
  let writes := trigger_calls p count in
  (forall (i : nat) (v : float),
      In (Plugin_setParameterValue i v) writes <->
      (i < count)%nat
      /\ is_trigger p i = true
      /\ d_isNotEqual (def i) (PluginExporter.getParameterValue p i) = true
      /\ v = def i)
  /\ new_calls st (updateParameterTriggers st) = writes
  /\ (forall i : nat,
        (i < count)%nat -> (i < length (PluginExporter.values p))%nat ->
        PluginExporter.getParameterValue (fPlugin (updateParameterTriggers st)) i
        = if is_trigger p i
             && d_isNotEqual (def i) (PluginExporter.getParameterValue p i)
          then def i else PluginExporter.getParameterValue p i)
  /\ (exists (before after : list Call) (c : Call),
        new_calls st st' = before ++ writes ++ after ++ [c]
        /\ is_run_call c = true
        /\ Forall (fun c => is_run_call c = false) (before ++ writes ++ after)
        /\ (before = [] \/ exists tp, before = [Plugin_setTimePosition tp])).
Proof.
  intros Hrun p count def writes. split; [|split; [|split]].
  - intros i v. unfold writes. rewrite in_trigger_calls.
    unfold trigger_reset. rewrite andb_true_iff. tauto.
  - destruct (updateParameterTriggers_spec st) as (vs & -> & _).
    apply new_calls_app. reflexivity.
  - intros i Hi Hlen.
    destruct (updateParameterTriggers_spec st) as (vs & -> & Hvs).
    unfold PluginExporter.getParameterValue at 1. simpl. rewrite Hvs.
    replace (i <? PluginExporter.getParameterCount (fPlugin st))%nat with true
      by (symmetry; by apply Nat.ltb_lt).
    simpl. fold p. unfold trigger_reset. fold (def i).
    destruct (lookup_lt_is_Some_2 _ _ Hlen) as [v Hv].
    unfold PluginExporter.getParameterValue. fold p in Hv. rewrite Hv. simpl.
    by destruct (is_trigger p i && d_isNotEqual (def i) v).
  - destruct (jackProcess_inv cfg _ _ _ _ _ _ Hrun)
      as (ui & evs & st3 & st4 & Hg & Hh & ->).
    set (st1 := if DISTRHO_PLUGIN_WANT_TIMEPOS cfg
                then updateTimePosition cfg state pos st else st) in *.
    assert (H1 : fPlugin st1 = p
                 /\ exists before, calls st1 = calls st ++ before
                    /\ Forall (fun c => is_run_call c = false) before
                    /\ (before = [] \/ exists tp, before = [Plugin_setTimePosition tp])).
    { unfold st1. destruct (DISTRHO_PLUGIN_WANT_TIMEPOS cfg); simpl.
      - split; [reflexivity|]. eexists. split; [reflexivity|].
        split; [by constructor | right; eauto].
      - split; [reflexivity|]. exists []. rewrite app_nil_r. auto. }
    destruct H1 as (Hp & before & Hb & Hbr & Hshape).
    assert (K : keeps (updateParameterTriggers st1) st4).
    { eapply keeps_trans; [eapply keeps_gather_notes, Hg|].
      eapply keeps_host_events, Hh. }
    destruct K as (_ & (after & Ha & Har) & _).
    destruct (updateParameterTriggers_spec st1) as (vs & Hu & _).
    rewrite Hu in Ha. simpl in Ha. rewrite Hp in Ha. fold count writes in Ha.
    destruct (calls_plugin_run cfg nframes evs st4) as (c & Hc & Hcr & _).
    exists before, after, c. split; [|split; [exact Hcr|split; [|exact Hshape]]].
    + apply new_calls_app. rewrite Hc, Ha, Hb. by rewrite <- !app_assoc.
    + apply Forall_app. split; [exact Hbr|]. apply Forall_app. split; [|exact Har].
      apply trigger_calls_not_run.
Qed.

Lemma C5_trigger_reset_before_run_witness :
  @jackProcess reference_externals full_build JackTransportRolling
     sample_position 256 [] sample_state = Ok after_sample_cycle
  /\ In (Plugin_setParameterValue 3 F32.zero)
        (@trigger_calls reference_externals (fPlugin sample_state) 4)
  /\ @PluginExporter.getParameterValue
       (fPlugin (@updateParameterTriggers reference_externals sample_state)) 3
     = F32.zero.
Proof.
  assert (H : @jackProcess reference_externals full_build JackTransportRolling
                sample_position 256 [] sample_state = Ok after_sample_cycle)
    by (vm_compute; reflexivity).
  destruct (@C5_trigger_reset_before_run reference_externals full_build
              JackTransportRolling sample_position 256 [] sample_state
              after_sample_cycle H) as (Hw & _ & Hv & _).
  split; [exact H|]. split.
  - apply Hw. vm_compute. repeat split; lia.
  - rewrite Hv; [vm_compute; reflexivity | vm_compute; lia | vm_compute; lia].
Defined.

(** ** Parameter value change requests *)

(** C9: a request to change the value of a parameter.  With an index not
    below the parameter count the request returns [false], writes no
    parameter value and sets no flag: only the diagnostic of the failed
    assertion is emitted.  With an index in range it returns [true], the
    value is written through [setParameterValue] and, in a build with a UI,
    the flag of that parameter is set. *)
Theorem C9_request_parameter_value_change (cfg : BuildConfig)
    (index : nat) (value : float) (st : PluginJack) :
  let count := PluginExporter.getParameterCount (fPlugin st) in
  let r := fst (requestParameterValueChange cfg index value st) in
  let st' := snd (requestParameterValueChange cfg index value st) in
  ((count <= index)%nat ->
     r = false
     /\ fPlugin st' = fPlugin st
     /\ fParametersChanged st' = fParametersChanged st
     /\ new_calls st st' = [d_safe_assert])
  /\ ((index < count)%nat ->
     r = true
     /\ new_calls st st' = [Plugin_setParameterValue index value]
     /\ PluginExporter.values (fPlugin st')
        = <[index := value]> (PluginExporter.values (fPlugin st))
     /\ ((index < length (PluginExporter.values (fPlugin st)))%nat ->
         PluginExporter.getParameterValue (fPlugin st') index = value)
     /\ (DISTRHO_PLUGIN_HAS_UI cfg = true ->
         fParametersChanged st' = <[index := true]> (fParametersChanged st)
         /\ ((index < length (fParametersChanged st))%nat ->
             fParametersChanged st' !! index = Some true))).
Proof.
  cbv zeta. unfold requestParameterValueChange. split; intros Hi.
  - replace (index <? PluginExporter.getParameterCount (fPlugin st))%nat with false
      by (symmetry; by apply Nat.ltb_ge).
    simpl. repeat split. by apply new_calls_app.
  - replace (index <? PluginExporter.getParameterCount (fPlugin st))%nat with true
      by (symmetry; by apply Nat.ltb_lt).
    cbn [negb fst snd]. split; [reflexivity|]. split; [|split; [|split]].
    + apply new_calls_app. by destruct (DISTRHO_PLUGIN_HAS_UI cfg).
    + by destruct (DISTRHO_PLUGIN_HAS_UI cfg).
    + intros Hlen. unfold PluginExporter.getParameterValue.
      destruct (DISTRHO_PLUGIN_HAS_UI cfg); simpl;
        by rewrite list_lookup_insert_eq.
    + intros ->. simpl. split; [reflexivity|].
      intros Hlen. by apply list_lookup_insert_eq.
Qed.

Lemma C9_request_parameter_value_change_witness :
  ((4 <= 7)%nat
   /\ fst (requestParameterValueChange full_build 7
             (F32.of_Z 1) sample_state) = false
   /\ fPlugin (snd (requestParameterValueChange full_build 7
                      (F32.of_Z 1) sample_state)) = fPlugin sample_state)
  /\ ((2 < 4)%nat
      /\ fst (requestParameterValueChange full_build 2
                (F32.of_Z 1) sample_state) = true).
Proof.
  pose proof (C9_request_parameter_value_change full_build 7
                (F32.of_Z 1) sample_state) as [H7 _].
  pose proof (C9_request_parameter_value_change full_build 2
                (F32.of_Z 1) sample_state) as [_ H2].
  assert (A : (4 <= 7)%nat) by lia.
  assert (B : (2 < 4)%nat) by lia.
  split.
  - destruct (H7 A) as (Hr & Hp & _). auto.
  - destruct (H2 B) as (Hr & _). auto.
Defined.

(** ** Notifications *)

Lemma notified_values_app (i : nat) (l1 l2 : list Call) :
  notified_values i (l1 ++ l2) = notified_values i l1 ++ notified_values i l2.
Proof. unfold notified_values. apply flat_map_app. Qed.

(** A loop that notifies parameter [j] only in iteration [j] notifies
    parameter [i] what iteration [i] notifies. *)
Lemma notified_values_loop (g : nat -> list Call) (i n : nat) :
  (forall j : nat, j <> i -> notified_values i (g j) = []) ->
  notified_values i (flat_map g (seq 0 n))
  = if (i <? n)%nat then notified_values i (g i) else [].
Proof.
  intros Hg. induction n as [|n IH]; [reflexivity|].
  rewrite seq_S, flat_map_app, notified_values_app, IH. simpl. rewrite app_nil_r.
  rewrite ltb_succ_r. destruct (decide (i = n)) as [->|Hne].
  - by rewrite Nat.ltb_irrefl, Nat.eqb_refl.
  - replace (i =? n)%nat with false by (symmetry; by apply Nat.eqb_neq).
    rewrite (Hg n) by done. by rewrite orb_false_r, app_nil_r.
Qed.

(** ** The constructor *)

Section Construct.
Context {ext : Externals} (cfg : BuildConfig).

Lemma construct_loop (st : PluginJack) (n : nat) :
  DISTRHO_PLUGIN_HAS_UI cfg = true ->
  foldl (construct_parameter cfg) st (seq 0 n)
  = {| fPlugin := fPlugin st;
       fTimePosition := fTimePosition st;
       fLastOutputValues := fLastOutputValues st;
       fParametersChanged := fParametersChanged st;
       fProgramChanged := fProgramChanged st;
       fNotesRingBuffer := fNotesRingBuffer st;
       calls := calls st ++ construct_calls (fPlugin st) n |}.
Proof.
  intros Hui. induction n as [|n IH].
  - simpl. unfold construct_calls. simpl. rewrite app_nil_r. by destruct st.
  - rewrite seq_S, foldl_app, IH. simpl.
    unfold construct_calls. rewrite seq_S, flat_map_app. simpl. rewrite app_nil_r.
    unfold construct_parameter. rewrite Hui. cbn [fPlugin andb].
    destruct (PluginExporter.isParameterOutput (fPlugin st) n); simpl.
    + by rewrite app_nil_r.
    + unfold call. simpl. by rewrite <- app_assoc.
Qed.

(** The loop of the constructor in any build: without a UI it sends
    nothing. *)
Lemma construct_loop_any (st : PluginJack) (n : nat) :
  foldl (construct_parameter cfg) st (seq 0 n)
  = {| fPlugin := fPlugin st;
       fTimePosition := fTimePosition st;
       fLastOutputValues := fLastOutputValues st;
       fParametersChanged := fParametersChanged st;
       fProgramChanged := fProgramChanged st;
       fNotesRingBuffer := fNotesRingBuffer st;
       calls := calls st ++ (if DISTRHO_PLUGIN_HAS_UI cfg
                             then construct_calls (fPlugin st) n else []) |}.
Proof.
  destruct (DISTRHO_PLUGIN_HAS_UI cfg) eqn:Hui; [by apply construct_loop|].
  rewrite app_nil_r.
  assert (H : foldl (construct_parameter cfg) st (seq 0 n) = st).
  { apply (foldl_preserves (fun s => s = st)); [reflexivity|].
    intros s x ->. unfold construct_parameter. by rewrite Hui. }
  rewrite H. by destruct st.
Qed.

End Construct.

(** The bridge the constructor leaves, field by field. *)
Lemma construct_spec {ext : Externals} (cfg : BuildConfig)
    (plugin : PluginExporter.t) (ringCapacity : nat) :
  let ui := DISTRHO_PLUGIN_HAS_UI cfg in
  let programs :=
    DISTRHO_PLUGIN_WANT_PROGRAMS cfg && (0 <? PluginExporter.getProgramCount plugin) in
  let count := PluginExporter.getParameterCount plugin in
  let loaded := if programs then PluginExporter.loadProgram plugin 0 else plugin in
  construct cfg plugin ringCapacity
  = {| fPlugin := loaded;
       fTimePosition := TimePosition.initial;
       fLastOutputValues := replicate count F32.zero;
       fParametersChanged := if ui then replicate count false else [];
       fProgramChanged := if DISTRHO_PLUGIN_WANT_PROGRAMS cfg && ui then -1 else 0;
       fNotesRingBuffer := RingBuffer.empty ringCapacity;
       calls := (if programs
                 then Plugin_loadProgram 0 :: (if ui then [UI_programLoaded 0] else [])
                 else [])
                ++ (if ui then construct_calls loaded count else []) |}.
Proof.
  cbv zeta. unfold construct. cbn [fPlugin].
  assert (Hcount : PluginExporter.getParameterCount (PluginExporter.loadProgram plugin 0)
                   = PluginExporter.getParameterCount plugin) by reflexivity.
  destruct (DISTRHO_PLUGIN_HAS_UI cfg) eqn:Hui;
    destruct (DISTRHO_PLUGIN_WANT_PROGRAMS cfg) eqn:Hprog;
    destruct (0 <? PluginExporter.getProgramCount plugin) eqn:Hpc;
    cbn [andb fPlugin plugin_loadProgram call set_fPlugin set_fProgramChanged
         set_fLastOutputValues set_fParametersChanged calls];
    rewrite ?Hcount;
    destruct (0 <? PluginExporter.getParameterCount plugin)%nat eqn:Hc.
  all: try (rewrite construct_loop_any, Hui;
            cbn [fPlugin fLastOutputValues fParametersChanged fProgramChanged calls
                 set_fLastOutputValues set_fParametersChanged set_fProgramChanged
                 fNotesRingBuffer fTimePosition set_fPlugin call plugin_loadProgram app];
            rewrite ?app_nil_r; reflexivity).
  all: apply Nat.ltb_ge in Hc;
       assert (E : PluginExporter.getParameterCount plugin = 0%nat) by lia;
       rewrite E; reflexivity.
Qed.

(** C10: the state the constructor leaves before it registers the
    callbacks.  In a build with programs, when the plugin has a program,
    program 0 is loaded into the DSP core and, with a UI, [programLoaded(0)]
    is sent to the UI; no program change is left pending.  Then, in every
    build with a UI, with or without programs, the UI is sent the current
    value of every input parameter, once and in index order, and of no
    output parameter, and every flag of [fParametersChanged] is clear.  In
    every build every cached output value is zero.  Nothing else is
    called. *)
Theorem C10_constructor_synchronises_ui {ext : Externals} (cfg : BuildConfig)
    (plugin : PluginExporter.t) (ringCapacity : nat) :
  let st := construct cfg plugin ringCapacity in
  let ui := DISTRHO_PLUGIN_HAS_UI cfg in
  let programs :=
    DISTRHO_PLUGIN_WANT_PROGRAMS cfg && (0 <? PluginExporter.getProgramCount plugin) in
  let count := PluginExporter.getParameterCount plugin in
  let loaded := if programs then PluginExporter.loadProgram plugin 0 else plugin in
  fPlugin st = loaded
  /\ calls st
     = (if programs
        then Plugin_loadProgram 0 :: (if ui then [UI_programLoaded 0] else [])
        else [])
       ++ (if ui then construct_calls loaded count else [])
  /\ (ui = true ->
      forall i : nat, (i < count)%nat ->
        notified_values i (calls st)
        = if PluginExporter.isParameterOutput plugin i then []
          else [PluginExporter.getParameterValue (fPlugin st) i])
  /\ (ui = true -> fParametersChanged st = replicate count false)
  /\ fLastOutputValues st = replicate count F32.zero
  /\ (ui = true -> DISTRHO_PLUGIN_WANT_PROGRAMS cfg = true -> fProgramChanged st = -1).
Proof.
  cbv zeta. rewrite construct_spec.
  cbn [fPlugin calls fParametersChanged fLastOutputValues fProgramChanged].
  set (programs := DISTRHO_PLUGIN_WANT_PROGRAMS cfg
                   && (0 <? PluginExporter.getProgramCount plugin)).
  set (loaded := if programs then PluginExporter.loadProgram plugin 0 else plugin).
  split; [reflexivity|]. split; [reflexivity|]. split; [|split; [|split]].
  - intros Hui i Hi. rewrite Hui, notified_values_app.
    assert (Hfirst : notified_values i
                       (if programs then [Plugin_loadProgram 0; UI_programLoaded 0]
                        else []) = []) by (by destruct programs).
    rewrite Hfirst. cbn [app].
    assert (Hpar : PluginExporter.parameters loaded = PluginExporter.parameters plugin)
      by (unfold loaded; by destruct programs).
    unfold construct_calls. rewrite notified_values_loop.
    + replace (i <? PluginExporter.getParameterCount plugin)%nat with true
        by (symmetry; by apply Nat.ltb_lt).
      unfold PluginExporter.isParameterOutput. rewrite Hpar.
      destruct (from_option Param.isOutput false _); [reflexivity|].
      simpl. by rewrite Nat.eqb_refl.
    + intros j Hj. destruct (PluginExporter.isParameterOutput loaded j); [reflexivity|].
      simpl. by replace (j =? i)%nat with false by (symmetry; by apply Nat.eqb_neq).
  - intros Hui. by rewrite Hui.
  - reflexivity.
  - intros Hui Hprog. by rewrite Hui, Hprog.
Qed.

Lemma C10_constructor_synchronises_ui_witness :
  notified_values 2 (calls sample_state) = [F32.of_Z 5]
  /\ notified_values 1 (calls sample_state) = []
  /\ fParametersChanged sample_state = [false; false; false; false]
  /\ fProgramChanged sample_state = -1
  /\ notified_values 2 (calls unprogrammed_state) = [F32.of_Z 5]
  /\ fParametersChanged unprogrammed_state = [false; false; false; false].
Proof.
  destruct (@C10_constructor_synchronises_ui reference_externals full_build
              sample_plugin 4096) as (_ & _ & Hn & Hf & _ & Hp).
  destruct (@C10_constructor_synchronises_ui reference_externals plain_ui_build
              sample_plugin 4096) as (_ & _ & Hn' & Hf' & _).
  split; [|split; [|split; [|split; [|split]]]].
  - unfold sample_state.
    rewrite (Hn eq_refl 2%nat); [vm_compute; reflexivity | vm_compute; lia].
  - unfold sample_state.
    rewrite (Hn eq_refl 1%nat); [vm_compute; reflexivity | vm_compute; lia].
  - exact (Hf eq_refl).
  - exact (Hp eq_refl eq_refl).
  - unfold unprogrammed_state.
    rewrite (Hn' eq_refl 2%nat); [vm_compute; reflexivity | vm_compute; lia].
  - exact (Hf' eq_refl).
Defined.

(** ** The idle loop *)

(** One more iteration of a loop that overwrites slot [n] of an array:
    the pointwise description of the array extends from [n] to [S n]. *)
Lemma pointwise_insert {A : Type} (l0 l : list A) (n : nat) (c : nat -> bool)
    (f : nat -> A) :
  (forall i : nat,
      l !! i = if (i <? n)%nat && c i then (fun _ => f i) <$> l0 !! i else l0 !! i) ->
  c n = true ->
  forall i : nat,
    <[n := f n]> l !! i
    = if (i <? S n)%nat && c i then (fun _ => f i) <$> l0 !! i else l0 !! i.
Proof.
  intros Hl Hc i. rewrite ltb_succ_r. destruct (decide (i = n)) as [->|Hne].
  - rewrite Nat.eqb_refl, orb_true_r, Hc. simpl.
    specialize (Hl n). rewrite Nat.ltb_irrefl in Hl. simpl in Hl. rewrite <- Hl.
    destruct (l !! n) as [v|] eqn:Hv; simpl.
    + apply list_lookup_insert_eq. by eapply lookup_lt_Some.
    + rewrite list_insert_ge; [exact Hv|]. by apply lookup_ge_None.
  - rewrite list_lookup_insert_ne by done. rewrite Hl.
    replace (i =? n)%nat with false by (symmetry; by apply Nat.eqb_neq).
    by rewrite orb_false_r.
Qed.

Lemma pointwise_skip {A : Type} (l0 l : list A) (n : nat) (c : nat -> bool)
    (f : nat -> A) :
  (forall i : nat,
      l !! i = if (i <? n)%nat && c i then (fun _ => f i) <$> l0 !! i else l0 !! i) ->
  c n = false \/ (fun _ => f n) <$> l0 !! n = l0 !! n ->
  forall i : nat,
    l !! i
    = if (i <? S n)%nat && c i then (fun _ => f i) <$> l0 !! i else l0 !! i.
Proof.
  intros Hl Hc i. rewrite Hl, ltb_succ_r. destruct (decide (i = n)) as [->|Hne].
  - rewrite Nat.ltb_irrefl, Nat.eqb_refl. simpl.
    destruct Hc as [->| ->]; [reflexivity | by destruct (c n)].
  - replace (i =? n)%nat with false by (symmetry; by apply Nat.eqb_neq).
    by rewrite orb_false_r.
Qed.

Section Idle.
Context {ext : Externals}.

Lemma idle_loop (st : PluginJack) (n : nat) :
  exists (lo : list float) (pc : list bool),
    foldl idle_parameter st (seq 0 n)
    = {| fPlugin := fPlugin st;
         fTimePosition := fTimePosition st;
         fLastOutputValues := lo;
         fParametersChanged := pc;
         fProgramChanged := fProgramChanged st;
         fNotesRingBuffer := fNotesRingBuffer st;
         calls := calls st ++ idle_calls st n |}
    /\ (forall i : nat,
          lo !! i =
          if (i <? n)%nat && refreshed st i
          then (fun _ => PluginExporter.getParameterValue (fPlugin st) i)
                 <$> fLastOutputValues st !! i
          else fLastOutputValues st !! i)
    /\ (forall i : nat,
          pc !! i =
          if (i <? n)%nat && negb (PluginExporter.isParameterOutput (fPlugin st) i)
          then (fun _ => false) <$> fParametersChanged st !! i
          else fParametersChanged st !! i).
Proof.
  induction n as [|n (lo & pc & Hs & Hlo & Hpc)].
  - exists (fLastOutputValues st), (fParametersChanged st). split; [|split].
    + simpl. unfold idle_calls. simpl. rewrite app_nil_r. by destruct st.
    + intros i. reflexivity.
    + intros i. reflexivity.
  - rewrite seq_S, foldl_app, Hs. simpl.
    unfold idle_calls. rewrite seq_S, flat_map_app. simpl. rewrite app_nil_r.
    fold (idle_calls st n).
    assert (Hlon : lo !! n = fLastOutputValues st !! n).
    { rewrite Hlo. by rewrite Nat.ltb_irrefl. }
    assert (Hpcn : pc !! n = fParametersChanged st !! n).
    { rewrite Hpc. by rewrite Nat.ltb_irrefl. }
    unfold idle_parameter, idle_note. cbn [fPlugin fLastOutputValues fParametersChanged].
    rewrite Hlon, Hpcn.
    destruct (PluginExporter.isParameterOutput (fPlugin st) n) eqn:Hout.
    + destruct (d_isEqual _ _) eqn:Heq.
      * exists lo, pc. split; [by rewrite app_nil_r|]. split.
        -- apply pointwise_skip; [exact Hlo|]. left. unfold refreshed.
           by rewrite Hout, Heq.
        -- apply (pointwise_skip _ _ _ (fun i => negb
                   (PluginExporter.isParameterOutput (fPlugin st) i))
                   (fun _ => false)); [exact Hpc|].
           left. by rewrite Hout.
      * eexists _, pc. split.
        { unfold call, set_fLastOutputValues. simpl. rewrite <- app_assoc.
          reflexivity. }
        split.
        -- apply (pointwise_insert _ _ _ (refreshed st)
                   (fun i => PluginExporter.getParameterValue (fPlugin st) i));
             [exact Hlo|].
           unfold refreshed. by rewrite Hout, Heq.
        -- apply (pointwise_skip _ _ _ (fun i => negb
                   (PluginExporter.isParameterOutput (fPlugin st) i))
                   (fun _ => false)); [exact Hpc|].
           left. by rewrite Hout.
    + destruct (default false (fParametersChanged st !! n)) eqn:Hflag.
      * eexists lo, _. split.
        { unfold call, set_fParametersChanged. simpl. rewrite <- app_assoc.
          reflexivity. }
        split.
        -- apply pointwise_skip; [exact Hlo|]. left. unfold refreshed.
           by rewrite Hout.
        -- apply (pointwise_insert _ _ _ (fun i => negb
                   (PluginExporter.isParameterOutput (fPlugin st) i))
                   (fun _ => false)); [exact Hpc|].
           by rewrite Hout.
      * exists lo, pc. split; [by rewrite app_nil_r|]. split.
        -- apply pointwise_skip; [exact Hlo|]. left. unfold refreshed.
           by rewrite Hout.
        -- apply (pointwise_skip _ _ _ (fun i => negb
                   (PluginExporter.isParameterOutput (fPlugin st) i))
                   (fun _ => false)); [exact Hpc|].
           right. destruct (fParametersChanged st !! n) as [[]|]; simpl in *;
             congruence.
Qed.

Lemma notified_values_idle_calls (st : PluginJack) (i n : nat) :
  notified_values i (idle_calls st n)
  = if (i <? n)%nat then notified_values i (idle_note st i) else [].
Proof.
  unfold idle_calls. apply notified_values_loop.
  intros j Hj. unfold idle_note.
  assert (E : (j =? i)%nat = false) by (by apply Nat.eqb_neq).
  repeat case_match; simpl; rewrite ?E; reflexivity.
Qed.

(** The idle loop notifies in ascending index order, and only parameters
    below the count. *)
Lemma notified_indices_idle_calls (st : PluginJack) (n : nat) :
  StronglySorted lt (notified_indices (idle_calls st n))
  /\ Forall (fun j => (j < n)%nat) (notified_indices (idle_calls st n)).
Proof.
  induction n as [|n [IHs IHb]].
  - split; constructor.
  - unfold idle_calls, notified_indices in *.
    rewrite seq_S, !flat_map_app. simpl. rewrite !app_nil_r.
    assert (Hn : flat_map (fun c => match c with
                                    | UI_parameterChanged j _ => [j]
                                    | _ => []
                                    end) (idle_note st n) = []
                 \/ flat_map (fun c => match c with
                                       | UI_parameterChanged j _ => [j]
                                       | _ => []
                                       end) (idle_note st n) = [n]).
    { unfold idle_note. repeat case_match; simpl; auto. }
    split.
    + apply StronglySorted_app_2; [|exact IHs|].
      * intros x1 x2 H1 H2. rewrite Forall_forall in IHb. specialize (IHb _ H1).
        destruct Hn as [Hn | Hn]; rewrite Hn in H2.
        -- by apply elem_of_nil in H2.
        -- apply list_elem_of_singleton in H2. by subst.
      * destruct Hn as [-> | ->]; repeat constructor.
    + apply Forall_app. split.
      * eapply Forall_impl; [exact IHb|]. simpl. intros; lia.
      * destruct Hn as [-> | ->]; repeat constructor.
Qed.

End Idle.

Section IdleCallback.
Context {ext : Externals} (cfg : BuildConfig).

(** [idleCallback] without a close signal: an optional program
    notification, the notifications of the loop, and [exec_idle]. *)
Lemma idleCallback_spec (st : PluginJack) :
  exists (lo : list float) (pc : list bool) (pre : list Call),
    fPlugin (idleCallback cfg false st) = fPlugin st
    /\ fLastOutputValues (idleCallback cfg false st) = lo
    /\ fParametersChanged (idleCallback cfg false st) = pc
    /\ new_calls st (idleCallback cfg false st)
       = pre ++ idle_calls st (PluginExporter.getParameterCount (fPlugin st))
             ++ [UI_exec_idle]
    /\ (pre = [] \/ exists p, pre = [UI_programLoaded p])
    /\ (forall i : nat,
          lo !! i =
          if (i <? PluginExporter.getParameterCount (fPlugin st))%nat
             && (PluginExporter.isParameterOutput (fPlugin st) i
                 && negb (d_isEqual (default F32.zero (fLastOutputValues st !! i))
                            (PluginExporter.getParameterValue (fPlugin st) i)))
          then (fun _ => PluginExporter.getParameterValue (fPlugin st) i)
                 <$> fLastOutputValues st !! i
          else fLastOutputValues st !! i)
    /\ (forall i : nat,
          pc !! i =
          if (i <? PluginExporter.getParameterCount (fPlugin st))%nat
             && negb (PluginExporter.isParameterOutput (fPlugin st) i)
          then (fun _ => false) <$> fParametersChanged st !! i
          else fParametersChanged st !! i).
Proof.
  unfold idleCallback, idle_parameters.
  set (st1 := if DISTRHO_PLUGIN_WANT_PROGRAMS cfg && (0 <=? fProgramChanged st)
              then set_fProgramChanged (-1)
                     (call (UI_programLoaded (fProgramChanged st)) st)
              else st).
  assert (H1 : fPlugin st1 = fPlugin st
               /\ fLastOutputValues st1 = fLastOutputValues st
               /\ fParametersChanged st1 = fParametersChanged st
               /\ exists pre, calls st1 = calls st ++ pre
                  /\ (pre = [] \/ exists p, pre = [UI_programLoaded p])).
  { unfold st1. destruct (DISTRHO_PLUGIN_WANT_PROGRAMS cfg && _); simpl.
    - repeat split. eexists. split; [reflexivity|]. right. eauto.
    - repeat split. exists []. rewrite app_nil_r. auto. }
  destruct H1 as (Hp & Hlo1 & Hpc1 & pre & Hcalls & Hpre).
  destruct (idle_loop st1 (PluginExporter.getParameterCount (fPlugin st1)))
    as (lo & pc & Hs & Hlo & Hpc).
  rewrite Hs. exists lo, pc, pre. cbn [fPlugin fLastOutputValues fParametersChanged].
  assert (Hcalls' : idle_calls st1 (PluginExporter.getParameterCount (fPlugin st1))
                    = idle_calls st (PluginExporter.getParameterCount (fPlugin st))).
  { unfold idle_calls, idle_note. by rewrite Hp, Hlo1, Hpc1. }
  split; [exact Hp|]. split; [reflexivity|]. split; [reflexivity|]. split.
  { apply new_calls_app. simpl. rewrite Hcalls, Hcalls'. by rewrite <- !app_assoc. }
  split; [exact Hpre|]. split.
  - intros i. rewrite Hlo. unfold refreshed. rewrite Hp, Hlo1. reflexivity.
  - intros i. rewrite Hpc, Hp, Hpc1. reflexivity.
Qed.

Lemma notified_values_idleCallback (st : PluginJack) (i : nat) :
  (i < PluginExporter.getParameterCount (fPlugin st))%nat ->
  notified_values i (new_calls st (idleCallback cfg false st))
  = notified_values i (idle_note st i).
Proof.
  intros Hi. destruct (idleCallback_spec st) as (lo & pc & pre & _ & _ & _ & -> & Hpre & _).
  rewrite !notified_values_app, notified_values_idle_calls.
  replace (i <? PluginExporter.getParameterCount (fPlugin st))%nat with true
    by (symmetry; by apply Nat.ltb_lt).
  destruct Hpre as [-> | [p ->]]; simpl; by rewrite app_nil_r.
Qed.

(** What one idle callback does for an input parameter. *)
Lemma idleCallback_input (st : PluginJack) (i : nat) (flag : bool) :
  (i < PluginExporter.getParameterCount (fPlugin st))%nat ->
  PluginExporter.isParameterOutput (fPlugin st) i = false ->
  fParametersChanged st !! i = Some flag ->
  notified_values i (new_calls st (idleCallback cfg false st))
  = (if flag then [PluginExporter.getParameterValue (fPlugin st) i] else [])
  /\ fParametersChanged (idleCallback cfg false st) !! i = Some false.
Proof.
  intros Hi Hout Hflag. split.
  - rewrite notified_values_idleCallback by done.
    unfold idle_note. rewrite Hout, Hflag. simpl.
    destruct flag; simpl; by rewrite ?Nat.eqb_refl.
  - destruct (idleCallback_spec st) as (lo & pc & pre & _ & _ & -> & _ & _ & _ & Hpc).
    rewrite Hpc, Hout, Hflag.
    replace (i <? PluginExporter.getParameterCount (fPlugin st))%nat with true
      by (symmetry; by apply Nat.ltb_lt).
    reflexivity.
Qed.

End IdleCallback.

(** C6: one run of the idle callback (no close signal pending).  For an
    input parameter whose flag is set, the callback notifies the UI once,
    with the parameter's current value, and clears the flag; the callback
    after it notifies nothing for that parameter; with a clear flag nothing
    is notified.  For an output parameter the UI is notified, with the
    current value, exactly when that value is reported different from the
    cached one, and the cache then holds the current value.  The
    notifications of one callback are in ascending index order. *)
Theorem C6_idle_poll_notifications {ext : Externals} (cfg : BuildConfig)
    (st : PluginJack) :
  let st' := idleCallback cfg false st in
  let count := PluginExporter.getParameterCount (fPlugin st) in
  let value i := PluginExporter.getParameterValue (fPlugin st) i in
  (forall i : nat,
      (i < count)%nat ->
      PluginExporter.isParameterOutput (fPlugin st) i = false ->
      (fParametersChanged st !! i = Some true ->
         notified_values i (new_calls st st') = [value i]
         /\ fParametersChanged st' !! i = Some false
         /\ notified_values i (new_calls st' (idleCallback cfg false st')) = [])
      /\ (fParametersChanged st !! i = Some false ->
         notified_values i (new_calls st st') = []
         /\ fParametersChanged st' !! i = Some false))
  /\ (forall (i : nat) (cached : float),
        (i < count)%nat ->
        PluginExporter.isParameterOutput (fPlugin st) i = true ->
        fLastOutputValues st !! i = Some cached ->
        (d_isEqual cached (value i) = true ->
           notified_values i (new_calls st st') = []
           /\ fLastOutputValues st' !! i = Some cached)
        /\ (d_isEqual cached (value i) = false ->
           notified_values i (new_calls st st') = [value i]
           /\ fLastOutputValues st' !! i = Some (value i)))
  /\ StronglySorted lt (notified_indices (new_calls st st')).
Proof.
  cbv zeta. split; [|split].
  - intros i Hi Hout. split; intros Hflag.
    + destruct (idleCallback_input cfg st i true Hi Hout Hflag) as [Hn Hc].
      split; [exact Hn|]. split; [exact Hc|].
      destruct (idleCallback_spec cfg st) as (lo & pc & pre & Hp & _).
      apply (idleCallback_input cfg (idleCallback cfg false st) i false).
      * by rewrite Hp.
      * by rewrite Hp.
      * exact Hc.
    + apply (idleCallback_input cfg st i false Hi Hout Hflag).
  - intros i cached Hi Hout Hcached.
    destruct (idleCallback_spec cfg st) as (lo & pc & pre & _ & Hlo' & _ & _ & _ & Hlo & _).
    rewrite Hlo'. rewrite notified_values_idleCallback by done.
    unfold idle_note. rewrite Hout, Hlo, Hout, Hcached.
    replace (i <? PluginExporter.getParameterCount (fPlugin st))%nat with true
      by (symmetry; by apply Nat.ltb_lt).
    simpl. split; intros ->; simpl; [done|]. by rewrite Nat.eqb_refl.
  - destruct (idleCallback_spec cfg st) as (lo & pc & pre & _ & _ & _ & -> & Hpre & _).
    unfold notified_indices. rewrite !flat_map_app. simpl. rewrite app_nil_r.
    destruct (notified_indices_idle_calls st
                (PluginExporter.getParameterCount (fPlugin st))) as [Hs _].
    destruct Hpre as [-> | [p ->]]; simpl; exact Hs.
Qed.

Lemma C6_idle_poll_notifications_witness :
  ((2 < PluginExporter.getParameterCount (fPlugin after_cc_cycle))%nat
   /\ PluginExporter.isParameterOutput (fPlugin after_cc_cycle) 2 = false
   /\ fParametersChanged after_cc_cycle !! 2%nat = Some true
   /\ notified_values 2
        (new_calls after_cc_cycle
           (@idleCallback reference_externals full_build false after_cc_cycle))
      = [PluginExporter.getParameterValue (fPlugin after_cc_cycle) 2])
  /\ ((1 < PluginExporter.getParameterCount (fPlugin after_cc_cycle))%nat
      /\ PluginExporter.isParameterOutput (fPlugin after_cc_cycle) 1 = true
      /\ fLastOutputValues after_cc_cycle !! 1%nat = Some F32.zero
      /\ approx_equal F32.zero
           (PluginExporter.getParameterValue (fPlugin after_cc_cycle) 1) = false
      /\ fLastOutputValues
           (@idleCallback reference_externals full_build false after_cc_cycle)
           !! 1%nat
         = Some (PluginExporter.getParameterValue (fPlugin after_cc_cycle) 1)).
Proof.
  pose proof (@C6_idle_poll_notifications reference_externals full_build
                after_cc_cycle) as (Hin & Hout & _).
  assert (A1 : (2 < PluginExporter.getParameterCount (fPlugin after_cc_cycle))%nat)
    by (vm_compute; lia).
  assert (A2 : PluginExporter.isParameterOutput (fPlugin after_cc_cycle) 2 = false)
    by (vm_compute; reflexivity).
  assert (A3 : fParametersChanged after_cc_cycle !! 2%nat = Some true)
    by (vm_compute; reflexivity).
  assert (B1 : (1 < PluginExporter.getParameterCount (fPlugin after_cc_cycle))%nat)
    by (vm_compute; lia).
  assert (B2 : PluginExporter.isParameterOutput (fPlugin after_cc_cycle) 1 = true)
    by (vm_compute; reflexivity).
  assert (B3 : fLastOutputValues after_cc_cycle !! 1%nat = Some F32.zero)
    by (vm_compute; reflexivity).
  assert (B4 : approx_equal F32.zero
                 (PluginExporter.getParameterValue (fPlugin after_cc_cycle) 1) = false)
    by (vm_compute; reflexivity).
  split.
  - destruct (Hin 2%nat A1 A2) as [Hset _]. destruct (Hset A3) as (Hn & _).
    auto.
  - destruct (Hout 1%nat F32.zero B1 B2 B3) as [_ Hne].
    destruct (Hne B4) as (_ & Hc). auto.
Defined.

(** ** Control changes *)

Section ControlChange.
Context {ext : Externals} (cfg : BuildConfig).

Lemma control_change_spec (control value : Z) (remaining : nat) :
  forall (j : nat) (st : PluginJack),
    control_change cfg control value remaining j st
    = match first_cc_match (fPlugin st) control remaining j with
      | Some k => cc_write cfg value k st
      | None => st
      end.
Proof.
  induction remaining as [|n IH]; intros j st; [reflexivity|].
  cbn [control_change first_cc_match]. unfold cc_match.
  destruct (PluginExporter.isParameterOutput (fPlugin st) j); simpl; [apply IH|].
  destruct (PluginExporter.getParameterMidiCC (fPlugin st) j =? control); simpl;
    [reflexivity | apply IH].
Qed.

Lemma first_cc_match_Some (p : PluginExporter.t) (control : Z) (remaining : nat) :
  forall j k : nat,
    (j <= k < j + remaining)%nat ->
    cc_match p control k = true ->
    (forall i : nat, (j <= i < k)%nat -> cc_match p control i = false) ->
    first_cc_match p control remaining j = Some k.
Proof.
  induction remaining as [|n IH]; intros j k Hk Hm Hfirst; [lia|].
  simpl. destruct (decide (j = k)) as [->|Hne].
  - by rewrite Hm.
  - rewrite (Hfirst j) by lia. apply IH; [lia | exact Hm |].
    intros i Hi. apply Hfirst. lia.
Qed.

Lemma first_cc_match_None (p : PluginExporter.t) (control : Z) (remaining : nat) :
  forall j : nat,
    (forall i : nat, (j <= i < j + remaining)%nat -> cc_match p control i = false) ->
    first_cc_match p control remaining j = None.
Proof.
  induction remaining as [|n IH]; intros j Hnone; [reflexivity|].
  simpl. rewrite (Hnone j) by lia. apply IH. intros i Hi. apply Hnone. lia.
Qed.

End ControlChange.

(** What the interpretation of one control change on channel 1 does to the
    bridge it finds. *)
Lemma interpret_control_change {ext : Externals} (cfg : BuildConfig)
    (jevent : jack_midi_event_t.t) (st : PluginJack) :
  is_control_change jevent = true ->
  let control := byte_at (jack_midi_event_t.buffer jevent) 1 in
  let value := byte_at (jack_midi_event_t.buffer jevent) 2 in
  let p := fPlugin st in
  let count := PluginExporter.getParameterCount p in
  let st' := interpret_event cfg jevent st in
  (forall j : nat,
      (j < count)%nat ->
      cc_match p control j = true ->
      (forall i : nat, (i < j)%nat -> cc_match p control i = false) ->
      let fvalue :=
        getUnnormalizedValue (PluginExporter.getParameterRanges p j)
          (F32.div (F32.of_Z value) (F32.of_Z 127)) in
      calls st' = calls st ++ [Plugin_setParameterValue j fvalue]
      /\ PluginExporter.values (fPlugin st') = <[j := fvalue]> (PluginExporter.values p)
      /\ (DISTRHO_PLUGIN_HAS_UI cfg = true ->
          fParametersChanged st' = <[j := true]> (fParametersChanged st))
      /\ (DISTRHO_PLUGIN_HAS_UI cfg = false ->
          fParametersChanged st' = fParametersChanged st))
  /\ ((forall i : nat, (i < count)%nat -> cc_match p control i = false) -> st' = st).
Proof.
  intros Hcc. cbv zeta. unfold is_control_change in Hcc.
  unfold interpret_event. rewrite Hcc, control_change_spec.
  split.
  - intros j Hj Hm Hfirst.
    rewrite (first_cc_match_Some _ _ _ 0 j); [|lia|exact Hm|intros; apply Hfirst; lia].
    unfold cc_write, cc_value.
    destruct (DISTRHO_PLUGIN_HAS_UI cfg) eqn:Hui; cbn [fPlugin fParametersChanged
      plugin_setParameterValue call set_fPlugin set_fParametersChanged calls
      PluginExporter.setParameterValue PluginExporter.with_values PluginExporter.values].
    + split; [reflexivity|]. split; [reflexivity|]. split; [reflexivity | discriminate].
    + split; [reflexivity|]. split; [reflexivity|]. split; [discriminate | reflexivity].
  - intros Hnone. rewrite first_cc_match_None; [reflexivity|].
    intros i Hi. apply Hnone. lia.
Qed.

(** ** Gathering the MIDI events of a cycle *)

Lemma records_length (bytes : list Z) :
  (3 * length (records bytes) <= length bytes)%nat.
Proof.
  remember (length bytes) as n eqn:Hn. revert bytes Hn.
  induction n as [n IH] using lt_wf_ind. intros bytes ->.
  destruct bytes as [|b0 [|b1 [|b2 rest]]]; simpl; try lia.
  specialize (IH (length rest) ltac:(simpl; lia) rest eq_refl). lia.
Qed.

Lemma records_drop (bytes : list Z) :
  forall k : nat, records (drop (3 * k) bytes) = drop k (records bytes).
Proof.
  remember (length bytes) as n eqn:Hn. revert bytes Hn.
  induction n as [n IH] using lt_wf_ind. intros bytes -> k.
  destruct k as [|k]; [reflexivity|].
  replace (3 * S k)%nat with (S (S (S (3 * k)))) by lia.
  destruct bytes as [|b0 [|b1 [|b2 rest]]]; simpl; try reflexivity;
    rewrite ?drop_nil; try reflexivity.
  apply (IH (length rest)); [simpl; lia | reflexivity].
Qed.

Section Gather.
Context {ext : Externals} (cfg : BuildConfig).

(** The [while] loop never runs out of fuel or of slots: from fewer than
    512 events and with fuel for the free slots, it takes the queued notes
    that fit. *)
Lemma drain_notes_spec (fuel : nat) :
  forall (rb : RingBuffer.t) (evs : list MidiEvent.t),
    (length evs < 512)%nat ->
    (512 <= fuel + length evs)%nat ->
    let k := Nat.min (512 - length evs)
                     (length (records (RingBuffer.readable rb))) in
    drain_notes fuel rb evs
    = Ok (ring_after_read (3 * k) rb,
          evs ++ map note_event (take k (records (RingBuffer.readable rb)))).
Proof.
  induction fuel as [|fuel IH]; intros rb evs Hlen Hfuel; [lia|].
  cbv zeta. cbn [drain_notes].
  unfold RingBuffer.isDataAvailableForReading, RingBuffer.readCustomData.
  destruct rb as [cap readable pending inv]. cbn [RingBuffer.readable].
  destruct readable as [|b0 [|b1 [|b2 rest]]].
  - simpl. rewrite Nat.min_0_r. simpl. by rewrite app_nil_r.
  - simpl. rewrite Nat.min_0_r. simpl. by rewrite app_nil_r.
  - simpl. rewrite Nat.min_0_r. simpl. by rewrite app_nil_r.
  - cbn [length Nat.ltb Nat.leb negb take drop records].
    unfold store_midiEvent.
    replace (length evs <? 512)%nat with true by (symmetry; by apply Nat.ltb_lt).
    cbn [bind]. rewrite length_app. cbn [length].
    destruct (length evs + 1 =? 512)%nat eqn:Hfull.
    + apply Nat.eqb_eq in Hfull.
      replace (Nat.min (512 - length evs) (S (length (records rest)))) with 1%nat by lia.
      reflexivity.
    + apply Nat.eqb_neq in Hfull.
      rewrite IH; [|rewrite length_app; simpl; lia ..].
      rewrite length_app. cbn [length RingBuffer.readable].
      replace (Nat.min (512 - length evs) (S (length (records rest))))
        with (S (Nat.min (512 - (length evs + 1)) (length (records rest)))) by lia.
      set (k := Nat.min (512 - (length evs + 1)) (length (records rest))).
      replace (3 * S k)%nat with (S (S (S (3 * k)))) by lia.
      unfold ring_after_read, note_event. simpl. by rewrite <- app_assoc.
Qed.

Lemma gather_notes_spec (st : PluginJack) :
  gather_notes cfg st
  = Ok (ui_events cfg st,
        if DISTRHO_PLUGIN_WANT_MIDI_INPUT cfg && DISTRHO_PLUGIN_HAS_UI cfg
        then set_fNotesRingBuffer
               (ring_after_read (3 * length (ui_events cfg st)) (fNotesRingBuffer st)) st
        else st).
Proof.
  unfold gather_notes, ui_events, queued_records.
  destruct (DISTRHO_PLUGIN_WANT_MIDI_INPUT cfg && DISTRHO_PLUGIN_HAS_UI cfg);
    [|reflexivity].
  rewrite drain_notes_spec by (cbn [length]; lia).
  cbn [bind length app]. rewrite Nat.sub_0_r, length_map, length_take.
  set (n := length (records (RingBuffer.readable (fNotesRingBuffer st)))).
  replace (take (Nat.min 512 n)
             (records (RingBuffer.readable (fNotesRingBuffer st))))
    with (take 512 (records (RingBuffer.readable (fNotesRingBuffer st)))).
  - reflexivity.
  - destruct (decide (512 <= n)%nat).
    + by rewrite Nat.min_l.
    + rewrite Nat.min_r by lia. rewrite !take_ge; [done | lia | unfold n; lia].
Qed.

Lemma ui_events_length (st : PluginJack) : (length (ui_events cfg st) <= 512)%nat.
Proof.
  unfold ui_events. destruct (_ && _); [|cbn [length]; lia].
  rewrite length_map, length_take. lia.
Qed.

(** The loop over the host events stores every fetched event while slots
    are left, and interprets each of them. *)
Lemma host_events_spec (slots : MidiInBuf) :
  forall (evs : list MidiEvent.t) (st : PluginJack),
    (length evs + length slots <= 512)%nat ->
    host_events cfg slots evs st
    = Ok (if DISTRHO_PLUGIN_WANT_MIDI_INPUT cfg
          then evs ++ map to_MidiEvent (fetched slots) else evs,
          interpret_events cfg (fetched slots) st).
Proof.
  induction slots as [|[rc jevent] slots IH]; intros evs st Hlen.
  - simpl. destruct (DISTRHO_PLUGIN_WANT_MIDI_INPUT cfg); by rewrite ?app_nil_r.
  - cbn [host_events fetched]. destruct (negb (rc =? 0)).
    + simpl. destruct (DISTRHO_PLUGIN_WANT_MIDI_INPUT cfg); by rewrite ?app_nil_r.
    + unfold host_event, store_midiEvent. simpl in Hlen.
      destruct (DISTRHO_PLUGIN_WANT_MIDI_INPUT cfg) eqn:Hmidi.
      * replace (length evs <? 512)%nat with true
          by (symmetry; apply Nat.ltb_lt; lia).
        cbn [bind]. rewrite IH by (rewrite length_app; simpl; lia).
        simpl. by rewrite <- app_assoc.
      * cbn [bind]. rewrite IH by lia. reflexivity.
Qed.

End Gather.

(** ** The whole cycle *)

Section Cycle.
Context {ext : Externals} (cfg : BuildConfig).

Lemma fNotesRingBuffer_updateParameterTriggers (st : PluginJack) :
  fNotesRingBuffer (updateParameterTriggers st) = fNotesRingBuffer st.
Proof. destruct (updateParameterTriggers_spec st) as (vs & -> & _). reflexivity. Qed.

Lemma take_host_event_count (ui : list MidiEvent.t) (midiInBuf : MidiInBuf) :
  (length ui <= 512)%nat ->
  take (Z.to_nat (host_event_count ui midiInBuf)) midiInBuf
  = take (512 - length ui) midiInBuf.
Proof.
  intros Hui. unfold host_event_count, jackbridge_midi_get_event_count, uint32.
  rewrite Z.mod_small by lia.
  destruct (decide (512 - length ui <= length midiInBuf)%nat) as [Hle|Hgt].
  - rewrite Z.min_l by lia. f_equal. lia.
  - rewrite Z.min_r by lia. rewrite Nat2Z.id. by rewrite !take_ge by lia.
Qed.

(** [jackProcess] always completes, and this is what it computes. *)
Lemma jackProcess_spec (state : jack_transport_state_t) (pos : jack_position_t.t)
    (nframes : Z) (midiInBuf : MidiInBuf) (st : PluginJack) :
  jackProcess cfg state pos nframes midiInBuf st
  = Ok (plugin_run cfg nframes (merged_events cfg st midiInBuf)
          (interpret_events cfg (visited cfg st midiInBuf)
             (before_host_events cfg state pos st))).
Proof.
  unfold jackProcess, before_host_events, merged_events, visited.
  set (st1 := if DISTRHO_PLUGIN_WANT_TIMEPOS cfg
              then updateTimePosition cfg state pos st else st).
  assert (Hring : fNotesRingBuffer (updateParameterTriggers st1) = fNotesRingBuffer st).
  { rewrite fNotesRingBuffer_updateParameterTriggers. unfold st1.
    by destruct (DISTRHO_PLUGIN_WANT_TIMEPOS cfg). }
  assert (Hui : ui_events cfg (updateParameterTriggers st1) = ui_events cfg st).
  { unfold ui_events, queued_records. by rewrite Hring. }
  rewrite gather_notes_spec, Hui, Hring. cbn [bind].
  pose proof (ui_events_length cfg st) as Hlen.
  rewrite take_host_event_count by exact Hlen.
  rewrite host_events_spec by (rewrite length_take; lia). cbn [bind].
  destruct (DISTRHO_PLUGIN_WANT_MIDI_INPUT cfg) eqn:Hmidi; [reflexivity|].
  unfold ui_events. rewrite Hmidi. cbn [andb]. unfold plugin_run. by rewrite Hmidi.
Qed.

Lemma run_events_plugin_run (nframes : Z) (evs : list MidiEvent.t) (st : PluginJack) :
  DISTRHO_PLUGIN_WANT_MIDI_INPUT cfg = true ->
  run_events (plugin_run cfg nframes evs st) = Some evs.
Proof.
  intros Hmidi. unfold run_events, plugin_run. rewrite Hmidi. simpl.
  by rewrite last_snoc.
Qed.

Lemma run_events_jackProcess (state : jack_transport_state_t) (pos : jack_position_t.t)
    (nframes : Z) (midiInBuf : MidiInBuf) (st st' : PluginJack) :
  DISTRHO_PLUGIN_WANT_MIDI_INPUT cfg = true ->
  jackProcess cfg state pos nframes midiInBuf st = Ok st' ->
  run_events st' = Some (merged_events cfg st midiInBuf).
Proof.
  intros Hmidi. rewrite jackProcess_spec. intros [= <-].
  by apply run_events_plugin_run.
Qed.

Lemma merged_events_length (st : PluginJack) (midiInBuf : MidiInBuf) :
  (length (merged_events cfg st midiInBuf) <= 512)%nat.
Proof.
  unfold merged_events, visited.
  destruct (DISTRHO_PLUGIN_WANT_MIDI_INPUT cfg); [|cbn [length]; lia].
  pose proof (ui_events_length cfg st) as Hlen.
  rewrite length_app, length_map.
  assert (H : forall slots : MidiInBuf, (length (fetched slots) <= length slots)%nat).
  { induction slots as [|[rc e] slots IH]; simpl; [lia|].
    destruct (negb (rc =? 0)); simpl; lia. }
  specialize (H (take (512 - length (ui_events cfg st)) midiInBuf)).
  rewrite length_take in H. lia.
Qed.

End Cycle.

(** ** Forwarding of the host events *)

(** The control change of the sample cycle has a target (parameter 2), is
    interpreted, and is still handed to the DSP core: the stated
    consumption fails. *)
Lemma C1_consumption_counterexample :
  ~ @consumes_interpreted_events reference_externals full_build
      JackTransportRolling sample_position 256 cc_cycle_input sample_state.
Proof.
  intros H.
  apply (H after_cc_cycle
           [@to_MidiEvent reference_externals (cc_event 74 64);
            @to_MidiEvent reference_externals (note_on_event 5)]
           (cc_event 74 64)).
  - vm_compute. reflexivity.
  - vm_compute. reflexivity.
  - vm_compute. left. reflexivity.
  - left. split; [reflexivity|]. exists 2%nat. split; [vm_compute; lia | reflexivity].
  - left. reflexivity.
Qed.

(** C1 (amended): in a build with MIDI input, every host event the loop
    visits, control changes and program changes included, is interpreted
    and is also appended, in host order and after the events of the queued
    notes, to the list handed to [run]. *)
Theorem C1_host_events_are_forwarded {ext : Externals} (cfg : BuildConfig)
    (state : jack_transport_state_t) (pos : jack_position_t.t) (nframes : Z)
    (midiInBuf : MidiInBuf) (st st' : PluginJack) :
  DISTRHO_PLUGIN_WANT_MIDI_INPUT cfg = true ->
  jackProcess cfg state pos nframes midiInBuf st = Ok st' ->
  let evs := ui_events cfg st ++ map to_MidiEvent (visited cfg st midiInBuf) in
  run_events st' = Some evs
  /\ (forall jevent : jack_midi_event_t.t,
        In jevent (visited cfg st midiInBuf) -> In (to_MidiEvent jevent) evs)
  /\ st' = plugin_run cfg nframes evs
             (interpret_events cfg (visited cfg st midiInBuf)
                (before_host_events cfg state pos st)).
Proof.
  intros Hmidi Hrun. cbv zeta.
  assert (Hm : merged_events cfg st midiInBuf
               = ui_events cfg st ++ map to_MidiEvent (visited cfg st midiInBuf)).
  { unfold merged_events. by rewrite Hmidi. }
  split; [|split].
  - rewrite <- Hm. by eapply run_events_jackProcess.
  - intros jevent Hin. apply in_or_app. right. by apply in_map.
  - rewrite jackProcess_spec in Hrun. injection Hrun as <-. by rewrite Hm.
Qed.

Lemma C1_host_events_are_forwarded_witness :
  DISTRHO_PLUGIN_WANT_MIDI_INPUT full_build = true
  /\ @jackProcess reference_externals full_build JackTransportRolling
       sample_position 256 cc_cycle_input sample_state = Ok after_cc_cycle
  /\ run_events after_cc_cycle
     = Some [@to_MidiEvent reference_externals (cc_event 74 64);
             @to_MidiEvent reference_externals (note_on_event 5)].
Proof.
  assert (H1 : DISTRHO_PLUGIN_WANT_MIDI_INPUT full_build = true) by reflexivity.
  assert (H2 : @jackProcess reference_externals full_build JackTransportRolling
                 sample_position 256 cc_cycle_input sample_state = Ok after_cc_cycle)
    by (vm_compute; reflexivity).
  destruct (@C1_host_events_are_forwarded reference_externals full_build
              JackTransportRolling sample_position 256 cc_cycle_input sample_state
              after_cc_cycle H1 H2) as (Hr & _).
  split; [exact H1|]. split; [exact H2|]. rewrite Hr. vm_compute. reflexivity.
Defined.

(** ** Failing fetches *)

Lemma fetched_failure (slots : MidiInBuf) :
  forall (i : nat) (rc : Z) (jevent : jack_midi_event_t.t),
    slots !! i = Some (rc, jevent) -> rc <> 0 ->
    fetched slots = fetched (take i slots).
Proof.
  induction slots as [|[rc0 e0] slots IH]; intros i rc jevent Hi Hrc; [done|].
  destruct i as [|i]; simpl in *.
  - injection Hi as -> ->. by replace (rc =? 0) with false by (symmetry; by apply Z.eqb_neq).
  - destruct (negb (rc0 =? 0)); [reflexivity|]. f_equal. by eapply IH.
Qed.

Lemma fetched_take_failure (midiInBuf : MidiInBuf) (n i : nat) (rc : Z)
    (jevent : jack_midi_event_t.t) :
  midiInBuf !! i = Some (rc, jevent) -> rc <> 0 ->
  fetched (take n midiInBuf) = fetched (take n (take i midiInBuf)).
Proof.
  intros Hi Hrc. rewrite take_take. destruct (decide (n <= i)%nat) as [Hle|Hgt].
  - by rewrite Nat.min_l.
  - rewrite Nat.min_r by lia.
    rewrite (fetched_failure (take n midiInBuf) i rc jevent).
    + rewrite take_take. by rewrite Nat.min_l by lia.
    + rewrite lookup_take_lt by lia. exact Hi.
    + exact Hrc.
Qed.

(** C8: a failing fetch.  When fetching the host event of index [i]
    returns a non-zero code, the cycle is the cycle of the host buffer cut
    before [i]: the events from [i] on are neither interpreted nor
    appended.  The callback still completes, and its last action is the
    call to [run], with the events gathered up to there. *)
Theorem C8_failed_fetch_stops_scan {ext : Externals} (cfg : BuildConfig)
    (state : jack_transport_state_t) (pos : jack_position_t.t) (nframes : Z)
    (midiInBuf : MidiInBuf) (st : PluginJack) (i : nat) (rc : Z)
    (jevent : jack_midi_event_t.t) :
  midiInBuf !! i = Some (rc, jevent) ->
  rc <> 0 ->
  jackProcess cfg state pos nframes midiInBuf st
  = jackProcess cfg state pos nframes (take i midiInBuf) st
  /\ visited cfg st midiInBuf = visited cfg st (take i midiInBuf)
  /\ exists (st' : PluginJack) (c : Call),
       jackProcess cfg state pos nframes midiInBuf st = Ok st'
       /\ last (calls st') = Some c
       /\ is_run_call c = true
       /\ (DISTRHO_PLUGIN_WANT_MIDI_INPUT cfg = true ->
           c = Plugin_run nframes
                 (ui_events cfg st
                  ++ map to_MidiEvent (visited cfg st (take i midiInBuf)))
                 (Z.of_nat (length (ui_events cfg st
                  ++ map to_MidiEvent (visited cfg st (take i midiInBuf)))))).
Proof.
  intros Hi Hrc.
  assert (Hv : visited cfg st midiInBuf = visited cfg st (take i midiInBuf)).
  { unfold visited. by eapply fetched_take_failure. }
  assert (Hm : merged_events cfg st midiInBuf = merged_events cfg st (take i midiInBuf)).
  { unfold merged_events. by rewrite Hv. }
  split; [|split; [exact Hv|]].
  - rewrite !jackProcess_spec. by rewrite Hv, Hm.
  - rewrite jackProcess_spec.
    destruct (calls_plugin_run cfg nframes (merged_events cfg st midiInBuf)
                (interpret_events cfg (visited cfg st midiInBuf)
                   (before_host_events cfg state pos st))) as (c & Hc & Hr & Hshape).
    eexists _, c. split; [reflexivity|]. split; [|split; [exact Hr|]].
    + rewrite Hc. by rewrite last_snoc.
    + intros Hmidi. rewrite (Hshape Hmidi). rewrite Hm. unfold merged_events.
      by rewrite Hmidi.
Qed.

Lemma C8_failed_fetch_stops_scan_witness :
  failing_input !! 1%nat = Some (5, note_on_event 2)
  /\ 5 <> 0
  /\ @jackProcess reference_externals full_build JackTransportRolling
       sample_position 256 failing_input sample_state
     = @jackProcess reference_externals full_build JackTransportRolling
         sample_position 256 [(0, note_on_event 1)] sample_state.
Proof.
  assert (H1 : failing_input !! 1%nat = Some (5, note_on_event 2)) by reflexivity.
  assert (H2 : 5 <> 0) by lia.
  destruct (@C8_failed_fetch_stops_scan reference_externals full_build
              JackTransportRolling sample_position 256 failing_input sample_state
              1%nat 5 (note_on_event 2) H1 H2) as (Heq & _).
  split; [exact H1|]. split; [exact H2|]. exact Heq.
Defined.

(** ** The notes queued by the UI *)



Lemma records_note_bytes (notes : list (Z * Z * Z)) :
  records (flat_map note_bytes notes) = map note_bytes notes.
Proof.
  induction notes as [|[[c k] v] notes IH]; [reflexivity|].
  simpl. by rewrite IH.
Qed.



Section Ring.
Context {ext : Externals} (cfg : BuildConfig).

Lemma fNotesRingBuffer_interpret_event (jevent : jack_midi_event_t.t) (st : PluginJack) :
  fNotesRingBuffer (interpret_event cfg jevent st) = fNotesRingBuffer st.
Proof.
  unfold interpret_event. rewrite control_change_spec. unfold cc_write.
  repeat case_match; reflexivity.
Qed.

Lemma fNotesRingBuffer_interpret_events (jevents : list jack_midi_event_t.t)
    (st : PluginJack) :
  fNotesRingBuffer (interpret_events cfg jevents st) = fNotesRingBuffer st.
Proof.
  unfold interpret_events.
  apply (foldl_preserves (fun s => fNotesRingBuffer s = fNotesRingBuffer st));
    [reflexivity|].
  intros s e Hs. by rewrite fNotesRingBuffer_interpret_event.
Qed.

Lemma fNotesRingBuffer_jackProcess (state : jack_transport_state_t)
    (pos : jack_position_t.t) (nframes : Z) (midiInBuf : MidiInBuf)
    (st st' : PluginJack) :
  jackProcess cfg state pos nframes midiInBuf st = Ok st' ->
  fNotesRingBuffer st'
  = if DISTRHO_PLUGIN_WANT_MIDI_INPUT cfg && DISTRHO_PLUGIN_HAS_UI cfg
    then ring_after_read (3 * length (ui_events cfg st)) (fNotesRingBuffer st)
    else fNotesRingBuffer st.
Proof.
  rewrite jackProcess_spec. intros [= <-].
  assert (Hrun : forall evs s,
            fNotesRingBuffer (plugin_run cfg nframes evs s) = fNotesRingBuffer s).
  { intros evs s. unfold plugin_run. by destruct (DISTRHO_PLUGIN_WANT_MIDI_INPUT cfg). }
  rewrite Hrun, fNotesRingBuffer_interpret_events. unfold before_host_events.
  destruct (DISTRHO_PLUGIN_WANT_MIDI_INPUT cfg && DISTRHO_PLUGIN_HAS_UI cfg);
    [reflexivity|].
  rewrite fNotesRingBuffer_updateParameterTriggers.
  by destruct (DISTRHO_PLUGIN_WANT_TIMEPOS cfg).
Qed.





End Ring.



(** ** The cap on the events of a cycle *)

(** After 513 notes from the UI, a cycle takes 512 of them and the next
    cycle, given nothing new, still hands the last one to the DSP core:
    what the first cycle did not take was not dropped. *)
Lemma C4_carry_over_counterexample :
  ~ @excess_is_dropped reference_externals full_build JackTransportRolling
      sample_position 256 [] flooded_state.
Proof.
  intros H.
  assert (E1 : @jackProcess reference_externals full_build JackTransportRolling
                 sample_position 256 [] flooded_state = Ok after_flood_1)
    by (vm_compute; reflexivity).
  assert (E2 : @jackProcess reference_externals full_build JackTransportRolling
                 sample_position 256 [] after_flood_1 = Ok after_flood_2)
    by (vm_compute; reflexivity).
  specialize (H _ _ E1 E2). vm_compute in H. discriminate H.
Qed.

Example flood_first_cycle_takes_512 :
  option_map (@length MidiEvent.t) (run_events after_flood_1) = Some 512%nat
  /\ run_events after_flood_2 = Some [note_event [0x94; 0; 100]].
Proof. split; vm_compute; reflexivity. Qed.

(** C4 (amended): the cap of 512 events.  A cycle always completes: no
    store goes outside the 512 slots of [midiEvents] and the loop over the
    ring buffer ends.  The list handed to [run] has at most 512 events.
    The host events beyond the slots left by the queued notes are dropped:
    the cycle is the cycle of the host buffer cut to these slots.  The
    notes queued beyond the first 512 are not dropped: they stay in the
    ring buffer for the cycles to come. *)
Theorem C4_merged_events_are_capped {ext : Externals} (cfg : BuildConfig)
    (state : jack_transport_state_t) (pos : jack_position_t.t) (nframes : Z)
    (midiInBuf : MidiInBuf) (st : PluginJack) :
  exists st' : PluginJack,
    jackProcess cfg state pos nframes midiInBuf st = Ok st'
    /\ (length (merged_events cfg st midiInBuf) <= 512)%nat
    /\ (DISTRHO_PLUGIN_WANT_MIDI_INPUT cfg = true ->
        run_events st' = Some (merged_events cfg st midiInBuf))
    /\ jackProcess cfg state pos nframes
         (take (512 - length (ui_events cfg st)) midiInBuf) st = Ok st'
    /\ (DISTRHO_PLUGIN_WANT_MIDI_INPUT cfg = true ->
        DISTRHO_PLUGIN_HAS_UI cfg = true ->
        queued_records st' = drop 512 (queued_records st)).
Proof.
  eexists. split; [apply jackProcess_spec|].
  split; [apply merged_events_length|]. split; [|split].
  - intros Hmidi. by apply run_events_plugin_run.
  - rewrite jackProcess_spec. unfold merged_events, visited. by rewrite take_idemp.
  - intros Hmidi Hui. unfold queued_records at 1.
    rewrite (fNotesRingBuffer_jackProcess cfg state pos nframes midiInBuf st);
      [|apply jackProcess_spec].
    rewrite Hmidi, Hui. cbn [andb ring_after_read RingBuffer.readable].
    rewrite records_drop. unfold ui_events. rewrite Hmidi, Hui. cbn [andb].
    rewrite length_map, length_take. fold (queued_records st).
    destruct (decide (512 <= length (queued_records st))%nat).
    + by rewrite Nat.min_l.
    + rewrite Nat.min_r by lia. by rewrite !drop_ge by lia.
Qed.

Lemma C4_merged_events_are_capped_witness :
  DISTRHO_PLUGIN_WANT_MIDI_INPUT full_build = true
  /\ DISTRHO_PLUGIN_HAS_UI full_build = true
  /\ queued_records after_flood_1 = drop 512 (queued_records flooded_state).
Proof.
  assert (H1 : DISTRHO_PLUGIN_WANT_MIDI_INPUT full_build = true) by reflexivity.
  assert (H2 : DISTRHO_PLUGIN_HAS_UI full_build = true) by reflexivity.
  assert (E : @jackProcess reference_externals full_build JackTransportRolling
                sample_position 256 [] flooded_state = Ok after_flood_1)
    by (vm_compute; reflexivity).
  destruct (@C4_merged_events_are_capped reference_externals full_build
              JackTransportRolling sample_position 256 [] flooded_state)
    as (st' & Hrun & _ & _ & _ & Hq).
  rewrite E in Hrun. apply Ok_inj in Hrun. subst st'.
  split; [exact H1|]. split; [exact H2|]. exact (Hq H1 H2).
Defined.

(** ** The cycle around one host event *)

Lemma cc_match_parameters (p p' : PluginExporter.t) (control : Z) (j : nat) :
  PluginExporter.parameters p' = PluginExporter.parameters p ->
  cc_match p' control j = cc_match p control j.
Proof.
  intros H. unfold cc_match, PluginExporter.isParameterOutput,
    PluginExporter.getParameterMidiCC. by rewrite H.
Qed.

Section Cycle.
Context {ext : Externals} (cfg : BuildConfig).

(** The audio thread never clears a flag of [fParametersChanged]. *)
Lemma interpret_event_flag_stays (jevent : jack_midi_event_t.t) (st : PluginJack)
    (i : nat) :
  fParametersChanged st !! i = Some true ->
  fParametersChanged (interpret_event cfg jevent st) !! i = Some true.
Proof.
  intros Hi. unfold interpret_event. rewrite control_change_spec. unfold cc_write.
  repeat case_match; simpl; try exact Hi.
  match goal with
  | |- <[?k := true]> _ !! i = _ => destruct (decide (k = i)) as [->|Hne]
  end.
  - apply list_lookup_insert_eq. by eapply lookup_lt_Some.
  - by rewrite list_lookup_insert_ne.
Qed.

Lemma before_host_events_fields (state : jack_transport_state_t)
    (pos : jack_position_t.t) (st : PluginJack) :
  PluginExporter.parameters (fPlugin (before_host_events cfg state pos st))
  = PluginExporter.parameters (fPlugin st)
  /\ PluginExporter.programCount (fPlugin (before_host_events cfg state pos st))
     = PluginExporter.programCount (fPlugin st)
  /\ fParametersChanged (before_host_events cfg state pos st) = fParametersChanged st
  /\ fProgramChanged (before_host_events cfg state pos st) = fProgramChanged st
  /\ fLastOutputValues (before_host_events cfg state pos st) = fLastOutputValues st.
Proof.
  unfold before_host_events.
  set (st1 := if DISTRHO_PLUGIN_WANT_TIMEPOS cfg
              then updateTimePosition cfg state pos st else st).
  assert (H1 : fPlugin st1 = fPlugin st /\ fParametersChanged st1 = fParametersChanged st
               /\ fProgramChanged st1 = fProgramChanged st
               /\ fLastOutputValues st1 = fLastOutputValues st).
  { unfold st1. by case_match. }
  destruct H1 as (Hp & Hpc & Hprog & Hlo).
  destruct (updateParameterTriggers_spec st1) as (vs & -> & _).
  case_match; simpl; rewrite Hp, Hpc, Hprog, Hlo; done.
Qed.

Lemma plugin_run_fields (nframes : Z) (evs : list MidiEvent.t) (st : PluginJack) :
  PluginExporter.parameters (fPlugin (plugin_run cfg nframes evs st))
  = PluginExporter.parameters (fPlugin st)
  /\ PluginExporter.programCount (fPlugin (plugin_run cfg nframes evs st))
     = PluginExporter.programCount (fPlugin st)
  /\ fParametersChanged (plugin_run cfg nframes evs st) = fParametersChanged st
  /\ fProgramChanged (plugin_run cfg nframes evs st) = fProgramChanged st
  /\ fLastOutputValues (plugin_run cfg nframes evs st) = fLastOutputValues st.
Proof. unfold plugin_run. by case_match. Qed.

Lemma interpret_events_skip (jevents : list jack_midi_event_t.t) (st : PluginJack) :
  Forall (fun jevent => is_control_change jevent = false
                        /\ is_program_change jevent = false) jevents ->
  interpret_events cfg jevents st = st.
Proof.
  unfold interpret_events. induction 1 as [|jevent jevents [Hcc Hpc] _ IH];
    [reflexivity|].
  simpl. rewrite <- IH at 2. f_equal.
  unfold interpret_event. unfold is_control_change in Hcc.
  unfold is_program_change in Hpc. rewrite Hcc, Hpc. by rewrite andb_false_r.
Qed.

Lemma keeps_interpret_events (jevents : list jack_midi_event_t.t) (st : PluginJack) :
  keeps st (interpret_events cfg jevents st).
Proof.
  unfold interpret_events. apply (foldl_preserves (keeps st)); [apply keeps_refl|].
  intros s e Hs. eapply keeps_trans; [exact Hs | apply keeps_interpret_event].
Qed.

Lemma interpret_events_flag_stays (jevents : list jack_midi_event_t.t) (i : nat) :
  forall st : PluginJack,
    fParametersChanged st !! i = Some true ->
    fParametersChanged (interpret_events cfg jevents st) !! i = Some true.
Proof.
  induction jevents as [|e l IH]; intros st Hs; [exact Hs|].
  apply IH. by apply interpret_event_flag_stays.
Qed.

(** The loop over the host events starts from the sizes and the trace it
    was given. *)
Lemma before_host_events_grows (state : jack_transport_state_t)
    (pos : jack_position_t.t) (st : PluginJack) :
  length (PluginExporter.values (fPlugin (before_host_events cfg state pos st)))
  = length (PluginExporter.values (fPlugin st))
  /\ exists k : list Call,
       calls (before_host_events cfg state pos st) = calls st ++ k.
Proof.
  unfold before_host_events.
  set (st1 := if DISTRHO_PLUGIN_WANT_TIMEPOS cfg
              then updateTimePosition cfg state pos st else st).
  assert (H1 : fPlugin st1 = fPlugin st /\ exists k, calls st1 = calls st ++ k).
  { unfold st1. case_match; simpl; split; try reflexivity.
    - by eexists.
    - exists []. by rewrite app_nil_r. }
  destruct H1 as (Hp & k1 & Hk1).
  destruct (keeps_updateParameterTriggers st1) as (_ & (k2 & Hk2 & _) & _ & _ & _ & Hv & _).
  assert (H : length (PluginExporter.values (fPlugin (updateParameterTriggers st1)))
              = length (PluginExporter.values (fPlugin st))
              /\ calls (updateParameterTriggers st1) = calls st ++ (k1 ++ k2)).
  { split; [by rewrite Hv, Hp | by rewrite Hk2, Hk1, app_assoc]. }
  destruct H as [Hl Hc]. case_match; simpl; (split; [exact Hl | by eexists]).
Qed.

(** A cycle, seen from one of the host events it visits. *)
Lemma jackProcess_around (state : jack_transport_state_t) (pos : jack_position_t.t)
    (nframes : Z) (midiInBuf : MidiInBuf) (st st' : PluginJack)
    (pre post : list jack_midi_event_t.t) (jevent : jack_midi_event_t.t) :
  jackProcess cfg state pos nframes midiInBuf st = Ok st' ->
  visited cfg st midiInBuf = pre ++ jevent :: post ->
  let reached := interpret_events cfg pre (before_host_events cfg state pos st) in
  let handled := interpret_event cfg jevent reached in
  st' = plugin_run cfg nframes (merged_events cfg st midiInBuf)
          (interpret_events cfg post handled)
  /\ PluginExporter.parameters (fPlugin reached) = PluginExporter.parameters (fPlugin st)
  /\ PluginExporter.programCount (fPlugin reached)
     = PluginExporter.programCount (fPlugin st)
  /\ length (PluginExporter.values (fPlugin reached))
     = length (PluginExporter.values (fPlugin st))
  /\ length (fParametersChanged reached) = length (fParametersChanged st)
  /\ (forall cs : list Call,
        calls handled = calls reached ++ cs ->
        exists k1 k2 : list Call, new_calls st st' = k1 ++ cs ++ k2).
Proof.
  intros Hrun Hvis. cbv zeta.
  rewrite jackProcess_spec in Hrun. apply Ok_inj in Hrun.
  set (st3 := before_host_events cfg state pos st) in *.
  set (reached := interpret_events cfg pre st3).
  set (handled := interpret_event cfg jevent reached).
  assert (Hst' : st' = plugin_run cfg nframes (merged_events cfg st midiInBuf)
                         (interpret_events cfg post handled)).
  { rewrite <- Hrun, Hvis. unfold interpret_events. by rewrite foldl_app. }
  destruct (before_host_events_fields state pos st) as (Hp3 & Hc3 & Hf3 & _).
  destruct (before_host_events_grows state pos st) as (Hv3 & k3 & Hk3).
  destruct (keeps_interpret_events pre st3)
    as (_ & (kpre & Hkpre & _) & Hpr & Hcr & _ & Hvr & Hfr).
  destruct (keeps_interpret_events post handled) as (_ & (kpost & Hkpost & _) & _).
  destruct (calls_plugin_run cfg nframes (merged_events cfg st midiInBuf)
              (interpret_events cfg post handled)) as (c & Hc & _).
  split; [exact Hst'|]. fold st3 in Hp3, Hc3, Hf3, Hv3, Hk3. fold reached in Hkpre, Hpr, Hcr, Hvr, Hfr.
  split; [congruence|]. split; [congruence|]. split; [congruence|]. split; [congruence|].
  intros cs Hcs. exists (k3 ++ kpre), (kpost ++ [c]).
  apply new_calls_app. rewrite Hst', Hc, Hkpost, Hcs, Hkpre, Hk3.
  by rewrite <- !app_assoc.
Qed.

End Cycle.

(** C2: a control change on channel 1 in a cycle.  When the cycle visits
    the event with bytes [0xB0, c, v], the cycle is: the events before it,
    this event, the events after it, then [run].  Handling the event writes
    the first input parameter mapped to [c]: the value written is [v/127]
    scaled into the parameter's ranges by [getUnnormalizedValue], the write
    goes through [setParameterValue], which appears in the calls of the
    cycle, and, in a build with a UI, the parameter's flag is set and is
    still set when the cycle ends.  No other parameter is written by the
    event; without a target it changes nothing.  When no later event of the
    cycle is a control change or a program change, the DSP core runs on the
    values so written.  With the scaling of the spec, the range [0,10] and
    [v = 64] give [10 * (64/127)] up to rounding. *)
Theorem C2_control_change_writes_first_match {ext : Externals} (cfg : BuildConfig)
    (state : jack_transport_state_t) (pos : jack_position_t.t) (nframes : Z)
    (midiInBuf : MidiInBuf) (st st' : PluginJack)
    (pre post : list jack_midi_event_t.t) (jevent : jack_midi_event_t.t) :
  jackProcess cfg state pos nframes midiInBuf st = Ok st' ->
  visited cfg st midiInBuf = pre ++ jevent :: post ->
  is_control_change jevent = true ->
  let control := byte_at (jack_midi_event_t.buffer jevent) 1 in
  let value := byte_at (jack_midi_event_t.buffer jevent) 2 in
  let p := fPlugin st in
  let count := PluginExporter.getParameterCount p in
  let reached := interpret_events cfg pre (before_host_events cfg state pos st) in
  let handled := interpret_event cfg jevent reached in
  st' = plugin_run cfg nframes (merged_events cfg st midiInBuf)
          (interpret_events cfg post handled)
  /\ (forall j : nat,
      (j < count)%nat ->
      cc_match p control j = true ->
      (forall i : nat, (i < j)%nat -> cc_match p control i = false) ->
      let fvalue :=
        getUnnormalizedValue (PluginExporter.getParameterRanges p j)
          (F32.div (F32.of_Z value) (F32.of_Z 127)) in
      new_calls reached handled = [Plugin_setParameterValue j fvalue]
      /\ In (Plugin_setParameterValue j fvalue) (new_calls st st')
      /\ PluginExporter.values (fPlugin handled)
         = <[j := fvalue]> (PluginExporter.values (fPlugin reached))
      /\ ((j < length (PluginExporter.values p))%nat ->
          PluginExporter.getParameterValue (fPlugin handled) j = fvalue)
      /\ (forall i : nat, i <> j ->
          PluginExporter.values (fPlugin handled) !! i
          = PluginExporter.values (fPlugin reached) !! i)
      /\ (DISTRHO_PLUGIN_HAS_UI cfg = true ->
          fParametersChanged handled = <[j := true]> (fParametersChanged reached)
          /\ ((j < length (fParametersChanged st))%nat ->
              fParametersChanged st' !! j = Some true))
      /\ (DISTRHO_PLUGIN_HAS_UI cfg = false ->
          fParametersChanged handled = fParametersChanged reached)
      /\ (Forall (fun e => is_control_change e = false
                           /\ is_program_change e = false) post ->
          fPlugin st'
          = PluginExporter.run (fPlugin handled) nframes
              (if DISTRHO_PLUGIN_WANT_MIDI_INPUT cfg
               then Some (merged_events cfg st midiInBuf) else None)))
  /\ ((forall i : nat, (i < count)%nat -> cc_match p control i = false) ->
      handled = reached)
  /\ (Qabs (F32.to_Q (scale_to_range range_0_10 (F32.div (F32.of_Z 64) (F32.of_Z 127)))
            - (640 # 127)) < 1 # 1000000)%Q.
Proof.
  intros Hrun Hvis Hcc. cbv zeta.
  destruct (jackProcess_around cfg state pos nframes midiInBuf st st' pre post jevent
              Hrun Hvis) as (Hst' & Hpar & _ & Hlenv & Hlenf & Htrace).
  set (reached := interpret_events cfg pre (before_host_events cfg state pos st)) in *.
  set (handled := interpret_event cfg jevent reached) in *.
  destruct (interpret_control_change cfg jevent reached Hcc) as [Hwrite Hnone].
  fold handled in Hwrite, Hnone.
  assert (Hcount : PluginExporter.getParameterCount (fPlugin reached)
                   = PluginExporter.getParameterCount (fPlugin st)).
  { unfold PluginExporter.getParameterCount. by rewrite Hpar. }
  assert (Hmatch : forall i : nat,
            cc_match (fPlugin reached) (byte_at (jack_midi_event_t.buffer jevent) 1) i
            = cc_match (fPlugin st) (byte_at (jack_midi_event_t.buffer jevent) 1) i).
  { intros i. by apply cc_match_parameters. }
  split; [exact Hst'|]. split; [|split].
  - intros j Hj Hm Hfirst.
    destruct (Hwrite j) as (Hcalls & Hvalues & Hui & Hnoui).
    { by rewrite Hcount. }
    { by rewrite Hmatch. }
    { intros i Hi. rewrite Hmatch. by apply Hfirst. }
    assert (Hranges : PluginExporter.getParameterRanges (fPlugin reached) j
                      = PluginExporter.getParameterRanges (fPlugin st) j).
    { unfold PluginExporter.getParameterRanges. by rewrite Hpar. }
    rewrite Hranges in Hcalls, Hvalues.
    split; [by apply new_calls_app|].
    split.
    { destruct (Htrace _ Hcalls) as (k1 & k2 & ->).
      apply in_or_app. right. apply in_or_app. left. by left. }
    split; [exact Hvalues|].
    split.
    { intros Hlen. unfold PluginExporter.getParameterValue. rewrite Hvalues.
      rewrite list_lookup_insert_eq by (by rewrite Hlenv). reflexivity. }
    split.
    { intros i Hi. rewrite Hvalues. by apply list_lookup_insert_ne. }
    split.
    { intros Hb. split; [by apply Hui|]. intros Hlen.
      rewrite Hst'.
      destruct (plugin_run_fields cfg nframes (merged_events cfg st midiInBuf)
                  (interpret_events cfg post handled)) as (_ & _ & -> & _).
      apply interpret_events_flag_stays. rewrite (Hui Hb).
      apply list_lookup_insert_eq. by rewrite Hlenf. }
    split; [exact Hnoui|].
    intros Hpost. rewrite Hst', (interpret_events_skip cfg post handled Hpost).
    unfold plugin_run. by case_match.
  - intros Hno. apply Hnone. intros i Hi. rewrite Hmatch. apply Hno.
    by rewrite <- Hcount.
  - vm_compute. reflexivity.
Qed.

Lemma C2_control_change_writes_first_match_witness :
  @jackProcess reference_externals full_build JackTransportRolling
    sample_position 256 cc_cycle_input sample_state = Ok after_cc_cycle
  /\ visited full_build sample_state cc_cycle_input
     = [] ++ cc_event 74 64 :: [note_on_event 5]
  /\ is_control_change (cc_event 74 64) = true
  /\ (2 < PluginExporter.getParameterCount (fPlugin sample_state))%nat
  /\ cc_match (fPlugin sample_state) 74 2 = true
  /\ In (Plugin_setParameterValue 2
           (scale_to_range range_0_10 (F32.div (F32.of_Z 64) (F32.of_Z 127))))
        (new_calls sample_state after_cc_cycle)
  /\ fParametersChanged after_cc_cycle !! 2%nat = Some true
  /\ PluginExporter.getParameterValue (fPlugin after_cc_cycle) 2
     = scale_to_range range_0_10 (F32.div (F32.of_Z 64) (F32.of_Z 127)).
Proof.
  assert (Hrun : @jackProcess reference_externals full_build JackTransportRolling
                   sample_position 256 cc_cycle_input sample_state = Ok after_cc_cycle)
    by (vm_compute; reflexivity).
  assert (Hvis : visited full_build sample_state cc_cycle_input
                 = [] ++ cc_event 74 64 :: [note_on_event 5])
    by (vm_compute; reflexivity).
  assert (H0 : is_control_change (cc_event 74 64) = true) by reflexivity.
  assert (H1 : (2 < PluginExporter.getParameterCount (fPlugin sample_state))%nat)
    by (vm_compute; lia).
  assert (H2 : cc_match (fPlugin sample_state) 74 2 = true) by (vm_compute; reflexivity).
  assert (H3 : forall i : nat, (i < 2)%nat -> cc_match (fPlugin sample_state) 74 i = false).
  { intros i Hi. destruct i as [|[|i]]; [vm_compute; reflexivity ..|lia]. }
  destruct (@C2_control_change_writes_first_match reference_externals full_build
              JackTransportRolling sample_position 256 cc_cycle_input sample_state
              after_cc_cycle [] [note_on_event 5] (cc_event 74 64) Hrun Hvis H0)
    as (_ & Hw & _ & _).
  destruct (Hw 2%nat H1 H2 H3) as (_ & Hin & _ & _ & _ & Hflag & _).
  split; [exact Hrun|]. split; [exact Hvis|]. split; [exact H0|].
  split; [exact H1|]. split; [exact H2|]. split; [exact Hin|].
  split; [apply (Hflag eq_refl); vm_compute; lia|].
  vm_compute. reflexivity.
Defined.

(** * Further properties *)

(** ** Shape of the state *)

Lemma same_shape_refl (st : PluginJack) : same_shape st st.
Proof. unfold same_shape. repeat split. Qed.

Lemma same_shape_trans (st1 st2 st3 : PluginJack) :
  same_shape st1 st2 -> same_shape st2 st3 -> same_shape st1 st3.
Proof. unfold same_shape. intros (? & ? & ? & ? & ?) (? & ? & ? & ? & ?). repeat split; congruence. Qed.

Lemma keeps_same_shape (st st' : PluginJack) : keeps st st' -> same_shape st st'.
Proof.
  intros (_ & _ & Hp & Hc & Hlo & Hv & Hpc). unfold same_shape.
  repeat split; congruence.
Qed.

Section Shape.
Context {ext : Externals} (cfg : BuildConfig).

Lemma same_shape_idle_parameter (st : PluginJack) (i : nat) :
  same_shape st (idle_parameter st i).
Proof.
  unfold idle_parameter, same_shape.
  repeat case_match; simpl; repeat split; by rewrite ?length_insert.
Qed.

Lemma same_shape_idleCallback (g : bool) (st : PluginJack) :
  same_shape st (idleCallback cfg g st).
Proof.
  unfold idleCallback, idle_parameters. destruct g; [by unfold same_shape|].
  set (st1 := if DISTRHO_PLUGIN_WANT_PROGRAMS cfg && (0 <=? fProgramChanged st)
              then set_fProgramChanged (-1)
                     (call (UI_programLoaded (fProgramChanged st)) st)
              else st).
  assert (H1 : same_shape st st1).
  { unfold st1. case_match; by unfold same_shape. }
  eapply same_shape_trans; [exact H1|].
  assert (H2 : same_shape st1
                 (foldl idle_parameter st1
                    (seq 0 (PluginExporter.getParameterCount (fPlugin st1))))).
  { apply (foldl_preserves (same_shape st1)); [apply same_shape_refl|].
    intros s x Hs. eapply same_shape_trans; [exact Hs|apply same_shape_idle_parameter]. }
  eapply same_shape_trans; [exact H2|]. by unfold same_shape.
Qed.

Lemma same_shape_sendNote (c n v : Z) (st : PluginJack) :
  same_shape st (sendNote c n v st).
Proof.
  unfold sendNote.
  destruct (RingBuffer.writeCustomData _ _) as [b1 rb1].
  destruct (RingBuffer.commitWrite rb1) as [b2 rb2]. by unfold same_shape.
Qed.

Lemma same_shape_requestParameterValueChange (i : nat) (v : float) (st : PluginJack) :
  same_shape st (snd (requestParameterValueChange cfg i v st)).
Proof.
  unfold requestParameterValueChange, same_shape.
  repeat case_match; simpl; repeat split; by rewrite ?length_insert.
Qed.

Lemma same_shape_jackProcess (state : jack_transport_state_t) (pos : jack_position_t.t)
    (nframes : Z) (midiInBuf : MidiInBuf) (st st' : PluginJack) :
  jackProcess cfg state pos nframes midiInBuf st = Ok st' -> same_shape st st'.
Proof.
  intros Hrun.
  destruct (jackProcess_inv cfg _ _ _ _ _ _ Hrun) as (ui & evs & st3 & st4 & Hg & Hh & ->).
  set (st1 := if DISTRHO_PLUGIN_WANT_TIMEPOS cfg
              then updateTimePosition cfg state pos st else st) in *.
  assert (H1 : same_shape st st1).
  { unfold st1. case_match; by unfold same_shape. }
  assert (K : keeps st1 st4).
  { eapply keeps_trans; [apply keeps_updateParameterTriggers|].
    eapply keeps_trans; [eapply keeps_gather_notes, Hg|].
    eapply keeps_host_events, Hh. }
  eapply same_shape_trans; [exact H1|].
  eapply same_shape_trans; [apply keeps_same_shape, K|].
  unfold plugin_run, same_shape.
  case_match; simpl; repeat split; by rewrite length_imap.
Qed.

Lemma step_same_shape (st st' : PluginJack) : step cfg st st' -> same_shape st st'.
Proof.
  intros [g s | c n v s _ _ _ | i v s | i v s | state pos nframes buf s s' Hrun].
  - apply same_shape_idleCallback.
  - apply same_shape_sendNote.
  - apply keeps_same_shape, keeps_plugin_setParameterValue.
  - apply same_shape_requestParameterValueChange.
  - by eapply same_shape_jackProcess.
Qed.

Lemma arrays_sized_construct (plugin : PluginExporter.t) (ringCapacity : nat) :
  arrays_sized cfg (construct cfg plugin ringCapacity).
Proof.
  assert (Hloop : forall s l,
            fPlugin (foldl (construct_parameter cfg) s l) = fPlugin s
            /\ fLastOutputValues (foldl (construct_parameter cfg) s l) = fLastOutputValues s
            /\ fParametersChanged (foldl (construct_parameter cfg) s l)
               = fParametersChanged s).
  { intros s l.
    apply (foldl_preserves (fun s' => fPlugin s' = fPlugin s
             /\ fLastOutputValues s' = fLastOutputValues s
             /\ fParametersChanged s' = fParametersChanged s)); [done|].
    intros s' x Hs'. unfold construct_parameter. by case_match. }
  unfold construct, arrays_sized.
  match goal with
  | |- context [PluginExporter.getParameterCount (fPlugin ?s)] => set (st1 := s)
  end.
  assert (Hc : PluginExporter.getParameterCount (fPlugin st1)
               = PluginExporter.getParameterCount plugin).
  { unfold st1. by repeat case_match. }
  destruct (0 <? PluginExporter.getParameterCount (fPlugin st1))%nat eqn:Hpos.
  - destruct (Hloop
      (if DISTRHO_PLUGIN_HAS_UI cfg
       then set_fParametersChanged
              (replicate (PluginExporter.getParameterCount (fPlugin st1)) false)
              (set_fLastOutputValues
                 (replicate (PluginExporter.getParameterCount (fPlugin st1)) F32.zero) st1)
       else set_fLastOutputValues
              (replicate (PluginExporter.getParameterCount (fPlugin st1)) F32.zero) st1)
      (seq 0 (PluginExporter.getParameterCount (fPlugin st1)))) as (-> & -> & ->).
    destruct (DISTRHO_PLUGIN_HAS_UI cfg); simpl; rewrite ?length_replicate; split;
      try reflexivity; try discriminate; intros _; by rewrite ?length_replicate.
  - apply Nat.ltb_ge in Hpos.
    destruct (DISTRHO_PLUGIN_HAS_UI cfg); simpl; split; try lia; try discriminate;
      intros _; lia.
Qed.

End Shape.

(** X1: in every state the bridge can reach, [fLastOutputValues] has one
    slot per parameter and, in a build with a UI, so has
    [fParametersChanged]: the loops that index them by a parameter index
    stay inside the arrays. *)
Theorem X1_reachable_arrays_sized {ext : Externals} (cfg : BuildConfig)
    (st : PluginJack) :
  reachable cfg st -> arrays_sized cfg st.
Proof.
  induction 1 as [plugin cap | st st' _ [IH1 IH2] Hstep].
  - apply arrays_sized_construct.
  - destruct (step_same_shape cfg st st' Hstep) as (Hp & _ & _ & Hlo & Hpc).
    unfold arrays_sized, PluginExporter.getParameterCount in *. rewrite Hp, Hlo, Hpc.
    split; assumption.
Qed.

Lemma X1_reachable_arrays_sized_witness :
  @reachable reference_externals full_build noted_state
  /\ length (fParametersChanged noted_state) = 4%nat.
Proof.
  assert (H0 : @reachable reference_externals full_build noted_state).
  { unfold noted_state, sample_state.
    eapply reachable_step; [eapply reachable_step; [apply reachable_construct|]|].
    - apply (@step_sendNote reference_externals full_build 0 60 100); lia.
    - apply (@step_sendNote reference_externals full_build 1 61 0); lia. }
  split; [exact H0|].
  destruct (@X1_reachable_arrays_sized reference_externals full_build noted_state H0)
    as [_ H]. exact (H eq_refl).
Defined.

(** ** From a control change to the UI *)

Section Flags.
Context {ext : Externals} (cfg : BuildConfig).

Lemma interpret_event_cc_sets_flag (jevent : jack_midi_event_t.t) (st : PluginJack)
    (j : nat) :
  DISTRHO_PLUGIN_HAS_UI cfg = true ->
  is_control_change jevent = true ->
  (j < PluginExporter.getParameterCount (fPlugin st))%nat ->
  cc_match (fPlugin st) (byte_at (jack_midi_event_t.buffer jevent) 1) j = true ->
  (forall i : nat, (i < j)%nat ->
     cc_match (fPlugin st) (byte_at (jack_midi_event_t.buffer jevent) 1) i = false) ->
  (j < length (fParametersChanged st))%nat ->
  fParametersChanged (interpret_event cfg jevent st) !! j = Some true.
Proof.
  intros Hui Hcc Hj Hm Hfirst Hlen. unfold is_control_change in Hcc.
  unfold interpret_event. rewrite Hcc, control_change_spec.
  rewrite (first_cc_match_Some _ _ _ 0 j); [|lia|exact Hm|intros; apply Hfirst; lia].
  unfold cc_write. rewrite Hui. simpl. by apply list_lookup_insert_eq.
Qed.

Lemma interpret_events_cc_sets_flag (jevents : list jack_midi_event_t.t) :
  forall (st : PluginJack) (jevent : jack_midi_event_t.t) (j : nat),
    DISTRHO_PLUGIN_HAS_UI cfg = true ->
    In jevent jevents ->
    is_control_change jevent = true ->
    (j < PluginExporter.getParameterCount (fPlugin st))%nat ->
    cc_match (fPlugin st) (byte_at (jack_midi_event_t.buffer jevent) 1) j = true ->
    (forall i : nat, (i < j)%nat ->
       cc_match (fPlugin st) (byte_at (jack_midi_event_t.buffer jevent) 1) i = false) ->
    (j < length (fParametersChanged st))%nat ->
    fParametersChanged (interpret_events cfg jevents st) !! j = Some true.
Proof.
  induction jevents as [|e l IH]; intros st jevent j Hui Hin Hcc Hj Hm Hfirst Hlen;
    [destruct Hin|].
  assert (Hstays : forall (l' : list jack_midi_event_t.t) (s : PluginJack),
            fParametersChanged s !! j = Some true ->
            fParametersChanged (interpret_events cfg l' s) !! j = Some true).
  { induction l' as [|e' l' IH']; intros s Hs; [exact Hs|].
    apply IH'. by apply interpret_event_flag_stays. }
  change (interpret_events cfg (e :: l) st)
    with (interpret_events cfg l (interpret_event cfg e st)).
  destruct Hin as [->|Hin].
  - apply Hstays. by apply interpret_event_cc_sets_flag.
  - destruct (keeps_interpret_event cfg e st) as (_ & _ & Hp & _ & _ & _ & Hpc).
    apply (IH _ jevent); try assumption.
    + unfold PluginExporter.getParameterCount. by rewrite Hp.
    + by rewrite (cc_match_parameters (fPlugin st)).
    + intros i Hi. rewrite (cc_match_parameters (fPlugin st)) by exact Hp. by apply Hfirst.
    + by rewrite Hpc.
Qed.

End Flags.

(** X2: a control change reaches the UI.  In a build with a UI, when a
    cycle visits a control change whose first target is the input
    parameter [j], the flag of [j] is set when the cycle ends, so the next
    idle callback notifies the UI of [j], once, with the value the
    parameter has then, and clears the flag. *)
Theorem X2_control_change_is_notified {ext : Externals} (cfg : BuildConfig)
    (state : jack_transport_state_t) (pos : jack_position_t.t) (nframes : Z)
    (midiInBuf : MidiInBuf) (st st' : PluginJack) (jevent : jack_midi_event_t.t)
    (j : nat) :
  DISTRHO_PLUGIN_HAS_UI cfg = true ->
  jackProcess cfg state pos nframes midiInBuf st = Ok st' ->
  In jevent (visited cfg st midiInBuf) ->
  is_control_change jevent = true ->
  (j < PluginExporter.getParameterCount (fPlugin st))%nat ->
  cc_match (fPlugin st) (byte_at (jack_midi_event_t.buffer jevent) 1) j = true ->
  (forall i : nat, (i < j)%nat ->
     cc_match (fPlugin st) (byte_at (jack_midi_event_t.buffer jevent) 1) i = false) ->
  (j < length (fParametersChanged st))%nat ->
  fParametersChanged st' !! j = Some true
  /\ notified_values j (new_calls st' (idleCallback cfg false st'))
     = [PluginExporter.getParameterValue (fPlugin st') j]
  /\ fParametersChanged (idleCallback cfg false st') !! j = Some false.
Proof.
  intros Hui Hrun Hin Hcc Hj Hm Hfirst Hlen.
  rewrite jackProcess_spec in Hrun. apply Ok_inj in Hrun. subst st'.
  destruct (before_host_events_fields cfg state pos st) as (Hp & _ & Hpc & _).
  set (st3 := before_host_events cfg state pos st) in *.
  assert (Hflag : fParametersChanged (interpret_events cfg (visited cfg st midiInBuf) st3)
                    !! j = Some true).
  { apply (interpret_events_cc_sets_flag cfg _ st3 jevent j); try assumption.
    - unfold PluginExporter.getParameterCount. by rewrite Hp.
    - by rewrite (cc_match_parameters (fPlugin st)).
    - intros i Hi. rewrite (cc_match_parameters (fPlugin st)) by exact Hp. by apply Hfirst.
    - by rewrite Hpc. }
  set (st4 := interpret_events cfg (visited cfg st midiInBuf) st3) in *.
  assert (Hp4 : PluginExporter.parameters (fPlugin st4)
                = PluginExporter.parameters (fPlugin st)).
  { unfold st4, interpret_events.
    apply (foldl_preserves (fun s => PluginExporter.parameters (fPlugin s)
                                     = PluginExporter.parameters (fPlugin st)));
      [exact Hp|].
    intros s e Hs. destruct (keeps_interpret_event cfg e s) as (_ & _ & Hp' & _).
    congruence. }
  destruct (plugin_run_fields cfg nframes (merged_events cfg st midiInBuf) st4)
    as (Hpr & _ & Hpcr & _).
  set (st' := plugin_run cfg nframes (merged_events cfg st midiInBuf) st4) in *.
  assert (Hflag' : fParametersChanged st' !! j = Some true) by (by rewrite Hpcr).
  split; [exact Hflag'|].
  assert (Hout : PluginExporter.isParameterOutput (fPlugin st') j = false).
  { unfold cc_match in Hm. apply andb_true_iff in Hm as [Hm _].
    apply negb_true_iff in Hm. unfold PluginExporter.isParameterOutput in *.
    by rewrite Hpr, Hp4. }
  apply (idleCallback_input cfg st' j true); [|exact Hout|exact Hflag'].
  unfold PluginExporter.getParameterCount in *. by rewrite Hpr, Hp4.
Qed.

Lemma X2_control_change_is_notified_witness :
  DISTRHO_PLUGIN_HAS_UI full_build = true
  /\ @jackProcess reference_externals full_build JackTransportRolling
       sample_position 256 cc_cycle_input sample_state = Ok after_cc_cycle
  /\ In (cc_event 74 64) (visited full_build sample_state cc_cycle_input)
  /\ notified_values 2
       (new_calls after_cc_cycle
          (@idleCallback reference_externals full_build false after_cc_cycle))
     = [PluginExporter.getParameterValue (fPlugin after_cc_cycle) 2].
Proof.
  assert (H1 : DISTRHO_PLUGIN_HAS_UI full_build = true) by reflexivity.
  assert (H2 : @jackProcess reference_externals full_build JackTransportRolling
                 sample_position 256 cc_cycle_input sample_state = Ok after_cc_cycle)
    by (vm_compute; reflexivity).
  assert (H3 : In (cc_event 74 64) (visited full_build sample_state cc_cycle_input))
    by (vm_compute; left; reflexivity).
  assert (H4 : is_control_change (cc_event 74 64) = true) by reflexivity.
  assert (H5 : (2 < PluginExporter.getParameterCount (fPlugin sample_state))%nat)
    by (vm_compute; lia).
  assert (H6 : cc_match (fPlugin sample_state) 74 2 = true) by (vm_compute; reflexivity).
  assert (H7 : forall i : nat, (i < 2)%nat -> cc_match (fPlugin sample_state) 74 i = false).
  { intros i Hi. destruct i as [|[|i]]; [vm_compute; reflexivity ..|lia]. }
  assert (H8 : (2 < length (fParametersChanged sample_state))%nat) by (vm_compute; lia).
  destruct (@X2_control_change_is_notified reference_externals full_build
              JackTransportRolling sample_position 256 cc_cycle_input sample_state
              after_cc_cycle (cc_event 74 64) 2%nat H1 H2 H3 H4 H5 H6 H7 H8)
    as (_ & Hn & _).
  split; [exact H1|]. split; [exact H2|]. split; [exact H3|]. exact Hn.
Defined.

(** ** Program changes *)

Section Programs.
Context {ext : Externals} (cfg : BuildConfig).

Lemma program_change_not_control_change (jevent : jack_midi_event_t.t) :
  is_program_change jevent = true -> is_control_change jevent = false.
Proof.
  unfold is_program_change, is_control_change. intros H.
  apply andb_true_iff in H as [H _]. apply Z.eqb_eq in H. rewrite H. reflexivity.
Qed.

Lemma interpret_event_program_change (jevent : jack_midi_event_t.t) (st : PluginJack) :
  is_program_change jevent = true ->
  interpret_event cfg jevent st
  = if DISTRHO_PLUGIN_WANT_PROGRAMS cfg && selects_program (fPlugin st) jevent
    then let program := byte_at (jack_midi_event_t.buffer jevent) 1 in
         let st1 := plugin_loadProgram program st in
         if DISTRHO_PLUGIN_HAS_UI cfg then set_fProgramChanged program st1 else st1
    else st.
Proof.
  intros Hpc. pose proof (program_change_not_control_change _ Hpc) as Hcc.
  unfold selects_program. rewrite Hpc.
  unfold is_program_change in Hpc. unfold is_control_change in Hcc.
  unfold interpret_event. rewrite Hcc, Hpc.
  destruct (DISTRHO_PLUGIN_WANT_PROGRAMS cfg); simpl; [|reflexivity].
  by destruct (_ <? _).
Qed.

(** An event that selects no program leaves the pending program alone. *)
Lemma interpret_event_fProgramChanged (jevent : jack_midi_event_t.t) (st : PluginJack) :
  selects_program (fPlugin st) jevent = false ->
  fProgramChanged (interpret_event cfg jevent st) = fProgramChanged st.
Proof.
  intros Hsel. destruct (is_program_change jevent) eqn:Hpc.
  - rewrite interpret_event_program_change by exact Hpc.
    by rewrite Hsel, andb_false_r.
  - unfold interpret_event. rewrite control_change_spec. unfold cc_write.
    unfold is_program_change in Hpc. rewrite Hpc, andb_false_r.
    repeat case_match; reflexivity.
Qed.

Lemma selects_program_programCount (p p' : PluginExporter.t)
    (jevent : jack_midi_event_t.t) :
  PluginExporter.programCount p' = PluginExporter.programCount p ->
  selects_program p' jevent = selects_program p jevent.
Proof.
  intros H. unfold selects_program, PluginExporter.getProgramCount. by rewrite H.
Qed.

Lemma interpret_events_programCount (jevents : list jack_midi_event_t.t)
    (st : PluginJack) :
  PluginExporter.programCount (fPlugin (interpret_events cfg jevents st))
  = PluginExporter.programCount (fPlugin st).
Proof.
  unfold interpret_events.
  apply (foldl_preserves (fun s => PluginExporter.programCount (fPlugin s)
                                   = PluginExporter.programCount (fPlugin st)));
    [reflexivity|].
  intros s e Hs. destruct (keeps_interpret_event cfg e s) as (_ & _ & _ & Hc & _).
  congruence.
Qed.

Lemma interpret_events_fProgramChanged (jevents : list jack_midi_event_t.t) :
  forall st : PluginJack,
    Forall (fun e => selects_program (fPlugin st) e = false) jevents ->
    fProgramChanged (interpret_events cfg jevents st) = fProgramChanged st.
Proof.
  induction jevents as [|e l IH]; intros st Hall; [reflexivity|].
  apply Forall_cons in Hall as [He Hl].
  change (interpret_events cfg (e :: l) st)
    with (interpret_events cfg l (interpret_event cfg e st)).
  rewrite IH.
  - by apply interpret_event_fProgramChanged.
  - eapply Forall_impl; [exact Hl|]. intros e' He'. simpl in *.
    rewrite <- He'. apply selects_program_programCount.
    by destruct (keeps_interpret_event cfg e st) as (_ & _ & _ & Hc & _).
Qed.

(** [idleCallback] without a close signal, with the program notification
    made explicit. *)
Lemma idleCallback_program (st : PluginJack) :
  let pending := DISTRHO_PLUGIN_WANT_PROGRAMS cfg && (0 <=? fProgramChanged st) in
  new_calls st (idleCallback cfg false st)
  = (if pending then [UI_programLoaded (fProgramChanged st)] else [])
    ++ idle_calls st (PluginExporter.getParameterCount (fPlugin st))
    ++ [UI_exec_idle]
  /\ fProgramChanged (idleCallback cfg false st)
     = if pending then -1 else fProgramChanged st.
Proof.
  cbv zeta. unfold idleCallback, idle_parameters.
  set (st1 := if DISTRHO_PLUGIN_WANT_PROGRAMS cfg && (0 <=? fProgramChanged st)
              then set_fProgramChanged (-1)
                     (call (UI_programLoaded (fProgramChanged st)) st)
              else st).
  destruct (idle_loop st1 (PluginExporter.getParameterCount (fPlugin st1)))
    as (lo & pc & Hs & _).
  rewrite Hs. cbn [call calls fProgramChanged].
  assert (H1 : fPlugin st1 = fPlugin st
               /\ fLastOutputValues st1 = fLastOutputValues st
               /\ fParametersChanged st1 = fParametersChanged st).
  { unfold st1. by case_match. }
  destruct H1 as (Hp & Hlo & Hpc).
  assert (Hcalls : idle_calls st1 (PluginExporter.getParameterCount (fPlugin st1))
                   = idle_calls st (PluginExporter.getParameterCount (fPlugin st))).
  { unfold idle_calls, idle_note. by rewrite Hp, Hlo, Hpc. }
  rewrite Hcalls. unfold st1.
  destruct (DISTRHO_PLUGIN_WANT_PROGRAMS cfg && (0 <=? fProgramChanged st)); simpl.
  - split; [|reflexivity]. apply new_calls_app. simpl. by rewrite <- !app_assoc.
  - split; [|reflexivity]. apply new_calls_app. simpl. by rewrite <- !app_assoc.
Qed.

Lemma notified_programs_idle_calls (st : PluginJack) (n : nat) :
  notified_programs (idle_calls st n) = [].
Proof.
  unfold idle_calls, notified_programs. induction n as [|n IH]; [reflexivity|].
  rewrite seq_S, !flat_map_app, IH. simpl. rewrite app_nil_r.
  unfold idle_note. repeat case_match; reflexivity.
Qed.

Lemma notified_programs_idleCallback (st : PluginJack) :
  notified_programs (new_calls st (idleCallback cfg false st))
  = if DISTRHO_PLUGIN_WANT_PROGRAMS cfg && (0 <=? fProgramChanged st)
    then [fProgramChanged st] else [].
Proof.
  destruct (idleCallback_program st) as [-> _].
  unfold notified_programs. rewrite !flat_map_app.
  fold (notified_programs (idle_calls st (PluginExporter.getParameterCount (fPlugin st)))).
  rewrite notified_programs_idle_calls. by case_match.
Qed.

End Programs.

(** What the interpretation of one program change on channel 1 does to the
    bridge it finds. *)
Lemma interpret_program_change {ext : Externals} (cfg : BuildConfig)
    (jevent : jack_midi_event_t.t) (st : PluginJack) :
  is_program_change jevent = true ->
  let program := byte_at (jack_midi_event_t.buffer jevent) 1 in
  let st' := interpret_event cfg jevent st in
  (DISTRHO_PLUGIN_WANT_PROGRAMS cfg = true ->
   program < PluginExporter.getProgramCount (fPlugin st) ->
     calls st' = calls st ++ [Plugin_loadProgram program]
     /\ fPlugin st' = PluginExporter.loadProgram (fPlugin st) program
     /\ fParametersChanged st' = fParametersChanged st
     /\ fProgramChanged st'
        = if DISTRHO_PLUGIN_HAS_UI cfg then program else fProgramChanged st)
  /\ (DISTRHO_PLUGIN_WANT_PROGRAMS cfg = true ->
      PluginExporter.getProgramCount (fPlugin st) <= program -> st' = st)
  /\ (DISTRHO_PLUGIN_WANT_PROGRAMS cfg = false -> st' = st).
Proof.
  intros Hpc. cbv zeta. rewrite interpret_event_program_change by exact Hpc.
  unfold selects_program. rewrite Hpc. cbn [andb]. split; [|split].
  - intros -> Hlt. apply Z.ltb_lt in Hlt. rewrite Hlt. cbn [andb].
    destruct (DISTRHO_PLUGIN_HAS_UI cfg); simpl; repeat split.
  - intros -> Hge. apply Z.ltb_ge in Hge. by rewrite Hge.
  - intros ->. reflexivity.
Qed.

(** X3: a program change on channel 1 in a cycle.  When the cycle visits
    the event with bytes [0xC0, program], the cycle is: the events before
    it, this event, the events after it, then [run].  In a build with
    programs and when the program exists, handling the event loads it into
    the DSP core, by a call that appears in the calls of the cycle, and,
    with a UI, records it as the pending program; it sets no parameter
    flag, and when no later event of the cycle is a control change or a
    program change the DSP core runs on the program so loaded.  A program
    that does not exist, or a build without programs, makes the event
    change nothing. *)
Theorem X3_program_change_selects {ext : Externals} (cfg : BuildConfig)
    (state : jack_transport_state_t) (pos : jack_position_t.t) (nframes : Z)
    (midiInBuf : MidiInBuf) (st st' : PluginJack)
    (pre post : list jack_midi_event_t.t) (jevent : jack_midi_event_t.t) :
  jackProcess cfg state pos nframes midiInBuf st = Ok st' ->
  visited cfg st midiInBuf = pre ++ jevent :: post ->
  is_program_change jevent = true ->
  let program := byte_at (jack_midi_event_t.buffer jevent) 1 in
  let reached := interpret_events cfg pre (before_host_events cfg state pos st) in
  let handled := interpret_event cfg jevent reached in
  st' = plugin_run cfg nframes (merged_events cfg st midiInBuf)
          (interpret_events cfg post handled)
  /\ (DISTRHO_PLUGIN_WANT_PROGRAMS cfg = true ->
      program < PluginExporter.getProgramCount (fPlugin st) ->
        new_calls reached handled = [Plugin_loadProgram program]
        /\ In (Plugin_loadProgram program) (new_calls st st')
        /\ fPlugin handled = PluginExporter.loadProgram (fPlugin reached) program
        /\ fParametersChanged handled = fParametersChanged reached
        /\ fProgramChanged handled
           = (if DISTRHO_PLUGIN_HAS_UI cfg then program else fProgramChanged reached)
        /\ (Forall (fun e => is_control_change e = false
                             /\ is_program_change e = false) post ->
            fPlugin st'
            = PluginExporter.run
                (PluginExporter.loadProgram (fPlugin reached) program) nframes
                (if DISTRHO_PLUGIN_WANT_MIDI_INPUT cfg
                 then Some (merged_events cfg st midiInBuf) else None)))
  /\ (DISTRHO_PLUGIN_WANT_PROGRAMS cfg = true ->
      PluginExporter.getProgramCount (fPlugin st) <= program -> handled = reached)
  /\ (DISTRHO_PLUGIN_WANT_PROGRAMS cfg = false -> handled = reached).
Proof.
  intros Hrun Hvis Hpc. cbv zeta.
  destruct (jackProcess_around cfg state pos nframes midiInBuf st st' pre post jevent
              Hrun Hvis) as (Hst' & _ & Hcount & _ & _ & Htrace).
  set (reached := interpret_events cfg pre (before_host_events cfg state pos st)) in *.
  set (handled := interpret_event cfg jevent reached) in *.
  destruct (interpret_program_change cfg jevent reached Hpc) as (Hin & Hout & Hnone).
  fold handled in Hin, Hout, Hnone.
  assert (Hc : PluginExporter.getProgramCount (fPlugin reached)
               = PluginExporter.getProgramCount (fPlugin st)).
  { unfold PluginExporter.getProgramCount. by rewrite Hcount. }
  rewrite Hc in Hin, Hout.
  split; [exact Hst'|]. split; [|split; [exact Hout | exact Hnone]].
  intros Hprog Hlt. destruct (Hin Hprog Hlt) as (Hcalls & Hp & Hf & Hpend).
  split; [by apply new_calls_app|].
  split.
  { destruct (Htrace _ Hcalls) as (k1 & k2 & ->).
    apply in_or_app. right. apply in_or_app. left. by left. }
  split; [exact Hp|]. split; [exact Hf|]. split; [exact Hpend|].
  intros Hpost. rewrite Hst', (interpret_events_skip cfg post handled Hpost).
  unfold plugin_run.
  destruct (DISTRHO_PLUGIN_WANT_MIDI_INPUT cfg); cbn [fPlugin call set_fPlugin];
    by rewrite Hp.
Qed.

Lemma X3_program_change_selects_witness :
  @jackProcess reference_externals full_build JackTransportRolling
    sample_position 256 program_cycle_input sample_state = Ok after_program_cycle
  /\ visited full_build sample_state program_cycle_input
     = [] ++ program_event 1 :: [note_on_event 3; program_event 0]
  /\ is_program_change (program_event 1) = true
  /\ DISTRHO_PLUGIN_WANT_PROGRAMS full_build = true
  /\ 1 < PluginExporter.getProgramCount (fPlugin sample_state)
  /\ In (Plugin_loadProgram 1) (new_calls sample_state after_program_cycle).
Proof.
  assert (Hrun : @jackProcess reference_externals full_build JackTransportRolling
                   sample_position 256 program_cycle_input sample_state
                 = Ok after_program_cycle)
    by (vm_compute; reflexivity).
  assert (Hvis : visited full_build sample_state program_cycle_input
                 = [] ++ program_event 1 :: [note_on_event 3; program_event 0])
    by (vm_compute; reflexivity).
  assert (H0 : is_program_change (program_event 1) = true) by reflexivity.
  assert (H1 : DISTRHO_PLUGIN_WANT_PROGRAMS full_build = true) by reflexivity.
  assert (H2 : 1 < PluginExporter.getProgramCount (fPlugin sample_state))
    by (vm_compute; reflexivity).
  destruct (@X3_program_change_selects reference_externals full_build
              JackTransportRolling sample_position 256 program_cycle_input
              sample_state after_program_cycle [] [note_on_event 3; program_event 0]
              (program_event 1) Hrun Hvis H0) as (_ & Hin & _ & _).
  destruct (Hin H1 H2) as (_ & Hcall & _).
  split; [exact Hrun|]. split; [exact Hvis|]. split; [exact H0|].
  split; [exact H1|]. split; [exact H2 | exact Hcall].
Defined.

(** X4: program changes are coalesced.  In a build with a UI and
    programs, when the host events a cycle visits hold several program
    changes, every existing program is loaded in turn but only the last one
    selected stays pending: the next idle callback sends [programLoaded]
    for it alone, and the idle callback after that sends none. *)
Theorem X4_last_program_change_is_notified {ext : Externals} (cfg : BuildConfig)
    (state : jack_transport_state_t) (pos : jack_position_t.t) (nframes : Z)
    (midiInBuf : MidiInBuf) (st st' : PluginJack)
    (before after : list jack_midi_event_t.t) (jevent : jack_midi_event_t.t) :
  DISTRHO_PLUGIN_HAS_UI cfg = true ->
  DISTRHO_PLUGIN_WANT_PROGRAMS cfg = true ->
  jackProcess cfg state pos nframes midiInBuf st = Ok st' ->
  visited cfg st midiInBuf = before ++ jevent :: after ->
  selects_program (fPlugin st) jevent = true ->
  0 <= byte_at (jack_midi_event_t.buffer jevent) 1 ->
  Forall (fun e => selects_program (fPlugin st) e = false) after ->
  let program := byte_at (jack_midi_event_t.buffer jevent) 1 in
  let idle := idleCallback cfg false st' in
  fProgramChanged st' = program
  /\ notified_programs (new_calls st' idle) = [program]
  /\ fProgramChanged idle = -1
  /\ notified_programs (new_calls idle (idleCallback cfg false idle)) = [].
Proof.
  intros Hui Hprog Hrun Hvis Hsel Hpos Hafter. cbv zeta.
  rewrite jackProcess_spec in Hrun. apply Ok_inj in Hrun. subst st'.
  destruct (before_host_events_fields cfg state pos st) as (_ & Hc3 & _).
  set (st3 := before_host_events cfg state pos st) in *.
  rewrite Hvis.
  set (s1 := interpret_events cfg before st3).
  assert (Heq : interpret_events cfg (before ++ jevent :: after) st3
                = interpret_events cfg after (interpret_event cfg jevent s1)).
  { unfold s1, interpret_events. by rewrite foldl_app. }
  rewrite Heq. clear Heq.
  assert (Hc1 : PluginExporter.programCount (fPlugin s1)
                = PluginExporter.programCount (fPlugin st)).
  { unfold s1. by rewrite interpret_events_programCount. }
  assert (Hsel1 : selects_program (fPlugin s1) jevent = true).
  { by rewrite (selects_program_programCount (fPlugin st)). }
  assert (Hpc : is_program_change jevent = true).
  { unfold selects_program in Hsel. by apply andb_true_iff in Hsel as [? _]. }
  set (s2 := interpret_event cfg jevent s1).
  assert (Hs2 : fProgramChanged s2 = byte_at (jack_midi_event_t.buffer jevent) 1
                /\ PluginExporter.programCount (fPlugin s2)
                   = PluginExporter.programCount (fPlugin st)).
  { unfold s2. rewrite interpret_event_program_change by exact Hpc.
    rewrite Hprog, Hsel1, Hui. simpl. by split. }
  destruct Hs2 as [Hp2 Hc2].
  assert (Hp3 : fProgramChanged (interpret_events cfg after s2)
                = byte_at (jack_midi_event_t.buffer jevent) 1).
  { rewrite interpret_events_fProgramChanged; [exact Hp2|].
    eapply Forall_impl; [exact Hafter|]. intros e He. simpl in *.
    rewrite <- He. by apply selects_program_programCount. }
  destruct (plugin_run_fields cfg nframes
              (merged_events cfg st midiInBuf) (interpret_events cfg after s2))
    as (_ & _ & _ & Hpr & _).
  match goal with
  | |- fProgramChanged ?s = _ /\ _ => set (st' := s) in *
  end.
  assert (Hp' : fProgramChanged st' = byte_at (jack_midi_event_t.buffer jevent) 1)
    by congruence.
  assert (Hcond : DISTRHO_PLUGIN_WANT_PROGRAMS cfg && (0 <=? fProgramChanged st') = true).
  { rewrite Hprog, Hp'. simpl. by apply Z.leb_le. }
  split; [exact Hp'|]. split.
  { rewrite notified_programs_idleCallback, Hcond. by rewrite Hp'. }
  destruct (idleCallback_program cfg st') as [_ Hidle]. cbv zeta in Hidle.
  rewrite Hcond in Hidle. split; [exact Hidle|].
  rewrite notified_programs_idleCallback, Hidle, Hprog. reflexivity.
Qed.

Lemma X4_last_program_change_is_notified_witness :
  DISTRHO_PLUGIN_HAS_UI full_build = true
  /\ DISTRHO_PLUGIN_WANT_PROGRAMS full_build = true
  /\ @jackProcess reference_externals full_build JackTransportRolling
       sample_position 256 program_cycle_input sample_state = Ok after_program_cycle
  /\ visited full_build sample_state program_cycle_input
     = [program_event 1; note_on_event 3] ++ program_event 0 :: []
  /\ selects_program (fPlugin sample_state) (program_event 0) = true
  /\ notified_programs
       (new_calls after_program_cycle
          (@idleCallback reference_externals full_build false after_program_cycle))
     = [0].
Proof.
  assert (H1 : DISTRHO_PLUGIN_HAS_UI full_build = true) by reflexivity.
  assert (H2 : DISTRHO_PLUGIN_WANT_PROGRAMS full_build = true) by reflexivity.
  assert (H3 : @jackProcess reference_externals full_build JackTransportRolling
                 sample_position 256 program_cycle_input sample_state
               = Ok after_program_cycle) by (vm_compute; reflexivity).
  assert (H4 : visited full_build sample_state program_cycle_input
               = [program_event 1; note_on_event 3] ++ program_event 0 :: [])
    by (vm_compute; reflexivity).
  assert (H5 : selects_program (fPlugin sample_state) (program_event 0) = true)
    by (vm_compute; reflexivity).
  assert (H6 : 0 <= byte_at (jack_midi_event_t.buffer (program_event 0)) 1)
    by (vm_compute; discriminate).
  assert (H7 : Forall (fun e => selects_program (fPlugin sample_state) e = false)
                 (@nil jack_midi_event_t.t)) by constructor.
  destruct (@X4_last_program_change_is_notified reference_externals full_build
              JackTransportRolling sample_position 256 program_cycle_input
              sample_state after_program_cycle [program_event 1; note_on_event 3] []
              (program_event 0) H1 H2 H3 H4 H5 H6 H7) as (_ & Hn & _).
  split; [exact H1|]. split; [exact H2|]. split; [exact H3|]. split; [exact H4|].
  split; [exact H5|]. exact Hn.
Defined.

(** ** The trigger step, twice *)

Section TriggerTwice.
Context {ext : Externals}.

Lemma trigger_calls_none (p : PluginExporter.t) (n : nat) :
  (forall i : nat, (i < n)%nat -> trigger_reset p i = false) ->
  trigger_calls p n = [].
Proof.
  intros H. unfold trigger_calls. induction n as [|n IH]; [reflexivity|].
  rewrite seq_S, flat_map_app, IH by (intros; apply H; lia). simpl.
  by rewrite (H n) by lia.
Qed.

End TriggerTwice.

(** X5: the trigger step is idempotent.  When the comparison reports
    every default equal to itself and every parameter has a value, a
    second pass over the triggers writes nothing: after one pass each
    trigger is at its default or was already reported equal to it. *)
Theorem X5_trigger_step_is_idempotent {ext : Externals} (st : PluginJack) :
  (forall i : nat,
      (i < PluginExporter.getParameterCount (fPlugin st))%nat ->
      d_isNotEqual
        (ParameterRanges.def (PluginExporter.getParameterRanges (fPlugin st) i))
        (ParameterRanges.def (PluginExporter.getParameterRanges (fPlugin st) i))
      = false) ->
  (PluginExporter.getParameterCount (fPlugin st)
   <= length (PluginExporter.values (fPlugin st)))%nat ->
  (forall i : nat,
      (i < PluginExporter.getParameterCount (fPlugin st))%nat ->
      trigger_reset (fPlugin (updateParameterTriggers st)) i = false)
  /\ updateParameterTriggers (updateParameterTriggers st) = updateParameterTriggers st.
Proof.
  intros Hrefl Hlen.
  destruct (updateParameterTriggers_spec st) as (vs & Hs & Hvs).
  assert (Hnone : forall i : nat,
            (i < PluginExporter.getParameterCount (fPlugin st))%nat ->
            trigger_reset (fPlugin (updateParameterTriggers st)) i = false).
  { intros i Hi. rewrite Hs. cbn [fPlugin].
    unfold trigger_reset, is_trigger, PluginExporter.getParameterValue.
    change (PluginExporter.getParameterHints
              (PluginExporter.with_values vs (fPlugin st)) i)
      with (PluginExporter.getParameterHints (fPlugin st) i).
    change (PluginExporter.getParameterRanges
              (PluginExporter.with_values vs (fPlugin st)) i)
      with (PluginExporter.getParameterRanges (fPlugin st) i).
    cbn [PluginExporter.values PluginExporter.with_values].
    rewrite Hvs.
    replace (i <? PluginExporter.getParameterCount (fPlugin st))%nat with true
      by (symmetry; by apply Nat.ltb_lt).
    destruct (lookup_lt_is_Some_2 (PluginExporter.values (fPlugin st)) i
                ltac:(lia)) as [v Hv].
    rewrite Hv. cbn [andb].
    destruct (trigger_reset (fPlugin st) i) eqn:Hr; simpl.
    - rewrite (Hrefl i Hi). apply andb_false_r.
    - unfold trigger_reset, is_trigger, PluginExporter.getParameterValue in Hr.
      rewrite Hv in Hr. exact Hr. }
  split; [exact Hnone|].
  destruct (updateParameterTriggers_spec (updateParameterTriggers st))
    as (vs2 & Hs2 & Hvs2).
  rewrite Hs2.
  assert (Hcount : PluginExporter.getParameterCount (fPlugin (updateParameterTriggers st))
                   = PluginExporter.getParameterCount (fPlugin st)) by (by rewrite Hs).
  rewrite Hcount, trigger_calls_none by exact Hnone.
  assert (Evs : vs2 = PluginExporter.values (fPlugin (updateParameterTriggers st))).
  { apply list_eq. intros i. rewrite Hvs2, Hcount.
    destruct (i <? PluginExporter.getParameterCount (fPlugin st))%nat eqn:Hi;
      [|reflexivity].
    apply Nat.ltb_lt in Hi. by rewrite (Hnone i Hi). }
  rewrite Evs, app_nil_r.
  destruct (updateParameterTriggers st) as [[ps vs' pc] ? ? ? ? ? ?]. reflexivity.
Qed.

Lemma X5_trigger_step_is_idempotent_witness :
  (PluginExporter.getParameterCount (fPlugin sample_state)
   <= length (PluginExporter.values (fPlugin sample_state)))%nat
  /\ @updateParameterTriggers reference_externals
       (@updateParameterTriggers reference_externals sample_state)
     = @updateParameterTriggers reference_externals sample_state.
Proof.
  assert (H1 : forall i : nat,
            (i < PluginExporter.getParameterCount (fPlugin sample_state))%nat ->
            @d_isNotEqual reference_externals
              (ParameterRanges.def
                 (PluginExporter.getParameterRanges (fPlugin sample_state) i))
              (ParameterRanges.def
                 (PluginExporter.getParameterRanges (fPlugin sample_state) i))
            = false).
  { intros i Hi. destruct i as [|[|[|[|i]]]]; [vm_compute; reflexivity ..|].
    vm_compute in Hi. lia. }
  assert (H2 : (PluginExporter.getParameterCount (fPlugin sample_state)
                <= length (PluginExporter.values (fPlugin sample_state)))%nat)
    by (vm_compute; lia).
  destruct (@X5_trigger_step_is_idempotent reference_externals sample_state H1 H2)
    as [_ H].
  split; [exact H2 | exact H].
Defined.

(** ** Notes from the UI *)

Lemma length_note_bytes (notes : list (Z * Z * Z)) :
  length (flat_map note_bytes notes) = (3 * length notes)%nat.
Proof.
  induction notes as [|[[c n] v] notes IH]; [reflexivity|].
  cbn [flat_map note_bytes length app]. rewrite IH. lia.
Qed.

Lemma sendNote_ring (channel note velocity : Z) (st : PluginJack)
    (notes : list (Z * Z * Z)) :
  ring_holds (fNotesRingBuffer st) notes ->
  valid_note (channel, note, velocity) ->
  ((3 * length notes + 3 <= RingBuffer.capacity (fNotesRingBuffer st))%nat ->
   ring_holds (fNotesRingBuffer (sendNote channel note velocity st))
     (notes ++ [(channel, note, velocity)]))
  /\ ((RingBuffer.capacity (fNotesRingBuffer st) < 3 * length notes + 3)%nat ->
      fNotesRingBuffer (sendNote channel note velocity st) = fNotesRingBuffer st)
  /\ RingBuffer.capacity (fNotesRingBuffer (sendNote channel note velocity st))
     = RingBuffer.capacity (fNotesRingBuffer st).
Proof.
  intros (Hr & Hp & Hi & Hn) Hv. unfold sendNote, RingBuffer.writeCustomData.
  rewrite Hp, Hr, length_note_bytes. cbn [length app].
  destruct (fNotesRingBuffer st) as [cap readable pending inv] eqn:Hrb.
  cbn [RingBuffer.capacity RingBuffer.readable RingBuffer.pending
       RingBuffer.invalidateCommit] in *. subst.
  destruct (3 * length notes + 0 + 3 <=? cap)%nat eqn:Hfit;
    unfold RingBuffer.commitWrite; cbn.
  - apply Nat.leb_le in Hfit. split; [|split; [lia|reflexivity]].
    intros _. unfold ring_holds. cbn. rewrite flat_map_app. cbn.
    repeat split. apply Forall_app. split; [exact Hn|]. by constructor.
  - apply Nat.leb_gt in Hfit. split; [lia|]. split; reflexivity.
Qed.

(** X6: a note either is queued whole or is dropped.  When the ring
    buffer holds the records of [notes] and a note is sent, the buffer
    holds the records of [notes] followed by the new one if three more
    bytes fit its capacity; otherwise it is left exactly as it was.
    Nothing else in the bridge changes. *)
Theorem X6_sendNote_queues_or_drops (channel note velocity : Z)
    (st : PluginJack) (notes : list (Z * Z * Z)) :
  ring_holds (fNotesRingBuffer st) notes ->
  valid_note (channel, note, velocity) ->
  let st' := sendNote channel note velocity st in
  ((3 * length notes + 3 <= RingBuffer.capacity (fNotesRingBuffer st))%nat ->
   ring_holds (fNotesRingBuffer st') (notes ++ [(channel, note, velocity)])
   /\ queued_records st' = queued_records st ++ [note_bytes (channel, note, velocity)])
  /\ ((RingBuffer.capacity (fNotesRingBuffer st) < 3 * length notes + 3)%nat ->
      fNotesRingBuffer st' = fNotesRingBuffer st)
  /\ st' = set_fNotesRingBuffer (fNotesRingBuffer st') st.
Proof.
  intros Hring Hv. cbv zeta.
  destruct (sendNote_ring channel note velocity st notes Hring Hv) as (Hfit & Hdrop & _).
  split; [|split; [exact Hdrop|]].
  - intros Hcap. specialize (Hfit Hcap). split; [exact Hfit|].
    unfold queued_records. destruct Hfit as (-> & _). destruct Hring as (-> & _).
    by rewrite !records_note_bytes, map_app.
  - unfold sendNote.
    destruct (RingBuffer.writeCustomData _ _) as [b1 rb1].
    by destruct (RingBuffer.commitWrite rb1) as [b2 rb2].
Qed.

Lemma X6_sendNote_queues_or_drops_witness :
  ring_holds (fNotesRingBuffer (sendNote 0 60 100 cramped_state)) [(0, 60, 100)]
  /\ valid_note (1, 61, 0)
  /\ (RingBuffer.capacity (fNotesRingBuffer (sendNote 0 60 100 cramped_state))
      < 3 * 1 + 3)%nat
  /\ fNotesRingBuffer (sendNote 1 61 0 (sendNote 0 60 100 cramped_state))
     = fNotesRingBuffer (sendNote 0 60 100 cramped_state).
Proof.
  assert (H1 : ring_holds (fNotesRingBuffer (sendNote 0 60 100 cramped_state))
                 [(0, 60, 100)]).
  { unfold ring_holds. vm_compute. repeat split; try discriminate.
    constructor; [|constructor]. repeat split; discriminate. }
  assert (H2 : valid_note (1, 61, 0)) by (vm_compute; repeat split; discriminate).
  assert (H3 : (RingBuffer.capacity (fNotesRingBuffer (sendNote 0 60 100 cramped_state))
                < 3 * 1 + 3)%nat) by (vm_compute; lia).
  destruct (X6_sendNote_queues_or_drops 1 61 0
              (sendNote 0 60 100 cramped_state) [(0, 60, 100)] H1 H2)
    as (_ & Hdrop & _).
  split; [exact H1|]. split; [exact H2|]. split; [exact H3|]. exact (Hdrop H3).
Defined.

Lemma send_notes_ring (notes : list (Z * Z * Z)) :
  forall (st : PluginJack) (queued : list (Z * Z * Z)),
    ring_holds (fNotesRingBuffer st) queued ->
    Forall valid_note notes ->
    (3 * (length queued + length notes)
     <= RingBuffer.capacity (fNotesRingBuffer st))%nat ->
    ring_holds (fNotesRingBuffer (send_notes notes st)) (queued ++ notes).
Proof.
  induction notes as [|[[c n] v] notes IH]; intros st queued Hring Hvalid Hcap.
  - by rewrite app_nil_r.
  - apply Forall_cons in Hvalid as [Hv Hvalid]. cbn [length] in Hcap.
    destruct (sendNote_ring c n v st queued Hring Hv) as (Hfit & _ & Hsame).
    change (send_notes ((c, n, v) :: notes) st)
      with (send_notes notes (sendNote c n v st)).
    replace (queued ++ (c, n, v) :: notes) with ((queued ++ [(c, n, v)]) ++ notes)
      by (by rewrite <- app_assoc).
    apply IH; [apply Hfit; lia | exact Hvalid |].
    rewrite Hsame, length_app. cbn [length]. lia.
Qed.

Lemma send_notes_fields (notes : list (Z * Z * Z)) (st : PluginJack) :
  fPlugin (send_notes notes st) = fPlugin st
  /\ calls (send_notes notes st) = calls st
  /\ fParametersChanged (send_notes notes st) = fParametersChanged st.
Proof.
  unfold send_notes.
  apply (foldl_preserves (fun s => fPlugin s = fPlugin st /\ calls s = calls st
                                   /\ fParametersChanged s = fParametersChanged st));
    [done|].
  intros s [[c n] v] Hs. unfold sendNote.
  destruct (RingBuffer.writeCustomData _ _) as [b1 rb1].
  by destruct (RingBuffer.commitWrite rb1) as [b2 rb2].
Qed.

Lemma queued_records_jackProcess {ext : Externals} (cfg : BuildConfig)
    (state : jack_transport_state_t) (pos : jack_position_t.t) (nframes : Z)
    (midiInBuf : MidiInBuf) (st st' : PluginJack) :
  DISTRHO_PLUGIN_WANT_MIDI_INPUT cfg = true ->
  DISTRHO_PLUGIN_HAS_UI cfg = true ->
  jackProcess cfg state pos nframes midiInBuf st = Ok st' ->
  queued_records st' = drop 512 (queued_records st).
Proof.
  intros Hmidi Hui Hrun. unfold queued_records at 1.
  rewrite (fNotesRingBuffer_jackProcess cfg state pos nframes midiInBuf st st' Hrun).
  rewrite Hmidi, Hui. cbn [andb ring_after_read RingBuffer.readable].
  rewrite records_drop. unfold ui_events. rewrite Hmidi, Hui. cbn [andb].
  rewrite length_map, length_take. fold (queued_records st).
  destruct (decide (512 <= length (queued_records st))%nat).
  - by rewrite Nat.min_l.
  - rewrite Nat.min_r by lia. by rewrite !drop_ge by lia.
Qed.

(** X7: notes make the round trip from the UI to the DSP core.  In a
    build with a UI and MIDI input, when the ring buffer is empty and the
    UI sends at most 512 notes that fit its capacity, the next cycle hands
    the DSP core one event per note, in the order sent and ahead of the
    host events, each with the bytes [sendNote] wrote; the ring buffer is
    empty again afterwards. *)
Theorem X7_notes_round_trip {ext : Externals} (cfg : BuildConfig)
    (state : jack_transport_state_t) (pos : jack_position_t.t) (nframes : Z)
    (midiInBuf : MidiInBuf) (st st' : PluginJack) (notes : list (Z * Z * Z)) :
  DISTRHO_PLUGIN_HAS_UI cfg = true ->
  DISTRHO_PLUGIN_WANT_MIDI_INPUT cfg = true ->
  ring_holds (fNotesRingBuffer st) [] ->
  Forall valid_note notes ->
  (length notes <= 512)%nat ->
  (3 * length notes <= RingBuffer.capacity (fNotesRingBuffer st))%nat ->
  jackProcess cfg state pos nframes midiInBuf (send_notes notes st) = Ok st' ->
  run_events st'
  = Some (map (fun n => note_event (note_bytes n)) notes
          ++ map to_MidiEvent (fetched (take (512 - length notes) midiInBuf)))
  /\ queued_records st' = [].
Proof.
  intros Hui Hmidi Hempty Hvalid Hlen Hcap Hrun.
  pose proof (send_notes_ring notes st [] Hempty Hvalid ltac:(simpl; lia)) as Hring.
  cbn [app] in Hring.
  assert (Hq : queued_records (send_notes notes st) = map note_bytes notes).
  { unfold queued_records. destruct Hring as (-> & _). apply records_note_bytes. }
  assert (Hu : ui_events cfg (send_notes notes st)
               = map (fun n => note_event (note_bytes n)) notes).
  { unfold ui_events. rewrite Hmidi, Hui, Hq. cbn [andb].
    rewrite take_ge by (rewrite length_map; lia). by rewrite map_map. }
  split.
  - rewrite (run_events_jackProcess cfg _ _ _ _ _ _ Hmidi Hrun).
    unfold merged_events, visited. rewrite Hmidi, Hu. by rewrite length_map.
  - rewrite (queued_records_jackProcess cfg _ _ _ _ _ _ Hmidi Hui Hrun), Hq.
    apply drop_ge. rewrite length_map. lia.
Qed.

Lemma X7_notes_round_trip_witness :
  DISTRHO_PLUGIN_HAS_UI full_build = true
  /\ DISTRHO_PLUGIN_WANT_MIDI_INPUT full_build = true
  /\ ring_holds (fNotesRingBuffer sample_state) []
  /\ @jackProcess reference_externals full_build JackTransportRolling
       sample_position 256 []
       (send_notes [(0, 60, 100); (0, 64, 90); (0, 60, 0)] sample_state)
     = Ok after_three_notes_cycle
  /\ run_events after_three_notes_cycle
     = Some [note_event [0x90; 60; 100]; note_event [0x90; 64; 90];
             note_event [0x80; 60; 0]].
Proof.
  assert (H1 : DISTRHO_PLUGIN_HAS_UI full_build = true) by reflexivity.
  assert (H2 : DISTRHO_PLUGIN_WANT_MIDI_INPUT full_build = true) by reflexivity.
  assert (H3 : ring_holds (fNotesRingBuffer sample_state) []).
  { unfold ring_holds. vm_compute. repeat split. constructor. }
  assert (H4 : Forall valid_note [(0, 60, 100); (0, 64, 90); (0, 60, 0)]).
  { repeat constructor; discriminate. }
  assert (H5 : (length [(0, 60, 100); (0, 64, 90); (0, 60, 0)] <= 512)%nat)
    by (cbn [length]; lia).
  assert (H6 : (3 * length [(0, 60, 100); (0, 64, 90); (0, 60, 0)]
                <= RingBuffer.capacity (fNotesRingBuffer sample_state))%nat)
    by (vm_compute; lia).
  assert (H7 : @jackProcess reference_externals full_build JackTransportRolling
                 sample_position 256 []
                 (send_notes [(0, 60, 100); (0, 64, 90); (0, 60, 0)] sample_state)
               = Ok after_three_notes_cycle) by (vm_compute; reflexivity).
  destruct (@X7_notes_round_trip reference_externals full_build JackTransportRolling
              sample_position 256 [] sample_state after_three_notes_cycle
              [(0, 60, 100); (0, 64, 90); (0, 60, 0)] H1 H2 H3 H4 H5 H6 H7)
    as (Hr & _).
  split; [exact H1|]. split; [exact H2|]. split; [exact H3|]. split; [exact H7|].
  rewrite Hr. vm_compute. reflexivity.
Defined.

(** ** Parameter writes and the UI *)

(** X8: which parameter writes come back to the UI.  In a build with a
    UI, a value change requested by the DSP core for an input parameter is
    notified by the next idle callback, once and with the requested value.
    A value set from the UI itself sets no flag: with a clear flag the next
    idle callback notifies nothing for that parameter. *)
Theorem X8_requests_are_echoed_ui_writes_are_not {ext : Externals} (cfg : BuildConfig)
    (index : nat) (value : float) (st : PluginJack) :
  DISTRHO_PLUGIN_HAS_UI cfg = true ->
  (index < PluginExporter.getParameterCount (fPlugin st))%nat ->
  PluginExporter.isParameterOutput (fPlugin st) index = false ->
  (index < length (fParametersChanged st))%nat ->
  (index < length (PluginExporter.values (fPlugin st)))%nat ->
  let requested := snd (requestParameterValueChange cfg index value st) in
  let written := plugin_setParameterValue index value st in
  notified_values index (new_calls requested (idleCallback cfg false requested))
  = [value]
  /\ (fParametersChanged st !! index = Some false ->
      notified_values index (new_calls written (idleCallback cfg false written)) = []).
Proof.
  intros Hui Hi Hout Hflags Hvalues. cbv zeta. split.
  - unfold requestParameterValueChange.
    replace (index <? PluginExporter.getParameterCount (fPlugin st))%nat with true
      by (symmetry; by apply Nat.ltb_lt).
    rewrite Hui. cbn [negb snd].
    match goal with
    | |- notified_values _ (new_calls ?s _) = _ => set (st1 := s)
    end.
    destruct (idleCallback_input cfg st1 index true) as [Hn _];
      [exact Hi | exact Hout | by apply list_lookup_insert_eq |].
    rewrite Hn. unfold st1, PluginExporter.getParameterValue. simpl.
    by rewrite list_lookup_insert_eq.
  - intros Hclear.
    destruct (idleCallback_input cfg (plugin_setParameterValue index value st)
                index false) as [Hn _]; [exact Hi | exact Hout | exact Hclear |].
    exact Hn.
Qed.

Lemma X8_requests_are_echoed_ui_writes_are_not_witness :
  DISTRHO_PLUGIN_HAS_UI full_build = true
  /\ (2 < PluginExporter.getParameterCount (fPlugin sample_state))%nat
  /\ PluginExporter.isParameterOutput (fPlugin sample_state) 2 = false
  /\ notified_values 2
       (new_calls (snd (requestParameterValueChange full_build 2 (F32.of_Z 7)
                          sample_state))
          (@idleCallback reference_externals full_build false
             (snd (requestParameterValueChange full_build 2 (F32.of_Z 7)
                     sample_state))))
     = [F32.of_Z 7].
Proof.
  assert (H1 : DISTRHO_PLUGIN_HAS_UI full_build = true) by reflexivity.
  assert (H2 : (2 < PluginExporter.getParameterCount (fPlugin sample_state))%nat)
    by (vm_compute; lia).
  assert (H3 : PluginExporter.isParameterOutput (fPlugin sample_state) 2 = false)
    by (vm_compute; reflexivity).
  assert (H4 : (2 < length (fParametersChanged sample_state))%nat) by (vm_compute; lia).
  assert (H5 : (2 < length (PluginExporter.values (fPlugin sample_state)))%nat)
    by (vm_compute; lia).
  destruct (@X8_requests_are_echoed_ui_writes_are_not reference_externals full_build
              2%nat (F32.of_Z 7) sample_state H1 H2 H3 H4 H5) as [Hn _].
  split; [exact H1|]. split; [exact H2|]. split; [exact H3|]. exact Hn.
Defined.

(** ** Pending flags across cycles *)

(** X9: a cycle never clears a parameter flag.  A flag of
    [fParametersChanged] that is set when a cycle starts is still set when
    it ends, whatever the host delivers: a pending notification is not lost
    to the audio thread. *)
Theorem X9_cycle_keeps_pending_flags {ext : Externals} (cfg : BuildConfig)
    (state : jack_transport_state_t) (pos : jack_position_t.t) (nframes : Z)
    (midiInBuf : MidiInBuf) (st st' : PluginJack) (i : nat) :
  jackProcess cfg state pos nframes midiInBuf st = Ok st' ->
  fParametersChanged st !! i = Some true ->
  fParametersChanged st' !! i = Some true.
Proof.
  intros Hrun Hi. rewrite jackProcess_spec in Hrun. apply Ok_inj in Hrun. subst st'.
  destruct (before_host_events_fields cfg state pos st) as (_ & _ & Hpc & _).
  destruct (plugin_run_fields cfg nframes (merged_events cfg st midiInBuf)
              (interpret_events cfg (visited cfg st midiInBuf)
                 (before_host_events cfg state pos st))) as (_ & _ & -> & _).
  unfold interpret_events.
  apply (foldl_preserves (fun s => fParametersChanged s !! i = Some true)).
  - by rewrite Hpc.
  - intros s e Hs. by apply interpret_event_flag_stays.
Qed.

Lemma X9_cycle_keeps_pending_flags_witness :
  @jackProcess reference_externals full_build JackTransportRolling
    sample_position 256 program_cycle_input after_cc_cycle
  = Ok after_cc_then_program_cycle
  /\ fParametersChanged after_cc_cycle !! 2%nat = Some true
  /\ fParametersChanged after_cc_then_program_cycle !! 2%nat = Some true.
Proof.
  assert (H1 : @jackProcess reference_externals full_build JackTransportRolling
                 sample_position 256 program_cycle_input after_cc_cycle
               = Ok after_cc_then_program_cycle) by (vm_compute; reflexivity).
  assert (H2 : fParametersChanged after_cc_cycle !! 2%nat = Some true)
    by (vm_compute; reflexivity).
  split; [exact H1|]. split; [exact H2|].
  exact (@X9_cycle_keeps_pending_flags reference_externals full_build
           JackTransportRolling sample_position 256 program_cycle_input
           after_cc_cycle after_cc_then_program_cycle 2%nat H1 H2).
Defined.

(** ** Order of the merged events *)

Lemma frame_to_MidiEvent {ext : Externals} (jevent : jack_midi_event_t.t) :
  MidiEvent.frame (to_MidiEvent jevent) = jack_midi_event_t.time jevent.
Proof. unfold to_MidiEvent. by case_match. Qed.

Lemma fetched_prefix (slots : MidiInBuf) :
  exists rest : list jack_midi_event_t.t, map snd slots = fetched slots ++ rest.
Proof.
  induction slots as [|[rc e] slots [rest IH]]; [by exists []|].
  cbn [fetched map snd]. destruct (negb (rc =? 0)).
  - eexists. reflexivity.
  - exists rest. simpl. by rewrite IH.
Qed.

(** X10: the merged list is in frame order when the host buffer is.  In
    a build with MIDI input, when the host events carry non-negative times
    in non-decreasing order, the frames of the list handed to [run] are
    non-decreasing: the events of the queued notes, all at frame 0, come
    first, and the host events keep their times and their order. *)
Theorem X10_merged_events_in_frame_order {ext : Externals} (cfg : BuildConfig)
    (state : jack_transport_state_t) (pos : jack_position_t.t) (nframes : Z)
    (midiInBuf : MidiInBuf) (st st' : PluginJack) :
  DISTRHO_PLUGIN_WANT_MIDI_INPUT cfg = true ->
  jackProcess cfg state pos nframes midiInBuf st = Ok st' ->
  StronglySorted Z.le (map (fun slot => jack_midi_event_t.time (snd slot)) midiInBuf) ->
  Forall (fun slot => 0 <= jack_midi_event_t.time (snd slot)) midiInBuf ->
  exists evs : list MidiEvent.t,
    run_events st' = Some evs
    /\ StronglySorted Z.le (map MidiEvent.frame evs).
Proof.
  intros Hmidi Hrun Hsorted Hpos.
  exists (merged_events cfg st midiInBuf).
  split; [by eapply run_events_jackProcess|].
  unfold merged_events. rewrite Hmidi. rewrite map_app, map_map.
  erewrite (map_ext (fun x => MidiEvent.frame (to_MidiEvent x)))
    by apply frame_to_MidiEvent.
  set (n := (512 - length (ui_events cfg st))%nat). unfold visited. fold n.
  destruct (fetched_prefix (take n midiInBuf)) as [rest Hrest].
  assert (Htimes : map (fun slot : Z * jack_midi_event_t.t =>
                          jack_midi_event_t.time (snd slot)) (take n midiInBuf)
                   = map jack_midi_event_t.time (fetched (take n midiInBuf))
                     ++ map jack_midi_event_t.time rest).
  { rewrite <- map_app, <- Hrest. by rewrite map_map. }
  assert (Hs : StronglySorted Z.le
                 (map jack_midi_event_t.time (fetched (take n midiInBuf)))).
  { assert (Ht : StronglySorted Z.le
                   (map (fun slot : Z * jack_midi_event_t.t =>
                           jack_midi_event_t.time (snd slot)) (take n midiInBuf))).
    { rewrite <- (take_drop n midiInBuf), map_app in Hsorted.
      by apply StronglySorted_app in Hsorted as (_ & ? & _). }
    rewrite Htimes in Ht. by apply StronglySorted_app in Ht as (_ & ? & _). }
  assert (Hp : Forall (fun t => 0 <= t)
                 (map jack_midi_event_t.time (fetched (take n midiInBuf)))).
  { assert (Ht : Forall (fun t => 0 <= t)
                   (map (fun slot : Z * jack_midi_event_t.t =>
                           jack_midi_event_t.time (snd slot)) (take n midiInBuf))).
    { apply Forall_map, Forall_take. exact Hpos. }
    rewrite Htimes in Ht. by apply Forall_app in Ht as [? _]. }
  assert (Hui : Forall (fun f => f = 0) (map MidiEvent.frame (ui_events cfg st))).
  { unfold ui_events. case_match; [|constructor].
    apply Forall_map, Forall_map, Forall_forall. reflexivity. }
  apply StronglySorted_app_2; [| |exact Hs].
  - intros x1 x2 H1 H2. rewrite Forall_forall in Hui, Hp.
    rewrite (Hui x1 H1). by apply Hp.
  - clear -Hui. induction Hui as [|f l -> Hl IH]; constructor; [exact IH|].
    eapply Forall_impl; [exact Hl|]. intros f' ->. reflexivity.
Qed.

Lemma X10_merged_events_in_frame_order_witness :
  DISTRHO_PLUGIN_WANT_MIDI_INPUT full_build = true
  /\ @jackProcess reference_externals full_build JackTransportRolling
       sample_position 256 ordered_input noted_state = Ok after_ordered_cycle
  /\ exists evs : list MidiEvent.t,
       run_events after_ordered_cycle = Some evs
       /\ StronglySorted Z.le (map MidiEvent.frame evs).
Proof.
  assert (H1 : DISTRHO_PLUGIN_WANT_MIDI_INPUT full_build = true) by reflexivity.
  assert (H2 : @jackProcess reference_externals full_build JackTransportRolling
                 sample_position 256 ordered_input noted_state
               = Ok after_ordered_cycle) by (vm_compute; reflexivity).
  assert (H3 : StronglySorted Z.le
                 (map (fun slot : Z * jack_midi_event_t.t =>
                         jack_midi_event_t.time (snd slot)) ordered_input)).
  { cbn. repeat constructor; discriminate. }
  assert (H4 : Forall (fun slot : Z * jack_midi_event_t.t =>
                         0 <= jack_midi_event_t.time (snd slot)) ordered_input).
  { cbn. repeat constructor; discriminate. }
  split; [exact H1|]. split; [exact H2|].
  exact (@X10_merged_events_in_frame_order reference_externals full_build
           JackTransportRolling sample_position 256 ordered_input noted_state
           after_ordered_cycle H1 H2 H3 H4).
Defined.

(** ** MIDI output *)

(** X11: what [writeMidi] hands to the host.  Without an output buffer
    (outside of a cycle) [writeMidi] returns [false] and writes nothing.
    With one, an event built by the bridge from a host event whose size is
    the length of its bytes is written back with the same time, the same
    bytes and the same size, whether the bytes were kept inline or by
    reference; the result tells whether the host returned 0. *)
Theorem X11_writeMidi_returns_the_host_bytes {ext : Externals}
    (jackbridge_midi_event_write : MidiOutBuf -> Z -> list Z -> Z -> Z * MidiOutBuf)
    (buffer : MidiOutBuf) (jevent : jack_midi_event_t.t) :
  0 <= jack_midi_event_t.size jevent < 2 ^ 32 ->
  jack_midi_event_t.size jevent
  = Z.of_nat (length (jack_midi_event_t.buffer jevent)) ->
  writeMidi jackbridge_midi_event_write None (to_MidiEvent jevent) = Some (false, None)
  /\ midi_payload (to_MidiEvent jevent) = Some (jack_midi_event_t.buffer jevent)
  /\ writeMidi jackbridge_midi_event_write (Some buffer) (to_MidiEvent jevent)
     = Some (fst (jackbridge_midi_event_write buffer
                    (jack_midi_event_t.time jevent)
                    (jack_midi_event_t.buffer jevent)
                    (jack_midi_event_t.size jevent)) =? 0,
             Some (snd (jackbridge_midi_event_write buffer
                          (jack_midi_event_t.time jevent)
                          (jack_midi_event_t.buffer jevent)
                          (jack_midi_event_t.size jevent)))).
Proof.
  intros Hsize Hlen.
  assert (Hpay : midi_payload (to_MidiEvent jevent)
                 = Some (jack_midi_event_t.buffer jevent)).
  { unfold midi_payload, to_MidiEvent, uint32. rewrite Z.mod_small by exact Hsize.
    destruct (kDataSize <? jack_midi_event_t.size jevent) eqn:Hk; simpl; rewrite Hk;
      [reflexivity|].
    rewrite take_ge; [reflexivity|]. lia. }
  split; [reflexivity|]. split; [exact Hpay|].
  unfold writeMidi. rewrite Hpay.
  assert (Hf : MidiEvent.frame (to_MidiEvent jevent) = jack_midi_event_t.time jevent)
    by apply frame_to_MidiEvent.
  assert (Hs : MidiEvent.size (to_MidiEvent jevent) = jack_midi_event_t.size jevent).
  { unfold to_MidiEvent, uint32. rewrite Z.mod_small by exact Hsize. by case_match. }
  rewrite Hf, Hs. by destruct (jackbridge_midi_event_write _ _ _ _).
Qed.

Lemma X11_writeMidi_returns_the_host_bytes_witness :
  0 <= jack_midi_event_t.size sysex_event < 2 ^ 32
  /\ jack_midi_event_t.size sysex_event
     = Z.of_nat (length (jack_midi_event_t.buffer sysex_event))
  /\ @writeMidi reference_externals accepting_host (Some [])
       (@to_MidiEvent reference_externals sysex_event)
     = Some (true, Some [(12, [0xF0; 0x7E; 0x7F; 0x06; 0x01; 0xF7])]).
Proof.
  assert (H1 : 0 <= jack_midi_event_t.size sysex_event < 2 ^ 32)
    by (vm_compute; split; [discriminate | reflexivity]).
  assert (H2 : jack_midi_event_t.size sysex_event
               = Z.of_nat (length (jack_midi_event_t.buffer sysex_event)))
    by reflexivity.
  destruct (@X11_writeMidi_returns_the_host_bytes reference_externals accepting_host
              [] sysex_event H1 H2) as (_ & _ & Hw).
  split; [exact H1|]. split; [exact H2|]. rewrite Hw. reflexivity.
Defined.

(** ** Texts *)

Lemma string_app_cons (a : Ascii.ascii) (s t : string) :
  String a s +:+ t = String a (s +:+ t).
Proof. reflexivity. Qed.

Lemma string_app_nil_l (t : string) : "" +:+ t = t.
Proof. reflexivity. Qed.

Lemma string_app_nil_r (s : string) : s +:+ "" = s.
Proof. induction s as [|a s IH]; [reflexivity|]. by rewrite string_app_cons, IH. Qed.

Lemma string_app_assoc (s t u : string) : (s +:+ t) +:+ u = s +:+ (t +:+ u).
Proof.
  induction s as [|a s IH]; [reflexivity|]. by rewrite !string_app_cons, IH.
Qed.

Lemma string_length_app (s t : string) :
  String.length (s +:+ t) = (String.length s + String.length t)%nat.
Proof.
  induction s as [|a s IH]; [reflexivity|].
  rewrite string_app_cons. simpl. by rewrite IH.
Qed.

Lemma substring_length_le (m : nat) (s : string) :
  (String.length (String.substring 0 m s) <= m)%nat.
Proof.
  revert m. induction s as [|a s IH]; intros [|m]; simpl; try lia.
  specialize (IH m). lia.
Qed.

Lemma substring_all (m : nat) (s : string) :
  (String.length s <= m)%nat -> String.substring 0 m s = s.
Proof.
  revert m. induction s as [|a s IH]; intros [|m] H; simpl in *; try reflexivity;
    try lia.
  rewrite IH; [reflexivity | lia].
Qed.

Lemma substring_app (s t : string) :
  String.substring 0 (String.length s) (s +:+ t) = s.
Proof.
  induction s as [|a s IH].
  - by destruct t.
  - rewrite string_app_cons. simpl. by rewrite IH.
Qed.

(** A text is its own prefix of [m] characters exactly when it has at most
    [m] characters. *)
Lemma substring_fixed (m : nat) (s : string) :
  String.substring 0 m s = s <-> (String.length s <= m)%nat.
Proof.
  split; [|apply substring_all].
  intros H. rewrite <- H. apply substring_length_le.
Qed.

(** ** The decimal text of an index *)

Lemma length_digit (d : Z) : String.length (digit d) = 1%nat.
Proof. reflexivity. Qed.

Lemma decimal_digits_nonempty (fuel : nat) (n : Z) :
  (1 <= String.length (decimal_digits (S fuel) n))%nat.
Proof.
  cbn [decimal_digits]. destruct (n <? 10); [rewrite length_digit; lia|].
  rewrite string_length_app, length_digit. lia.
Qed.

(** The text has at most [k] characters exactly when the number is below
    [10 ^ k]. *)
Lemma decimal_digits_length (fuel : nat) : forall (n : Z) (k : nat),
  0 <= n < 10 ^ Z.of_nat fuel -> (1 <= k)%nat ->
  (String.length (decimal_digits fuel n) <= k)%nat <-> n < 10 ^ Z.of_nat k.
Proof.
  induction fuel as [|fuel IH]; intros n k Hn Hk.
  - simpl in Hn. assert (n = 0) as -> by lia. simpl.
    split; [intros _; apply Z.pow_pos_nonneg; lia | lia].
  - cbn [decimal_digits]. destruct (n <? 10) eqn:H10.
    + apply Z.ltb_lt in H10. rewrite length_digit. split; [intros _ | lia].
      assert (10 ^ 1 <= 10 ^ Z.of_nat k) by (apply Z.pow_le_mono_r; lia). lia.
    + apply Z.ltb_ge in H10. rewrite string_length_app, length_digit.
      assert (Hq : 0 <= n / 10 < 10 ^ Z.of_nat fuel).
      { split; [apply Z.div_pos; lia|].
        apply Z.div_lt_upper_bound; [lia|].
        replace (Z.of_nat (S fuel)) with (Z.succ (Z.of_nat fuel)) in Hn by lia.
        rewrite Z.pow_succ_r in Hn by lia. lia. }
      destruct fuel as [|fuel].
      { simpl in Hq. assert (n / 10 = 0) as Hz by lia.
        apply Z.div_small_iff in Hz; lia. }
      pose proof (decimal_digits_nonempty fuel (n / 10)) as Hne.
      destruct k as [|[|k]]; [lia| |].
      * split; [lia|]. change (10 ^ Z.of_nat 1) with 10. lia.
      * replace (Z.of_nat (S (S k))) with (Z.succ (Z.of_nat (S k))) by lia.
        rewrite Z.pow_succ_r by lia.
        split; intros H.
        -- assert (Hl : (String.length (decimal_digits (S fuel) (n / 10)) <= S k)%nat)
             by lia.
           apply (IH (n / 10) (S k) Hq ltac:(lia)) in Hl.
           pose proof (Z.mul_div_le n 10 ltac:(lia)).
           pose proof (Z.mod_pos_bound n 10 ltac:(lia)).
           pose proof (Z.div_mod n 10 ltac:(lia)). lia.
        -- assert (Hl : n / 10 < 10 ^ Z.of_nat (S k))
             by (apply Z.div_lt_upper_bound; lia).
           apply (IH (n / 10) (S k) Hq ltac:(lia)) in Hl. lia.
Qed.

Lemma read_digits_app (s t : string) : forall acc : Z,
  read_digits acc (s +:+ t) = read_digits (read_digits acc s) t.
Proof.
  induction s as [|a s IH]; intros acc; [reflexivity|].
  rewrite string_app_cons. simpl. by rewrite IH.
Qed.

Lemma read_digits_digit (acc d : Z) :
  0 <= d < 10 -> read_digits acc (digit d) = 10 * acc + d.
Proof.
  intros Hd. unfold digit. simpl.
  rewrite Ascii.N_ascii_embedding by lia. lia.
Qed.

(** Reading the decimal text of a number gives the number back. *)
Lemma read_decimal_digits (fuel : nat) : forall n : Z,
  0 <= n < 10 ^ Z.of_nat fuel -> read_digits 0 (decimal_digits fuel n) = n.
Proof.
  induction fuel as [|fuel IH]; intros n Hn.
  - simpl in *. lia.
  - cbn [decimal_digits]. destruct (n <? 10) eqn:H10.
    + apply Z.ltb_lt in H10. rewrite read_digits_digit by lia. lia.
    + apply Z.ltb_ge in H10. rewrite read_digits_app.
      rewrite IH.
      * rewrite read_digits_digit by (apply Z.mod_pos_bound; lia).
        pose proof (Z.div_mod n 10 ltac:(lia)). lia.
      * split; [apply Z.div_pos; lia|].
        apply Z.div_lt_upper_bound; [lia|].
        replace (Z.of_nat (S fuel)) with (Z.succ (Z.of_nat fuel)) in Hn by lia.
        rewrite Z.pow_succ_r in Hn by lia. lia.
Qed.

(** ** Port metadata *)

Lemma setAudioPortMetadata_order {pc : PortConstants} (portGroupName : Z -> string)
    (port : AudioPort.t) (jackport : option Z) (index : Z) (p : Property.t) :
  setAudioPortMetadata portGroupName port jackport index !! 1%nat = Some p ->
  exists uuid, jackport = Some uuid
    /\ p = set_property uuid JACK_METADATA_ORDER
             (snprintf (sizeof_int - 1) (format_u index)) xsd_integer.
Proof.
  unfold setAudioPortMetadata. destruct jackport as [uuid|]; [|discriminate].
  destruct (uuid =? JACK_UUID_EMPTY_INITIALIZER); [discriminate|].
  simpl. intros [= <-]. by exists uuid.
Qed.

Lemma snprintf_order {pc : PortConstants} (index : Z) :
  3 <= sizeof_int -> 0 <= index < 2 ^ 32 ->
  (String.length (snprintf (sizeof_int - 1) (format_u index))
   <= Z.to_nat (sizeof_int - 2))%nat
  /\ read_decimal (format_u index) = index
  /\ (snprintf (sizeof_int - 1) (format_u index) = format_u index
      <-> index < 10 ^ (sizeof_int - 2)).
Proof.
  intros Hint Hindex. unfold snprintf, format_u, uint32.
  rewrite Z.mod_small by exact Hindex.
  replace (sizeof_int - 1 - 1) with (sizeof_int - 2) by lia.
  assert (Hfuel : 0 <= index < 10 ^ Z.of_nat 10).
  { assert (2 ^ 32 < 10 ^ Z.of_nat 10) by reflexivity. lia. }
  split; [apply substring_length_le|].
  split; [by apply read_decimal_digits|].
  rewrite substring_fixed.
  rewrite (decimal_digits_length 10 index (Z.to_nat (sizeof_int - 2)) Hfuel) by lia.
  by rewrite Z2Nat.id by lia.
Qed.

(** X12: the order property of a port.  For a registered port
    [setAudioPortMetadata] sets, as its second property, the order of the
    port: the decimal text of the index cut to [sizeof(int) - 2] characters
    (the size given to [snprintf] is [sizeof(0xff)-1], not the size of the
    buffer).  The text stands for the index exactly when the index is below
    [10 ^ (sizeof(int) - 2)], which is 100 for a four-byte [int]; from
    there on the property holds the leading digits only. *)
Theorem X12_port_order_is_cut_short {pc : PortConstants} (portGroupName : Z -> string)
    (port : AudioPort.t) (uuid index : Z) :
  3 <= sizeof_int ->
  uuid <> JACK_UUID_EMPTY_INITIALIZER ->
  0 <= index < 2 ^ 32 ->
  exists order : string,
    setAudioPortMetadata portGroupName port (Some uuid) index !! 1%nat
    = Some (set_property uuid JACK_METADATA_ORDER order xsd_integer)
    /\ order = String.substring 0 (Z.to_nat (sizeof_int - 2)) (format_u index)
    /\ (String.length order <= Z.to_nat (sizeof_int - 2))%nat
    /\ read_decimal (format_u index) = index
    /\ (order = format_u index <-> index < 10 ^ (sizeof_int - 2)).
Proof.
  intros Hint Huuid Hindex.
  exists (snprintf (sizeof_int - 1) (format_u index)).
  destruct (snprintf_order index Hint Hindex) as (Hlen & Hread & Hiff).
  split.
  { unfold setAudioPortMetadata.
    destruct (uuid =? JACK_UUID_EMPTY_INITIALIZER) eqn:He;
      [apply Z.eqb_eq in He; contradiction | reflexivity]. }
  split.
  { unfold snprintf. by replace (sizeof_int - 1 - 1) with (sizeof_int - 2) by lia. }
  done.
Qed.

Lemma X12_port_order_is_cut_short_witness :
  3 <= @sizeof_int reference_ports
  /\ 7 <> @JACK_UUID_EMPTY_INITIALIZER reference_ports
  /\ 0 <= 123 < 2 ^ 32
  /\ @setAudioPortMetadata reference_ports group_names cv_port (Some 7) 123 !! 1%nat
     = Some (@set_property 7 JACK_METADATA_ORDER "12" xsd_integer)
  /\ format_u 123 = "123".
Proof.
  assert (H1 : 3 <= @sizeof_int reference_ports) by (vm_compute; discriminate).
  assert (H2 : 7 <> @JACK_UUID_EMPTY_INITIALIZER reference_ports)
    by (vm_compute; discriminate).
  assert (H3 : 0 <= 123 < 2 ^ 32) by (vm_compute; split; [discriminate | reflexivity]).
  destruct (@X12_port_order_is_cut_short reference_ports group_names cv_port 7 123
              H1 H2 H3) as (order & Hset & Horder & _).
  split; [exact H1|]. split; [exact H2|]. split; [exact H3|].
  split; [|reflexivity].
  rewrite Hset, Horder. reflexivity.
Defined.

(** X13: the order of the ports the constructor registers.  The constructor
    numbers the inputs from 0 and the outputs after them; for every port it
    registered whose number is below [10 ^ (sizeof(int) - 2)], the second
    property set is the order, and its text read as a decimal number is the
    number of the port, so that the order tells these ports apart. *)
Theorem X13_port_order_numbers_the_ports {pc : PortConstants}
    (portGroupName : Z -> string) (inputs outputs : list (AudioPort.t * option Z))
    (k : nat) (props : list Property.t) (p : Property.t) :
  3 <= sizeof_int ->
  Z.of_nat k < 10 ^ (sizeof_int - 2) ->
  Z.of_nat k < 2 ^ 32 ->
  register_audio_ports portGroupName inputs outputs !! k = Some props ->
  props !! 1%nat = Some p ->
  exists (port : AudioPort.t) (uuid : Z),
    (inputs ++ outputs) !! k = Some (port, Some uuid)
    /\ p = set_property uuid JACK_METADATA_ORDER (Property.value p) xsd_integer
    /\ read_decimal (Property.value p) = Z.of_nat k.
Proof.
  intros Hint Hk Hk32 Hprops Hp. unfold register_audio_ports in Hprops.
  assert (Hcall : exists port jackport,
            (inputs ++ outputs) !! k = Some (port, jackport)
            /\ props = setAudioPortMetadata portGroupName port jackport (Z.of_nat k)).
  { destruct (decide (k < length inputs)%nat) as [Hlt|Hge].
    - rewrite lookup_app_l in Hprops by (by rewrite length_imap).
      rewrite list_lookup_imap in Hprops.
      destruct (inputs !! k) as [[port jackport]|] eqn:Hin; [|discriminate].
      injection Hprops as <-. exists port, jackport.
      split; [|reflexivity]. by rewrite lookup_app_l.
    - rewrite lookup_app_r in Hprops by (rewrite length_imap; lia).
      rewrite length_imap, list_lookup_imap in Hprops.
      destruct (outputs !! (k - length inputs)%nat) as [[port jackport]|] eqn:Hout;
        [|discriminate].
      injection Hprops as <-. exists port, jackport.
      split; [by rewrite lookup_app_r by lia|].
      simpl. f_equal. lia. }
  destruct Hcall as (port & jackport & Hport & ->).
  apply setAudioPortMetadata_order in Hp as (uuid & -> & ->).
  exists port, uuid.
  destruct (snprintf_order (Z.of_nat k) Hint ltac:(lia)) as (_ & Hread & Hiff).
  split; [exact Hport|]. split; [reflexivity|].
  apply Hiff in Hk. simpl. by rewrite Hk.
Qed.

Lemma X13_port_order_numbers_the_ports_witness :
  3 <= @sizeof_int reference_ports
  /\ Z.of_nat 2 < 10 ^ (@sizeof_int reference_ports - 2)
  /\ Z.of_nat 2 < 2 ^ 32
  /\ @register_audio_ports reference_ports group_names sample_inputs sample_outputs
      !! 2%nat
     = Some (@setAudioPortMetadata reference_ports group_names cv_port (Some 9) 2)
  /\ @setAudioPortMetadata reference_ports group_names cv_port (Some 9) 2 !! 1%nat
     = Some (@set_property 9 JACK_METADATA_ORDER "2" xsd_integer)
  /\ read_decimal "2" = 2.
Proof.
  assert (H1 : 3 <= @sizeof_int reference_ports) by (vm_compute; discriminate).
  assert (H2 : Z.of_nat 2 < 10 ^ (@sizeof_int reference_ports - 2))
    by (vm_compute; reflexivity).
  assert (H3 : Z.of_nat 2 < 2 ^ 32) by (vm_compute; reflexivity).
  assert (H4 : @register_audio_ports reference_ports group_names sample_inputs
                 sample_outputs !! 2%nat
               = Some (@setAudioPortMetadata reference_ports group_names cv_port
                         (Some 9) 2))
    by (vm_compute; reflexivity).
  assert (H5 : @setAudioPortMetadata reference_ports group_names cv_port (Some 9) 2
               !! 1%nat
               = Some (@set_property 9 JACK_METADATA_ORDER "2" xsd_integer))
    by (vm_compute; reflexivity).
  destruct (@X13_port_order_numbers_the_ports reference_ports group_names
              sample_inputs sample_outputs 2%nat _ _ H1 H2 H3 H4 H5)
    as (port & uuid & _ & _ & Hread).
  split; [exact H1|]. split; [exact H2|]. split; [exact H3|].
  split; [exact H4|]. split; [exact H5|]. exact Hread.
Defined.

(** ** The failure report of [main] *)

Lemma string_set_nat_app (s t : string) (k : nat) (c : Ascii.ascii) :
  string_set_nat (s +:+ t) (String.length s + k) c = s +:+ string_set_nat t k c.
Proof.
  induction s as [|a s IH]; [reflexivity|].
  rewrite !string_app_cons. simpl. by rewrite IH.
Qed.

Lemma closed_message (reason : string) :
  String.length (reason +:+ ";" +:+ newline) = (String.length reason + 2)%nat
  /\ closed (reason +:+ ";" +:+ newline) = reason +:+ "." +:+ newline
  /\ string_set_nat (reason +:+ ";" +:+ newline)
       (String.length (reason +:+ ";" +:+ newline) - 2) full_stop
     = closed (reason +:+ ";" +:+ newline).
Proof.
  assert (Hlen : String.length (reason +:+ ";" +:+ newline)
                 = (String.length reason + 2)%nat)
    by (by rewrite string_length_app).
  assert (Hclosed : closed (reason +:+ ";" +:+ newline) = reason +:+ "." +:+ newline).
  { unfold closed. rewrite Hlen.
    replace (String.length reason + 2 - 2)%nat with (String.length reason) by lia.
    by rewrite substring_app. }
  split; [exact Hlen|]. split; [exact Hclosed|].
  rewrite Hclosed, Hlen.
  replace (String.length reason + 2 - 2)%nat with (String.length reason + 0)%nat by lia.
  by rewrite string_set_nat_app.
Qed.

Lemma foldl_add_message (status : Z) (table : list (Z * string)) :
  forall acc : string,
  foldl (add_message status) acc table
  = acc +:+ foldr String.append ""
              (map snd (List.filter
                          (fun message => negb (Z.land status message.1 =? 0)) table)).
Proof.
  induction table as [|message table IH]; intros acc; simpl.
  - by rewrite string_app_nil_r.
  - rewrite IH. unfold add_message.
    destruct (negb (Z.land status message.1 =? 0)); [|reflexivity].
    simpl. by rewrite string_app_assoc.
Qed.

Lemma Forall_reported {js : JackStatus} (P : string -> Prop) (status : Z) :
  Forall P (map snd status_messages) -> Forall P (reported status).
Proof.
  unfold reported. induction status_messages as [|message table IH]; simpl; [done|].
  intros H. inversion H as [|? ? Hm Ht]; subst.
  destruct (negb (Z.land status message.1 =? 0)); simpl; auto.
Qed.

Lemma status_messages_end {js : JackStatus} :
  Forall (fun message => exists reason : string, message = reason +:+ ";" +:+ newline)
    (map snd status_messages).
Proof.
  unfold status_messages. simpl.
  repeat (constructor;
          [match goal with
           | |- exists reason, ?m = _ =>
               exists (String.substring 0 (String.length m - 2) m);
               vm_compute; reflexivity
           end|]).
  constructor.
Qed.

(** Replacing the last character but one of the texts put one after the
    other closes the last text. *)
Lemma report_set (messages : list string) :
  messages <> [] ->
  Forall (fun message => exists reason : string, message = reason +:+ ";" +:+ newline)
    messages ->
  (2 <= String.length (foldr String.append "" messages))%nat
  /\ string_set_nat (foldr String.append "" messages)
       (String.length (foldr String.append "" messages) - 2) full_stop
     = report messages.
Proof.
  induction messages as [|message messages IH]; [done|].
  intros _ Hall. inversion Hall as [|? ? [reason ->] Hrest]; subst.
  destruct (closed_message reason) as (Hlen & _ & Hset).
  destruct messages as [|message' messages].
  - simpl. rewrite string_app_nil_r. split; [lia | exact Hset].
  - destruct (IH ltac:(done) Hrest) as [Hlen' Hset'].
    change (foldr String.append "" ((reason +:+ ";" +:+ newline) :: message' :: messages))
      with ((reason +:+ ";" +:+ newline)
            +:+ foldr String.append "" (message' :: messages)).
    rewrite string_length_app. split; [lia|].
    replace (String.length (reason +:+ ";" +:+ newline)
             + String.length (foldr String.append "" (message' :: messages)) - 2)%nat
      with (String.length (reason +:+ ";" +:+ newline)
            + (String.length (foldr String.append "" (message' :: messages)) - 2))%nat
      by lia.
    rewrite string_set_nat_app, Hset'. reflexivity.
Qed.

(** X14: the failure report of [main].  When the client could not be
    opened, [main] returns 1 without constructing a bridge and gives one
    text to [d_stderr]: the plain one when [status] has none of the thirteen
    bits; otherwise the heading followed by the texts of the bits that are
    set, in the order of the tests, each ending in a semicolon and a newline
    but the last one, whose semicolon has become a full stop. *)
Theorem X14_main_reports_the_failure {ext : Externals} {js : JackStatus}
    (cfg : BuildConfig) (status : Z) (p : PluginExporter.t) (capacity : nat) :
  main cfg None status p capacity
  = (1, None,
     [match reported status with
      | [] => "Failed to create jack client, cannot continue!"
      | _ :: _ =>
          "Failed to create jack client, reason was:" +:+ newline
          +:+ report (reported status)
      end])
  /\ Forall (fun message => exists reason : string,
               message = reason +:+ ";" +:+ newline
               /\ closed message = reason +:+ "." +:+ newline)
       (reported status).
Proof.
  split.
  - unfold main, build_errorString. rewrite foldl_add_message, string_app_nil_l.
    fold (reported status).
    pose proof (Forall_reported _ status status_messages_end) as Hall.
    destruct (reported status) as [|message messages] eqn:Hrep; [reflexivity|].
    destruct (report_set (message :: messages) ltac:(done) Hall) as [Hlen Hset].
    set (e := foldr String.append "" (message :: messages)) in *.
    unfold isNotEmpty, string_set.
    destruct (String.length e =? 0)%nat eqn:He; [apply Nat.eqb_eq in He; lia|].
    simpl negb. cbv iota.
    assert (Hpos : (0 <=? Z.of_nat (String.length e) - 2)
                   && (Z.of_nat (String.length e) - 2 <? Z.of_nat (String.length e))
                   = true).
    { apply andb_true_iff. split; [apply Z.leb_le | apply Z.ltb_lt]; lia. }
    rewrite Hpos.
    replace (Z.to_nat (Z.of_nat (String.length e) - 2))
      with (String.length e - 2)%nat by lia.
    by rewrite Hset.
  - apply Forall_reported.
    eapply Forall_impl; [apply status_messages_end|].
    intros message [reason ->]. exists reason. split; [reflexivity|].
    apply closed_message.
Qed.

Example main_report_sample :
  (@main reference_externals reference_status full_build None 0x11 sample_plugin 4096).2
  = ["Failed to create jack client, reason was:" +:+ newline
     +:+ "Overall operation failed;" +:+ newline
     +:+ "Unable to connect to the JACK server." +:+ newline].
Proof. vm_compute. reflexivity. Qed.

(** ** Polling twice *)

Lemma idle_calls_none {ext : Externals} (st : PluginJack) (n : nat) :
  (forall i : nat, (i < n)%nat -> idle_note st i = []) -> idle_calls st n = [].
Proof.
  intros H. unfold idle_calls. induction n as [|n IH]; [reflexivity|].
  rewrite seq_S, flat_map_app, IH by (intros; apply H; lia). simpl.
  by rewrite (H n) by lia.
Qed.

(** X15: a poll leaves nothing for the next one.  When the comparison
    reports the value of every output parameter equal to itself and the
    cache has a slot for every parameter, the idle callback that follows an
    idle callback, with nothing else in between, notifies the UI of no
    parameter and of no program: its only call is the UI's own idle
    step. *)
Theorem X15_second_poll_is_silent {ext : Externals} (cfg : BuildConfig)
    (st : PluginJack) :
  (forall i : nat,
      (i < PluginExporter.getParameterCount (fPlugin st))%nat ->
      PluginExporter.isParameterOutput (fPlugin st) i = true ->
      d_isEqual (PluginExporter.getParameterValue (fPlugin st) i)
                (PluginExporter.getParameterValue (fPlugin st) i) = true) ->
  (PluginExporter.getParameterCount (fPlugin st) <= length (fLastOutputValues st))%nat ->
  new_calls (idleCallback cfg false st)
    (idleCallback cfg false (idleCallback cfg false st))
  = [UI_exec_idle].
Proof.
  intros Hrefl Hlen.
  destruct (idleCallback_spec cfg st) as (lo & pc & pre & Hp & Hlo & Hpc & _ & _ & Hlov & Hpcv).
  destruct (idleCallback_program cfg st) as [_ Hprog].
  set (st1 := idleCallback cfg false st) in *.
  destruct (idleCallback_program cfg st1) as [-> _].
  assert (Hpending : DISTRHO_PLUGIN_WANT_PROGRAMS cfg && (0 <=? fProgramChanged st1)
                     = false).
  { rewrite Hprog.
    destruct (DISTRHO_PLUGIN_WANT_PROGRAMS cfg && (0 <=? fProgramChanged st)) eqn:E;
      [|exact E].
    apply andb_false_r. }
  rewrite Hpending, Hp. simpl.
  rewrite idle_calls_none; [reflexivity|].
  intros i Hi. unfold idle_note. rewrite Hp, Hlo, Hpc, Hlov, Hpcv.
  replace (i <? PluginExporter.getParameterCount (fPlugin st))%nat with true
    by (symmetry; by apply Nat.ltb_lt).
  destruct (PluginExporter.isParameterOutput (fPlugin st) i) eqn:Hout; cbn [andb negb].
  - destruct (lookup_lt_is_Some_2 (fLastOutputValues st) i ltac:(lia)) as [v Hv].
    rewrite Hv. change (default F32.zero (Some v)) with v.
    destruct (d_isEqual v (PluginExporter.getParameterValue (fPlugin st) i)) eqn:Heq;
      cbn [negb].
    + change (default F32.zero (Some v)) with v. by rewrite Heq.
    + change (default F32.zero
                ((fun _ => PluginExporter.getParameterValue (fPlugin st) i) <$> Some v))
        with (PluginExporter.getParameterValue (fPlugin st) i).
      by rewrite (Hrefl i Hi Hout).
  - by destruct (fParametersChanged st !! i).
Qed.

Lemma X15_second_poll_is_silent_witness :
  (PluginExporter.getParameterCount (fPlugin sample_state)
   <= length (fLastOutputValues sample_state))%nat
  /\ notified_indices
       (new_calls sample_state (@idleCallback reference_externals full_build false
                                  sample_state)) = [1%nat]
  /\ new_calls (@idleCallback reference_externals full_build false sample_state)
       (@idleCallback reference_externals full_build false
          (@idleCallback reference_externals full_build false sample_state))
     = [UI_exec_idle].
Proof.
  assert (H1 : forall i : nat,
            (i < PluginExporter.getParameterCount (fPlugin sample_state))%nat ->
            PluginExporter.isParameterOutput (fPlugin sample_state) i = true ->
            @d_isEqual reference_externals
              (PluginExporter.getParameterValue (fPlugin sample_state) i)
              (PluginExporter.getParameterValue (fPlugin sample_state) i) = true).
  { intros i Hi _. destruct i as [|[|[|[|i]]]]; [vm_compute; reflexivity ..|].
    vm_compute in Hi. lia. }
  assert (H2 : (PluginExporter.getParameterCount (fPlugin sample_state)
                <= length (fLastOutputValues sample_state))%nat)
    by (vm_compute; lia).
  pose proof (@X15_second_poll_is_silent reference_externals full_build sample_state
                H1 H2) as H.
  split; [exact H2|]. split; [vm_compute; reflexivity | exact H].
Defined.

(** ** What the events of the UI do not do *)

Lemma fPlugin_updateParameterTriggers {ext : Externals} (st1 st : PluginJack) :
  fPlugin st1 = fPlugin st ->
  fPlugin (updateParameterTriggers st1) = fPlugin (updateParameterTriggers st).
Proof.
  intros Hp.
  destruct (updateParameterTriggers_spec st1) as (vs1 & -> & Hvs1).
  destruct (updateParameterTriggers_spec st) as (vs & -> & Hvs).
  cbn [fPlugin]. rewrite Hp. f_equal.
  apply list_eq. intros i. rewrite Hvs1, Hvs, Hp. reflexivity.
Qed.

(** X16: the events of the UI are handed over, not interpreted.  In a
    cycle whose visited host events hold no control change and no program
    change on channel 1, the DSP core runs on the parameter values the
    trigger step left, and the parameter flags and the pending program are
    those the cycle started with, whatever the ring buffer holds: a record
    queued by the UI never writes a parameter or loads a program, even when
    its bytes are those of a control change. *)
Theorem X16_ui_events_are_not_interpreted {ext : Externals} (cfg : BuildConfig)
    (state : jack_transport_state_t) (pos : jack_position_t.t) (nframes : Z)
    (midiInBuf : MidiInBuf) (st st' : PluginJack) :
  jackProcess cfg state pos nframes midiInBuf st = Ok st' ->
  Forall (fun jevent => is_control_change jevent = false
                        /\ is_program_change jevent = false)
    (visited cfg st midiInBuf) ->
  fPlugin st'
  = PluginExporter.run (fPlugin (updateParameterTriggers st)) nframes
      (if DISTRHO_PLUGIN_WANT_MIDI_INPUT cfg
       then Some (merged_events cfg st midiInBuf) else None)
  /\ fParametersChanged st' = fParametersChanged st
  /\ fProgramChanged st' = fProgramChanged st.
Proof.
  rewrite jackProcess_spec. intros Hrun Hnone. apply Ok_inj in Hrun. subst st'.
  rewrite interpret_events_skip by exact Hnone.
  destruct (before_host_events_fields cfg state pos st) as (_ & _ & Hpc & Hprog & _).
  destruct (plugin_run_fields cfg nframes (merged_events cfg st midiInBuf)
              (before_host_events cfg state pos st)) as (_ & _ & Hpc' & Hprog' & _).
  split; [|split; [by rewrite Hpc' | by rewrite Hprog']].
  assert (Hp : fPlugin (before_host_events cfg state pos st)
               = fPlugin (updateParameterTriggers st)).
  { unfold before_host_events.
    set (st1 := if DISTRHO_PLUGIN_WANT_TIMEPOS cfg
                then updateTimePosition cfg state pos st else st).
    assert (H1 : fPlugin st1 = fPlugin st) by (unfold st1; by case_match).
    rewrite <- (fPlugin_updateParameterTriggers st1 st H1). by case_match. }
  unfold plugin_run. rewrite Hp. by case_match.
Qed.

Lemma X16_ui_events_are_not_interpreted_witness :
  @jackProcess reference_externals full_build JackTransportRolling
    sample_position 256 [] disguised_state = Ok after_disguised_cycle
  /\ run_events after_disguised_cycle = Some [note_event [0xB0; 7; 100]]
  /\ fParametersChanged after_disguised_cycle = fParametersChanged disguised_state
  /\ fProgramChanged after_disguised_cycle = fProgramChanged disguised_state.
Proof.
  assert (H1 : @jackProcess reference_externals full_build JackTransportRolling
                 sample_position 256 [] disguised_state = Ok after_disguised_cycle)
    by (vm_compute; reflexivity).
  assert (H2 : Forall (fun jevent => is_control_change jevent = false
                                     /\ is_program_change jevent = false)
                 (visited full_build disguised_state []))
    by (vm_compute; constructor).
  destruct (@X16_ui_events_are_not_interpreted reference_externals full_build
              JackTransportRolling sample_position 256 [] disguised_state
              after_disguised_cycle H1 H2) as (_ & Hpc & Hprog).
  split; [exact H1|]. split; [vm_compute; reflexivity|].
  split; [exact Hpc | exact Hprog].
Defined.
